(** * Recipe API: ownership-scoped querysets and request handling

    A shallow embedding of [app/recipe/views.py] and [app/user/views.py].
    Tables are lists of rows, a queryset is the list of rows its SQL
    statement returns (a join repeats a row once per matching link), query
    parameters and the media store are finite maps, and an uncaught Python
    exception is the left summand of a result. *)

From Stdlib Require Import ZArith Ascii String.
From stdpp Require Import base tactics option list sorting gmap strings pretty.

Local Open Scope string_scope.
Local Open Scope list_scope.
Local Open Scope Z_scope.

#[local] Set Warnings "-clear-no-such-hyp".

(** ** Python built-ins used by the views *)

Inductive Exception : Type :=
  | ValueError
  | MultipleObjectsReturned
  | Http404
  | NotAuthenticated
  | MethodNotAllowed.

Global Instance Exception_eq_dec : EqDecision Exception.
Proof. solve_decision. Defined.

(** A computation that either raises or returns. *)
Definition Result (A : Type) : Type := Exception + A.

Definition raise {A} (e : Exception) : Result A := inl e.

Global Instance Result_ret : MRet Result := λ A a, inr a.
Global Instance Result_bind : MBind Result := λ A B k m,
  match m with
  | inl e => inl e
  | inr a => k a
  end.

Module Py.

(** [s.split(sep)] for a one-character separator: the pieces between
    the separators, empty pieces kept, so that the result is never
    empty. *)
Fixpoint split (sep : ascii) (s : string) : list string :=
  match s with
  | EmptyString => [EmptyString]
  | String c s' =>
      if decide (c = sep) then EmptyString :: split sep s'
      else match split sep s' with
           | t :: ts => String c t :: ts
           | [] => [String c EmptyString]
           end
  end.

(** The code points below 256 that [int()] skips around a literal: the
    blanks of the C locale (9 to 13 and 32) and the two that a string
    with a character outside ASCII has turned into a blank first (133
    and 160).  [str.isspace()] holds of 28 to 31 as well; [int()] does
    not skip them. *)
Definition isspace (c : ascii) : bool :=
  let n := N_of_ascii c in
  ((9 <=? n) && (n <=? 13) || (n =? 32) || (n =? 133) || (n =? 160))%N.

Definition isdigit (c : ascii) : bool :=
  let n := N_of_ascii c in ((48 <=? n) && (n <=? 57))%N.

Definition digit_value (c : ascii) : Z := Z.of_N (N_of_ascii c) - 48.

Fixpoint lstrip (l : list ascii) : list ascii :=
  match l with
  | c :: l' => if isspace c then lstrip l' else l
  | [] => []
  end.

Definition strip (l : list ascii) : list ascii :=
  rev (lstrip (rev (lstrip l))).

(** The digits of a base-10 literal; a single underscore may separate two
    digits.  [after_digit] tells whether the previous character was a
    digit. *)
Fixpoint digits (acc : Z) (after_digit : bool) (l : list ascii) : option Z :=
  match l with
  | [] => if after_digit then Some acc else None
  | c :: l' =>
      if isdigit c then digits (10 * acc + digit_value c) true l'
      else if decide (c = "_"%char) then
        if after_digit then digits acc false l' else None
      else None
  end.

(** [sys.int_info.default_max_str_digits]: [int()] raises [ValueError] on
    a literal with more digits, leading zeros counted and underscores
    not. *)
Definition max_str_digits : Z := 4300.

Definition count_digits (l : list ascii) : Z :=
  Z.of_nat (length (filter (λ c, isdigit c = true) l)).

(** The value of a string as a base-10 integer literal: surrounding
    whitespace is dropped, a sign may come first, and the digits are no
    more than the interpreter's limit. *)
Definition int_literal (s : string) : option Z :=
  let l := strip (list_ascii_of_string s) in
  if count_digits l <=? max_str_digits then
    match l with
    | "+"%char :: l => digits 0 false l
    | "-"%char :: l => Z.opp <$> digits 0 false l
    | l => digits 0 false l
    end
  else None.

(** [int(s)] on a string *)
Definition int (s : string) : Result Z :=
  match int_literal s with
  | Some n => mret n
  | None => raise ValueError
  end.

(** Truth value of a string: only the empty string is false. *)
Definition truthy (s : string) : bool :=
  match s with
  | EmptyString => false
  | String _ _ => true
  end.

End Py.

(** ** Data model *)

(** Modelled from the spec: [core/models.py] is not among the sources; the
    columns are those of the spec's data model and of the tests. *)
Record User : Type := mkUser {
  u_id : Z;
  u_email : string;
  u_password : string;   (* the stored hash *)
  u_name : string;
  u_is_active : bool;
  u_is_staff : bool;
  u_is_superuser : bool;
}.

(** Modelled from the spec: a recipe is "owned by exactly one User; title,
    numeric time estimate, decimal price, description, optional external
    link, optional image reference". *)
Record Recipe : Type := mkRecipe {
  r_id : Z;
  r_user : Z;
  r_title : string;
  r_time_minutes : Z;
  r_price : Z;           (* in hundredths *)
  r_description : string;
  r_link : string;
  r_image : option string;
}.

(** Modelled from the spec: a tag or an ingredient is "owned by a User"
    and named; both tables have the same columns. *)
Record Label : Type := mkLabel {
  l_id : Z;
  l_user : Z;
  l_name : string;
}.

Global Instance User_eq_dec : EqDecision User.
Proof. solve_decision. Defined.
Global Instance Recipe_eq_dec : EqDecision Recipe.
Proof. solve_decision. Defined.
Global Instance Label_eq_dec : EqDecision Label.
Proof. solve_decision. Defined.

(** A many-to-many table: rows [(recipe_id, label_id)]. *)
Definition Through : Type := list (Z * Z).

Record DB : Type := mkDB {
  users : list User;
  recipes : list Recipe;
  tags : list Label;
  ingredients : list Label;
  recipe_tags : Through;
  recipe_ingredients : Through;
  tokens : list (string * Z);        (* key, user_id *)
  media : gmap string string;        (* file name to content *)
  user_seq : Z;                      (* next value of each id sequence *)
  recipe_seq : Z;
  tag_seq : Z;
  ingredient_seq : Z;
}.

(** ** Querysets *)

Module ORM.

(** [qs.filter(<m2m>__id__in=ids)] on recipes: the inner join with the
    link table, one output row per matching link. *)
Definition filter_m2m_id_in (through : Through) (ids : list Z)
    (qs : list Recipe) : list Recipe :=
  r ← qs;
  link ← through;
  if decide (link.1 = r_id r ∧ link.2 ∈ ids) then [r] else [].

(** [qs.filter(recipe__isnull=False)] on labels: the inner join with the
    link table, one output row per link of the label. *)
Definition filter_recipe_notnull (through : Through)
    (qs : list Label) : list Label :=
  l ← qs;
  link ← through;
  if decide (link.2 = l_id l) then [l] else [].

(** [order_by('-id')] *)
Definition id_desc (a b : Recipe) : Prop := (r_id b ≤ r_id a)%Z.
Global Instance id_desc_dec : RelDecision id_desc.
Proof. intros a b; unfold id_desc; apply _. Defined.
Definition order_by_id_desc (qs : list Recipe) : list Recipe :=
  merge_sort id_desc qs.

(** [order_by('-name')], names compared by code point. *)
Definition name_desc (a b : Label) : Prop :=
  String.le (l_name b) (l_name a).
Global Instance name_desc_dec : RelDecision name_desc.
Proof. intros a b; unfold name_desc; apply _. Defined.
Definition order_by_name_desc (qs : list Label) : list Label :=
  merge_sort name_desc qs.

(** [distinct()] *)
Definition distinct {A} `{EqDecision A} (qs : list A) : list A :=
  remove_dups qs.

(** [qs.get(pk=pk)]: [None] is [DoesNotExist]. *)
Definition get_pk {A} (pk_of : A → Z) (pk : Z) (qs : list A)
    : Result (option A) :=
  match filter (λ x, pk_of x = pk) qs with
  | [] => mret None
  | [x] => mret (Some x)
  | _ :: _ :: _ => raise MultipleObjectsReturned
  end.

End ORM.

(** ** Requests and responses *)

Inductive Status : Type :=
  | HTTP_200_OK
  | HTTP_201_CREATED
  | HTTP_204_NO_CONTENT
  | HTTP_400_BAD_REQUEST
  | HTTP_401_UNAUTHORIZED
  | HTTP_403_FORBIDDEN
  | HTTP_404_NOT_FOUND
  | HTTP_405_METHOD_NOT_ALLOWED.

Global Instance Status_eq_dec : EqDecision Status.
Proof. solve_decision. Defined.

(** The value posted for a file field: a file, or something else. *)
Inductive FieldData : Type :=
  | NotAFile (s : string)
  | File (name : string) (content : string).

(** [request.data] of the recipe, tag and ingredient endpoints: every key
    may be missing. *)
Record Data : Type := mkData {
  d_title : option string;
  d_time_minutes : option Z;
  d_price : option Z;
  d_description : option string;
  d_link : option string;
  d_tags : option (list string);          (* the nested names *)
  d_ingredients : option (list string);
  d_image : option FieldData;
  d_name : option string;
}.

Definition no_data : Data :=
  mkData None None None None None None None None None.

Inductive Method : Type := GET | POST | PUT | PATCH | DELETE.

(** The routes a router registers for a viewset. *)
Inductive Route : Type :=
  | ListRoute                    (* /<prefix>/ *)
  | DetailRoute (pk : Z)         (* /<prefix>/{pk}/ *)
  | UploadImageRoute (pk : Z).   (* /<prefix>/{pk}/upload-image/ *)

Record Request : Type := mkRequest {
  method : Method;
  route : Route;
  user : option Z;               (* [None]: no valid token *)
  query_params : gmap string string;
  data : Data;
  uuid : string;                 (* what [uuid.uuid4()] draws, if called *)
}.

Inductive Body : Type :=
  | NoBody
  | RecipeRows (rows : list Recipe)
  | RecipeRow (row : Recipe)
  | LabelRows (rows : list Label)
  | LabelRow (row : Label)
  | ImageRow (id : Z) (image : option string)
  | Dict (fields : gmap string string)
  | Errors (errors : gmap string string).    (* field to message *)

Record Response : Type := mkResponse {
  status_code : Status;
  body : Body;
}.

(** [APIView.handle_exception]: the exceptions the framework turns into a
    response; anything else is raised again. *)
Definition handle_exception (r : Result Response) : Result Response :=
  match r with
  | inl Http404 => inr (mkResponse HTTP_404_NOT_FOUND NoBody)
  | inl NotAuthenticated => inr (mkResponse HTTP_401_UNAUTHORIZED NoBody)
  | inl MethodNotAllowed => inr (mkResponse HTTP_405_METHOD_NOT_ALLOWED NoBody)
  | r => r
  end.

(** [get_object_or_404(queryset, pk=pk)] *)
Definition get_object_or_404 {A} (pk_of : A → Z) (queryset : list A) (pk : Z)
    : Result A :=
  o ← ORM.get_pk pk_of pk queryset;
  match o with
  | Some obj => mret obj
  | None => raise Http404
  end.

(** ** Table access *)

Inductive Kind : Type := TagKind | IngredientKind.

Definition labels (k : Kind) (db : DB) : list Label :=
  match k with TagKind => tags db | IngredientKind => ingredients db end.

Definition through (k : Kind) (db : DB) : Through :=
  match k with
  | TagKind => recipe_tags db
  | IngredientKind => recipe_ingredients db
  end.

Definition label_seq (k : Kind) (db : DB) : Z :=
  match k with TagKind => tag_seq db | IngredientKind => ingredient_seq db end.

Definition set_users (v : list User) (n : Z) (db : DB) : DB :=
  mkDB v (recipes db) (tags db) (ingredients db) (recipe_tags db)
    (recipe_ingredients db) (tokens db) (media db)
    n (recipe_seq db) (tag_seq db) (ingredient_seq db).

Definition set_recipes (v : list Recipe) (db : DB) : DB :=
  mkDB (users db) v (tags db) (ingredients db) (recipe_tags db)
    (recipe_ingredients db) (tokens db) (media db)
    (user_seq db) (recipe_seq db) (tag_seq db) (ingredient_seq db).

Definition set_recipe_seq (n : Z) (db : DB) : DB :=
  mkDB (users db) (recipes db) (tags db) (ingredients db) (recipe_tags db)
    (recipe_ingredients db) (tokens db) (media db)
    (user_seq db) n (tag_seq db) (ingredient_seq db).

Definition set_labels (k : Kind) (v : list Label) (db : DB) : DB :=
  match k with
  | TagKind =>
      mkDB (users db) (recipes db) v (ingredients db) (recipe_tags db)
        (recipe_ingredients db) (tokens db) (media db)
        (user_seq db) (recipe_seq db) (tag_seq db) (ingredient_seq db)
  | IngredientKind =>
      mkDB (users db) (recipes db) (tags db) v (recipe_tags db)
        (recipe_ingredients db) (tokens db) (media db)
        (user_seq db) (recipe_seq db) (tag_seq db) (ingredient_seq db)
  end.

Definition set_label_seq (k : Kind) (n : Z) (db : DB) : DB :=
  match k with
  | TagKind =>
      mkDB (users db) (recipes db) (tags db) (ingredients db) (recipe_tags db)
        (recipe_ingredients db) (tokens db) (media db)
        (user_seq db) (recipe_seq db) n (ingredient_seq db)
  | IngredientKind =>
      mkDB (users db) (recipes db) (tags db) (ingredients db) (recipe_tags db)
        (recipe_ingredients db) (tokens db) (media db)
        (user_seq db) (recipe_seq db) (tag_seq db) n
  end.

Definition set_through (k : Kind) (v : Through) (db : DB) : DB :=
  match k with
  | TagKind =>
      mkDB (users db) (recipes db) (tags db) (ingredients db) v
        (recipe_ingredients db) (tokens db) (media db)
        (user_seq db) (recipe_seq db) (tag_seq db) (ingredient_seq db)
  | IngredientKind =>
      mkDB (users db) (recipes db) (tags db) (ingredients db) (recipe_tags db)
        v (tokens db) (media db)
        (user_seq db) (recipe_seq db) (tag_seq db) (ingredient_seq db)
  end.

Definition set_tokens (v : list (string * Z)) (db : DB) : DB :=
  mkDB (users db) (recipes db) (tags db) (ingredients db) (recipe_tags db)
    (recipe_ingredients db) v (media db)
    (user_seq db) (recipe_seq db) (tag_seq db) (ingredient_seq db).

Definition set_media (v : gmap string string) (db : DB) : DB :=
  mkDB (users db) (recipes db) (tags db) (ingredients db) (recipe_tags db)
    (recipe_ingredients db) (tokens db) v
    (user_seq db) (recipe_seq db) (tag_seq db) (ingredient_seq db).

(** [Model.objects.create(...)] with the id drawn from the sequence. *)
Definition insert_recipe (mk : Z → Recipe) (db : DB) : DB * Recipe :=
  let r := mk (recipe_seq db) in
  (set_recipe_seq (recipe_seq db + 1) (set_recipes (recipes db ++ [r]) db), r).

Definition insert_label (k : Kind) (owner : Z) (name : string) (db : DB)
    : DB * Label :=
  let l := mkLabel (label_seq k db) owner name in
  (set_label_seq k (label_seq k db + 1) (set_labels k (labels k db ++ [l]) db),
   l).

(** [instance.save()] on a row that exists: the row with that id is
    replaced. *)
Definition save_recipe (r : Recipe) (db : DB) : DB :=
  set_recipes
    (map (λ r0, if decide (r_id r0 = r_id r) then r else r0) (recipes db)) db.

Definition save_label (k : Kind) (l : Label) (db : DB) : DB :=
  set_labels k
    (map (λ l0, if decide (l_id l0 = l_id l) then l else l0) (labels k db)) db.

(** [instance.delete()]: the row goes, and with it its link rows. *)
Definition delete_recipe (r : Recipe) (db : DB) : DB :=
  set_through TagKind
    (filter (λ link, link.1 ≠ r_id r) (recipe_tags db))
    (set_through IngredientKind
       (filter (λ link, link.1 ≠ r_id r) (recipe_ingredients db))
       (set_recipes (filter (λ r0, r_id r0 ≠ r_id r) (recipes db)) db)).

Definition delete_label (k : Kind) (l : Label) (db : DB) : DB :=
  set_through k (filter (λ link, link.2 ≠ l_id l) (through k db))
    (set_labels k (filter (λ l0, l_id l0 ≠ l_id l) (labels k db)) db).

(** ** Serializers *)

Module serializer.

(** Modelled from the spec: [recipe/serializer.py] is not among the
    sources.  "For each [name], an existing user-owned label with that
    exact name is reused; otherwise a new one is created." *)
Definition get_or_create (k : Kind) (owner : Z) (name : string) (db : DB)
    : DB * Label :=
  match filter (λ l, l_user l = owner ∧ l_name l = name) (labels k db) with
  | l :: _ => (db, l)
  | [] => insert_label k owner name db
  end.

(** [recipe.tags.add(label)]: a link that is there already is not added
    again. *)
Definition add_link (k : Kind) (rid lid : Z) (db : DB) : DB :=
  if decide ((rid, lid) ∈ through k db) then db
  else set_through k (through k db ++ [(rid, lid)]) db.

(** [recipe.tags.clear()] *)
Definition clear_links (k : Kind) (rid : Z) (db : DB) : DB :=
  set_through k (filter (λ link, link.1 ≠ rid) (through k db)) db.

(** Modelled from the spec: the nested names of a payload are looked up
    or created one after the other for the requesting user, and each
    label is linked to the recipe. *)
Definition _get_or_create_labels (k : Kind) (owner : Z)
    (names : list string) (rid : Z) (db : DB) : DB :=
  foldl
    (λ db name,
       let '(db', l) := get_or_create k owner name db in
       add_link k rid (l_id l) db')
    db names.

(** Modelled from the spec: a recipe has a title, a time estimate, a
    price and a description; link and image are optional.  A partial
    update requires no field. *)
Definition is_valid (partial : bool) (d : Data) : bool :=
  partial
  || bool_decide (is_Some (d_title d) ∧ is_Some (d_time_minutes d)
                  ∧ is_Some (d_price d) ∧ is_Some (d_description d)).

(** Modelled from the spec: validation failures carry "field-level
    messages". *)
Definition errors (d : Data) : gmap string string :=
  let missing (present : bool) (field : string) : gmap string string :=
    if present then ∅ else {[ field := "This field is required." ]} in
  missing (bool_decide (is_Some (d_title d))) "title"
  ∪ missing (bool_decide (is_Some (d_time_minutes d))) "time_minutes"
  ∪ missing (bool_decide (is_Some (d_price d))) "price"
  ∪ missing (bool_decide (is_Some (d_description d))) "description".

(** Modelled from the spec: create stores the recipe for its owner, then
    gets or creates the nested tags and ingredients. *)
Definition create (owner : Z) (d : Data) (db : DB) : DB * Recipe :=
  let '(db, recipe) :=
    insert_recipe
      (λ id, mkRecipe id owner (default "" (d_title d))
               (default 0 (d_time_minutes d)) (default 0 (d_price d))
               (default "" (d_description d)) (default "" (d_link d)) None)
      db in
  let db :=
    _get_or_create_labels TagKind owner (default [] (d_tags d))
      (r_id recipe) db in
  let db :=
    _get_or_create_labels IngredientKind owner
      (default [] (d_ingredients d)) (r_id recipe) db in
  (db, recipe).

(** Modelled from the spec and from [test_update_recipe_assign_tag]: a
    list of names in an update replaces the links of the recipe; a
    missing list leaves them. *)
Definition update_labels (k : Kind) (owner : Z)
    (names : option (list string)) (rid : Z) (db : DB) : DB :=
  match names with
  | Some names =>
      _get_or_create_labels k owner names rid (clear_links k rid db)
  | None => db
  end.

(** Modelled from the spec: an update writes the fields the payload
    carries and keeps the others, the owner and the image. *)
Definition update (owner : Z) (instance : Recipe) (d : Data) (db : DB)
    : DB * Recipe :=
  let db := update_labels TagKind owner (d_tags d) (r_id instance) db in
  let db :=
    update_labels IngredientKind owner (d_ingredients d)
      (r_id instance) db in
  let recipe :=
    mkRecipe (r_id instance) (r_user instance)
      (default (r_title instance) (d_title d))
      (default (r_time_minutes instance) (d_time_minutes d))
      (default (r_price instance) (d_price d))
      (default (r_description instance) (d_description d))
      (default (r_link instance) (d_link d))
      (r_image instance) in
  (save_recipe recipe db, recipe).

(** Modelled from the spec: a tag or ingredient is updated by name. *)
Definition label_is_valid (partial : bool) (d : Data) : bool :=
  partial || bool_decide (is_Some (d_name d)).

(** Modelled from the spec: the row keeps its id and owner. *)
Definition label_update (k : Kind) (instance : Label) (d : Data) (db : DB)
    : DB * Label :=
  let l :=
    mkLabel (l_id instance) (l_user instance)
      (default (l_name instance) (d_name d)) in
  (save_label k l db, l).

(** [os.path.splitext(name)[1]], on the reversed name: the text from the
    last dot of the last path component, unless only dots come before
    it. *)
Fixpoint only_dots (l : list ascii) : bool :=
  match l with
  | [] => true
  | c :: l' =>
      if decide (c = "/"%char) then true
      else if decide (c = "."%char) then only_dots l' else false
  end.

Fixpoint splitext_rev (acc : list ascii) (l : list ascii) : list ascii :=
  match l with
  | [] => []
  | c :: l' =>
      if decide (c = "/"%char) then []
      else if decide (c = "."%char) then
        if only_dots l' then [] else c :: acc
      else splitext_rev (c :: acc) l'
  end.

Definition splitext_ext (name : string) : string :=
  string_of_list_ascii (splitext_rev [] (rev (list_ascii_of_string name))).

(** Modelled from the spec and from [test_recipe_file_name_uuid]:
    [core/models.py] is not among the sources. *)
Definition recipe_image_file_path (uuid : string) (filename : string)
    : string :=
  "uploads/recipe/" +:+ uuid +:+ splitext_ext filename.

Section Image.
(** Whether the imaging library can decode a file content. *)
Context (decodable : string → bool).

(** Modelled from the spec: "a single image payload, validated as a
    decodable image". *)
Definition image_is_valid (d : Data) : bool :=
  match d_image d with
  | Some (File _ content) => decodable content
  | Some (NotAFile _) | None => false
  end.

(** Modelled from the spec: an invalid payload is reported on the image
    field. *)
Definition image_errors (d : Data) : gmap string string :=
  match d_image d with
  | None => {[ "image" := "No file was submitted." ]}
  | Some (NotAFile _) =>
      {[ "image" := "The submitted data was not a file." ]}
  | Some (File _ _) =>
      {[ "image" := "Upload a valid image." ]}
  end.

(** Modelled from the spec: saving stores the file under a fresh name
    and makes it the image of the recipe, "replacing any prior image
    for that recipe". *)
Definition image_save (uuid : string) (instance : Recipe) (d : Data)
    (db : DB) : DB * Recipe :=
  match d_image d with
  | Some (File name content) =>
      let path := recipe_image_file_path uuid name in
      let recipe :=
        mkRecipe (r_id instance) (r_user instance) (r_title instance)
          (r_time_minutes instance) (r_price instance)
          (r_description instance) (r_link instance) (Some path) in
      (save_recipe recipe (set_media (<[path := content]> (media db)) db),
       recipe)
  | _ => (db, instance)
  end.
End Image.

End serializer.

(** ** recipe/views.py *)

Definition ok (db : DB) (status : Status) (b : Body) : DB * Result Response :=
  (db, inr (mkResponse status b)).

Module RecipeViewSet.
Section RecipeViewSet.
Context (decodable : string → bool).

(** [[int(q) for q in qs.split(',')]] *)
Definition _params_to_ints (qs : string) : Result (list Z) :=
  mapM (M := Result) Py.int (Py.split ","%char qs).

(** [if param:] on the result of [query_params.get(...)] *)
Definition given (param : option string) : option string :=
  match param with
  | Some s => if Py.truthy s then Some s else None
  | None => None
  end.

Definition get_queryset (db : DB) (user : Z)
    (query_params : gmap string string) : Result (list Recipe) :=
  let tags := query_params !! "tags" in
  let ingredients := query_params !! "ingredients" in
  let queryset := recipes db in
  queryset ←
    match given tags with
    | Some tags =>
        tag_id ← _params_to_ints tags;
        mret (ORM.filter_m2m_id_in (recipe_tags db) tag_id queryset)
    | None => mret queryset
    end;
  queryset ←
    match given ingredients with
    | Some ingredients =>
        ingre_id ← _params_to_ints ingredients;
        mret (ORM.filter_m2m_id_in (recipe_ingredients db) ingre_id
                queryset)
    | None => mret queryset
    end;
  mret (ORM.distinct
          (ORM.order_by_id_desc
             (filter (λ r, r_user r = user) queryset))).

(** [GenericAPIView.get_object] *)
Definition get_object (db : DB) (user : Z) (request : Request) (pk : Z)
    : Result Recipe :=
  queryset ← get_queryset db user (query_params request);
  get_object_or_404 r_id queryset pk.

(** The actions of [ModelViewSet]. *)
Definition list_ (db : DB) (user : Z) (request : Request)
    : DB * Result Response :=
  match get_queryset db user (query_params request) with
  | inr queryset => ok db HTTP_200_OK (RecipeRows queryset)
  | inl e => (db, inl e)
  end.

(** [perform_create]: [serializer.save(user=self.request.user)] *)
Definition perform_create (db : DB) (user : Z) (request : Request)
    : DB * Recipe :=
  serializer.create user (data request) db.

Definition create (db : DB) (user : Z) (request : Request)
    : DB * Result Response :=
  if serializer.is_valid false (data request) then
    let '(db', recipe) := perform_create db user request in
    ok db' HTTP_201_CREATED (RecipeRow recipe)
  else ok db HTTP_400_BAD_REQUEST (Errors (serializer.errors (data request))).

Definition retrieve (db : DB) (user : Z) (request : Request) (pk : Z)
    : DB * Result Response :=
  match get_object db user request pk with
  | inr instance => ok db HTTP_200_OK (RecipeRow instance)
  | inl e => (db, inl e)
  end.

Definition update (partial : bool) (db : DB) (user : Z) (request : Request)
    (pk : Z) : DB * Result Response :=
  match get_object db user request pk with
  | inr instance =>
      if serializer.is_valid partial (data request) then
        let '(db', recipe) :=
          serializer.update user instance (data request) db in
        ok db' HTTP_200_OK (RecipeRow recipe)
      else
        ok db HTTP_400_BAD_REQUEST (Errors (serializer.errors (data request)))
  | inl e => (db, inl e)
  end.

Definition destroy (db : DB) (user : Z) (request : Request) (pk : Z)
    : DB * Result Response :=
  match get_object db user request pk with
  | inr instance => ok (delete_recipe instance db) HTTP_204_NO_CONTENT NoBody
  | inl e => (db, inl e)
  end.

Definition upload_image (db : DB) (user : Z) (request : Request) (pk : Z)
    : DB * Result Response :=
  match get_object db user request pk with
  | inr recipe =>
      if serializer.image_is_valid decodable (data request) then
        let '(db', recipe') :=
          serializer.image_save (uuid request) recipe (data request) db in
        ok db' HTTP_200_OK (ImageRow (r_id recipe') (r_image recipe'))
      else
        ok db HTTP_400_BAD_REQUEST
          (Errors (serializer.image_errors (data request)))
  | inl e => (db, inl e)
  end.

(** The handler the router binds to a method on a route. *)
Definition handler (db : DB) (user : Z) (request : Request)
    : DB * Result Response :=
  match route request, method request with
  | ListRoute, GET => list_ db user request
  | ListRoute, POST => create db user request
  | DetailRoute pk, GET => retrieve db user request pk
  | DetailRoute pk, PUT => update false db user request pk
  | DetailRoute pk, PATCH => update true db user request pk
  | DetailRoute pk, DELETE => destroy db user request pk
  | UploadImageRoute pk, POST => upload_image db user request pk
  | _, _ => (db, raise MethodNotAllowed)
  end.

(** [APIView.dispatch]: authentication and permissions first, then the
    handler, exceptions through [handle_exception]. *)
Definition dispatch (db : DB) (request : Request) : DB * Result Response :=
  match user request with
  | None => (db, handle_exception (raise NotAuthenticated))
  | Some u =>
      let '(db', r) := handler db u request in (db', handle_exception r)
  end.

End RecipeViewSet.
End RecipeViewSet.

Module BaseRecipeAttrViewSet.
Section BaseRecipeAttrViewSet.
(** [TagViewSet] and [IngredientViewSet] differ in their table only. *)
Context (k : Kind).

Definition queryset (db : DB) : list Label := labels k db.

(** [bool(int(query_params.get('assigned_only', 0)))] *)
Definition is_assigned_only (query_params : gmap string string)
    : Result bool :=
  match query_params !! "assigned_only" with
  | Some s => n ← Py.int s; mret (bool_decide (n ≠ 0))
  | None => mret false
  end.

Definition get_queryset (db : DB) (user : Z)
    (query_params : gmap string string) : Result (list Label) :=
  is_assigned_only ← is_assigned_only query_params;
  let queryset := queryset db in
  let queryset :=
    if is_assigned_only : bool
    then ORM.filter_recipe_notnull (through k db) queryset
    else queryset in
  mret (ORM.distinct
          (ORM.order_by_name_desc
             (filter (λ l, l_user l = user) queryset))).

Definition get_object (db : DB) (user : Z) (request : Request) (pk : Z)
    : Result Label :=
  queryset ← get_queryset db user (query_params request);
  get_object_or_404 l_id queryset pk.

(** [ListModelMixin], [UpdateModelMixin], [DestroyModelMixin] *)
Definition list_ (db : DB) (user : Z) (request : Request)
    : DB * Result Response :=
  match get_queryset db user (query_params request) with
  | inr queryset => ok db HTTP_200_OK (LabelRows queryset)
  | inl e => (db, inl e)
  end.

Definition update (partial : bool) (db : DB) (user : Z) (request : Request)
    (pk : Z) : DB * Result Response :=
  match get_object db user request pk with
  | inr instance =>
      if serializer.label_is_valid partial (data request) then
        let '(db', l) :=
          serializer.label_update k instance (data request) db in
        ok db' HTTP_200_OK (LabelRow l)
      else
        ok db HTTP_400_BAD_REQUEST
          (Errors {[ "name" := "This field is required." ]})
  | inl e => (db, inl e)
  end.

Definition destroy (db : DB) (user : Z) (request : Request) (pk : Z)
    : DB * Result Response :=
  match get_object db user request pk with
  | inr instance =>
      ok (delete_label k instance db) HTTP_204_NO_CONTENT NoBody
  | inl e => (db, inl e)
  end.

(** No retrieve and no create mixin: GET on a detail route and POST on
    the list route have no handler. *)
Definition handler (db : DB) (user : Z) (request : Request)
    : DB * Result Response :=
  match route request, method request with
  | ListRoute, GET => list_ db user request
  | DetailRoute pk, PUT => update false db user request pk
  | DetailRoute pk, PATCH => update true db user request pk
  | DetailRoute pk, DELETE => destroy db user request pk
  | _, _ => (db, raise MethodNotAllowed)
  end.

(** The router registers no upload-image route for these viewsets: that
    URL does not resolve. *)
Definition dispatch (db : DB) (request : Request) : DB * Result Response :=
  match route request, user request with
  | UploadImageRoute _, _ => ok db HTTP_404_NOT_FOUND NoBody
  | _, None => (db, handle_exception (raise NotAuthenticated))
  | _, Some u =>
      let '(db', r) := handler db u request in (db', handle_exception r)
  end.

End BaseRecipeAttrViewSet.
End BaseRecipeAttrViewSet.

(** ** user/views.py *)

(** [request.data] of the user endpoints. *)
Record UserData : Type := mkUserData {
  d_email : option string;
  d_password : option string;
  d_user_name : option string;
}.

Module UserViews.

Definition lower (c : ascii) : ascii :=
  let n := N_of_ascii c in
  if ((65 <=? n) && (n <=? 90))%N then ascii_of_N (n + 32) else c.

Fixpoint lower_string (s : string) : string :=
  match s with
  | EmptyString => EmptyString
  | String c s' => String (lower c) (lower_string s')
  end.

(** [s] with the text after its last at-sign in lower case; [None] when
    it has no at-sign. *)
Fixpoint lower_domain (s : string) : option string :=
  match s with
  | EmptyString => None
  | String c s' =>
      match lower_domain s' with
      | Some t => Some (String c t)
      | None =>
          if decide (c = "@"%char) then Some (String c (lower_string s'))
          else None
      end
  end.

(** Modelled from the spec: "unique email (normalized lower-case
    domain)"; [core/models.py] is not among the sources. *)
Definition normalize_email (email : string) : string :=
  default email (lower_domain email).

Section UserViews.
(** The password hasher, the minimum password length of the serializer
    and the generator of token keys. *)
Context (make_password : string → string).
Context (min_length : nat).
Context (generate_key : DB → string).

Definition check_password (raw : string) (encoded : string) : bool :=
  bool_decide (make_password raw = encoded).

(** Modelled from the spec: the email is "unique", as sent and in its
    normalized form. *)
Definition email_taken (db : DB) (email : string) : bool :=
  bool_decide
    (Exists (λ u, u_email u = email ∨ u_email u = normalize_email email)
       (users db)).

(** Modelled from the spec: [user/serializers.py] is not among the
    sources.  Registration "rejects empty email, enforces a minimum
    password length"; "registering with an already-used email fails". *)
Definition email_errors (db : DB) (d : UserData) : gmap string string :=
  match d_email d with
  | None => {[ "email" := "This field is required." ]}
  | Some email =>
      if negb (Py.truthy email) then
        {[ "email" := "This field may not be blank." ]}
      else if email_taken db email then
        {[ "email" := "user with this email already exists." ]}
      else ∅
  end.

(** Modelled from the spec: registration "enforces a minimum password
    length". *)
Definition password_errors (d : UserData) : gmap string string :=
  match d_password d with
  | None => {[ "password" := "This field is required." ]}
  | Some password =>
      if decide (String.length password < min_length)%nat then
        {[ "password" := "Ensure this field has enough characters." ]}
      else ∅
  end.

(** Modelled from the spec: the field errors of a registration. *)
Definition errors (db : DB) (d : UserData) : gmap string string :=
  email_errors db d ∪ password_errors d.

(** Modelled from the spec: the user is stored with the normalized
    email and the hashed password. *)
Definition create_user (email password name : string) (db : DB)
    : DB * User :=
  let u :=
    mkUser (user_seq db) (normalize_email email) (make_password password)
      name true false false in
  (set_users (users db ++ [u]) (user_seq db + 1) db, u).

(** Modelled from the spec: the profile is returned "without the
    password"; [test_retrieve_success] gives its two fields. *)
Definition profile (u : User) : gmap string string :=
  {[ "email" := u_email u; "name" := u_name u ]}.

(** [CreateUserView]: [POST /user/create] *)
Definition CreateUserView (db : DB) (d : UserData) : DB * Response :=
  if decide (errors db d = ∅) then
    let '(db', u) :=
      create_user (default "" (d_email d)) (default "" (d_password d))
        (default "" (d_user_name d)) db in
    (db', mkResponse HTTP_201_CREATED (Dict (profile u)))
  else (db, mkResponse HTTP_400_BAD_REQUEST (Errors (errors db d))).

(** Modelled from the spec: "validates credentials, fails with an
    authentication error on mismatch". *)
Definition authenticate (db : DB) (email password : string) : option User :=
  head (filter (λ u, u_email u = email ∧ check_password password (u_password u))
          (users db)).

(** [Token.objects.get_or_create(user=user)] *)
Definition token_get_or_create (u : User) (db : DB) : DB * string :=
  match filter (λ t, t.2 = u_id u) (tokens db) with
  | t :: _ => (db, t.1)
  | [] =>
      let key := generate_key db in
      (set_tokens (tokens db ++ [(key, u_id u)]) db, key)
  end.

(** Modelled from the spec: "a generic bad-credentials error without
    distinguishing cause". *)
Definition bad_credentials : gmap string string :=
  {[ "non_field_errors" :=
       "Unable to authenticate with provided credentials" ]}.

(** [CreateTokenView]: [POST /user/token] *)
Definition CreateTokenView (db : DB) (email password : string)
    : DB * Response :=
  match authenticate db email password with
  | Some u =>
      let '(db', key) := token_get_or_create u db in
      (db', mkResponse HTTP_200_OK (Dict {[ "token" := key ]}))
  | None => (db, mkResponse HTTP_400_BAD_REQUEST (Errors bad_credentials))
  end.

End UserViews.
End UserViews.

(** ** Vocabulary of the statements *)

(** The recipe is linked to a label whose id is among [ids]. *)
Definition has_one_of (th : Through) (ids : list Z) (r : Recipe) : Prop :=
  ∃ t, t ∈ ids ∧ (r_id r, t) ∈ th.

(** The condition a filter puts on a recipe: none when the filter is not
    asked for. *)
Definition passes (th : Through) (ids : option (list Z)) (r : Recipe) : Prop :=
  match ids with
  | Some ids => has_one_of th ids r
  | None => True
  end.

(** What a filter parameter asks for: nothing when it is missing or empty,
    else the ids it lists. *)
Definition param_ids (param : option string) : Result (option (list Z)) :=
  match RecipeViewSet.given param with
  | Some s =>
      match RecipeViewSet._params_to_ints s with
      | inr ids => inr (Some ids)
      | inl e => inl e
      end
  | None => inr None
  end.

(** The join a filter adds to a queryset. *)
Definition joined (th : Through) (ids : option (list Z)) (qs : list Recipe)
    : list Recipe :=
  match ids with
  | Some ids => ORM.filter_m2m_id_in th ids qs
  | None => qs
  end.

(** [a] comes before [b] in [rows]. *)
Definition precedes {A} (a b : A) (rows : list A) : Prop :=
  ∃ l1 l2 l3, rows = l1 ++ a :: l2 ++ b :: l3.

(** The recipe table has a primary key and its sequence is ahead of every
    id in use. *)
Record recipes_ok (db : DB) : Prop := {
  recipes_pk : NoDup (r_id <$> recipes db);
  recipes_seq : ∀ r, r ∈ recipes db → r_id r < recipe_seq db;
}.

(** The same for the tag table or the ingredient table. *)
Record labels_ok (k : Kind) (db : DB) : Prop := {
  labels_pk : NoDup (l_id <$> labels k db);
  labels_seq : ∀ l, l ∈ labels k db → l_id l < label_seq k db;
}.

(** The requests that the recipe router hands to an action that looks its
    object up: retrieve, update, partial update, destroy, upload-image. *)
Definition recipe_detail_action (request : Request) (pk : Z) : Prop :=
  (route request = DetailRoute pk
   ∧ method request ∈ [GET; PUT; PATCH; DELETE])
  ∨ (route request = UploadImageRoute pk ∧ method request = POST).

(** The same for the tag and ingredient routers: update, partial update,
    destroy. *)
Definition label_detail_action (request : Request) (pk : Z) : Prop :=
  route request = DetailRoute pk ∧ method request ∈ [PUT; PATCH; DELETE].

(** The recipe requests whose action evaluates the queryset. *)
Definition evaluates_queryset (request : Request) : Prop :=
  (route request = ListRoute ∧ method request = GET)
  ∨ ∃ pk, recipe_detail_action request pk.

Definition with_query_params (qp : gmap string string) (request : Request)
    : Request :=
  mkRequest (method request) (route request) (user request) qp
    (data request) (uuid request).

Definition not_found : Response := mkResponse HTTP_404_NOT_FOUND NoBody.

(** The labels of a kind that a user owns under a name. *)
Definition owned (k : Kind) (u : Z) (n : string) (db : DB) : list Label :=
  filter (λ l, l_user l = u ∧ l_name l = n) (labels k db).

(** The nested names a payload carries for a kind. *)
Definition names_of (k : Kind) (d : Data) : option (list string) :=
  match k with TagKind => d_tags d | IngredientKind => d_ingredients d end.

(** What writing the nested [names] of user [u] for recipe [rid] does
    between [db] and [db']: a name the user has labels for gets no new
    row and the recipe is linked to one of these; any other name gets
    exactly one row, new, of that user, linked to the recipe; rows of
    other users are left as they are and no link to them is added. *)
Definition reused_or_created (k : Kind) (u : Z) (names : list string)
    (rid : Z) (db db' : DB) : Prop :=
  (∀ n, n ∈ names →
        match owned k u n db with
        | [] =>
            ∃ l, owned k u n db' = [l] ∧ (l ∉ labels k db)
                 ∧ (rid, l_id l) ∈ through k db'
        | _ :: _ =>
            owned k u n db' = owned k u n db
            ∧ ∃ l, l ∈ owned k u n db ∧ (rid, l_id l) ∈ through k db'
        end)
  ∧ filter (λ l, l_user l ≠ u) (labels k db')
    = filter (λ l, l_user l ≠ u) (labels k db)
  ∧ ∀ l, l ∈ labels k db' → (rid, l_id l) ∈ through k db' →
         (rid, l_id l) ∈ through k db ∨ l_user l = u.

(** Two states agree on the tables of a kind. *)
Definition same_labels (k : Kind) (db1 db2 : DB) : Prop :=
  labels k db1 = labels k db2 ∧ through k db1 = through k db2
  ∧ label_seq k db1 = label_seq k db2.

(** The payload with another password. *)
Definition with_password (password : string) (d : UserData) : UserData :=
  mkUserData (d_email d) (Some password) (d_user_name d).

(** The pair is the credential of a stored user. *)
Definition credentials_match (make_password : string → string) (db : DB)
    (email password : string) : Prop :=
  ∃ u, u ∈ users db ∧ u_email u = email
       ∧ u_password u = make_password password.

(** ** A small database *)

Module Sample.

(** Two users; the first owns two recipes and two tags, the second one
    recipe and one tag. *)
Definition alice : Z := 1.
Definition bob : Z := 2.

Definition curry : Recipe := mkRecipe 1 alice "Thai Curry" 22 525 "" "" None.
Definition pork : Recipe := mkRecipe 2 alice "Pork" 22 525 "" "" None.
Definition soup : Recipe := mkRecipe 3 bob "Soup" 10 250 "" "" None.

Definition dinner : Label := mkLabel 1 alice "Dinner".
Definition thai : Label := mkLabel 2 alice "Thai".
Definition bobs_dinner : Label := mkLabel 3 bob "Dinner".
Definition salt : Label := mkLabel 1 alice "Salt".

Definition hash (raw : string) : string := "hashed:" +:+ raw.

Definition db : DB :=
  mkDB
    [mkUser alice "alice@example.com" (hash "alicepass") "Alice"
       true false false;
     mkUser bob "bob@example.com" (hash "bobpass") "Bob" true false false]
    [curry; pork; soup]
    [dinner; thai; bobs_dinner]
    [salt]
    [(1, 1); (1, 2); (2, 2); (3, 3)]
    [(1, 1)]
    []
    ∅
    3 4 4 2.

(** A decoder that accepts the contents starting with a marker. *)
Definition decodable (content : string) : bool := String.prefix "JPEG" content.

Definition key_of (db : DB) : string := "key".

Definition get (u : Z) (r : Route) (qp : gmap string string) : Request :=
  mkRequest GET r (Some u) qp no_data "".

Definition send (m : Method) (u : Z) (r : Route) (d : Data) : Request :=
  mkRequest m r (Some u) ∅ d "uuid".

Definition names (tag_names : list string) : Data :=
  mkData (Some "Pad Thai") (Some 30) (Some 900) (Some "") None
    (Some tag_names) None None None.

Definition image (f : FieldData) : Data :=
  mkData None None None None None None None (Some f) None.

End Sample.

(** The characters that can occur in a string [int] accepts. *)
Definition literal_char (c : ascii) : bool :=
  Py.isdigit c || Py.isspace c
  || bool_decide (c = "+"%char ∨ c = "-"%char ∨ c = "_"%char).

(** ** core/management/commands/wait_for_db.py *)

Module wait_for_db.

(** What one call of [self.check(databases=['default'])] does: it returns,
    or raises one of the two errors the command catches, or raises
    something else. *)
Inductive Check : Type :=
  | Up
  | Psycopg2Error
  | OperationalError
  | Unexpected (e : string).

(** A line on the standard output, plain or wrapped by
    [self.style.SUCCESS]. *)
Inductive Line : Type :=
  | Plain (text : string)
  | SUCCESS (text : string).

Global Instance Line_eq_dec : EqDecision Line.
Proof. solve_decision. Defined.

(** What the command has done so far: the lines written, the seconds
    slept, the calls of [check]. *)
Record Console : Type := mkConsole {
  stdout : list Line;
  slept : nat;
  checked : nat;
}.

Definition write (l : Line) (c : Console) : Console :=
  mkConsole (stdout c ++ [l]) (slept c) (checked c).

Definition sleep (seconds : nat) (c : Console) : Console :=
  mkConsole (stdout c) (slept c + seconds) (checked c).

Definition check (c : Console) : Console :=
  mkConsole (stdout c) (slept c) (S (checked c)).

(** How a run ends: the command returns, an exception leaves it, or the
    outcomes at hand are used up while it is still waiting. *)
Inductive Run : Type :=
  | Finished (c : Console)
  | Raised (e : string) (c : Console)
  | Waiting (c : Console).

(** [while db_up is False: ...], then the final line; [checks] are the
    outcomes of the successive calls of [check]. *)
Fixpoint loop (checks : list Check) (c : Console) : Run :=
  match checks with
  | [] => Waiting c
  | Up :: _ => Finished (write (SUCCESS "Database available") (check c))
  | Psycopg2Error :: checks' | OperationalError :: checks' =>
      loop checks'
        (sleep 1
           (write (Plain "Database unavailable, waiting 1 second") (check c)))
  | Unexpected e :: _ => Raised e (check c)
  end.

Definition handle (checks : list Check) : Run :=
  loop checks (write (Plain "Waiting for database...") (mkConsole [] 0 0)).

(** The outcomes that the [except] clause catches. *)
Definition caught (o : Check) : Prop :=
  o = Psycopg2Error ∨ o = OperationalError.

Global Instance Check_eq_dec : EqDecision Check.
Proof. solve_decision. Defined.

Global Instance caught_dec o : Decision (caught o).
Proof. unfold caught. apply _. Defined.

Definition console (r : Run) : Console :=
  match r with Finished c | Raised _ c | Waiting c => c end.

Definition unavailable : Line :=
  Plain "Database unavailable, waiting 1 second".

End wait_for_db.

(** ** Strings of ids *)

(** [str(n)], the text an f-string puts for an integer. *)
Definition str_int (n : Z) : string := pretty n.

(** [sep.join(pieces)] for a one-character separator. *)
Definition join (sep : ascii) (pieces : list string) : string :=
  String.concat (String sep EmptyString) pieces.

(** The string has no occurrence of the character. *)
Definition free_of (sep : ascii) (s : string) : Prop :=
  sep ∉ list_ascii_of_string s.

(** Two filters ask for the same ids: both for none, or both for lists
    with the same elements. *)
Definition same_ids (a b : option (list Z)) : Prop :=
  match a, b with
  | Some x, Some y => ∀ n, n ∈ x ↔ n ∈ y
  | None, None => True
  | _, _ => False
  end.

(** The tag and ingredient requests whose action evaluates the queryset:
    list, update, partial update, destroy. *)
Definition label_evaluates_queryset (request : Request) : Prop :=
  (route request = ListRoute ∧ method request = GET)
  ∨ ∃ pk, label_detail_action request pk.

(** * Properties *)

(** Unfolds the operations of [Result]. *)
Ltac result_simpl :=
  unfold raise, mret, Result_ret, mbind, Result_bind in *; simpl in *.

(** ** Queryset operations *)

Section ORM_facts.

(** Two rows of a table with a primary key that have the same key are
    the same row. *)
Lemma pk_inj {A B} (pk_of : A → B) (table : list A) x y :
  NoDup (pk_of <$> table) → x ∈ table → y ∈ table →
  pk_of x = pk_of y → x = y.
Proof.
  induction table as [|z table IH]; simpl; intros Hnd Hx Hy Heq.
  - by apply elem_of_nil in Hx.
  - apply NoDup_cons in Hnd as [Hz Hnd].
    apply elem_of_cons in Hx as [->|Hx]; apply elem_of_cons in Hy as [->|Hy];
      auto.
    + exfalso. apply Hz. rewrite Heq. by apply list_elem_of_fmap_2.
    + exfalso. apply Hz. rewrite <- Heq. by apply list_elem_of_fmap_2.
Qed.

Lemma elem_of_filter_m2m_id_in th ids qs r :
  r ∈ ORM.filter_m2m_id_in th ids qs
  ↔ r ∈ qs ∧ ∃ t, (r_id r, t) ∈ th ∧ t ∈ ids.
Proof.
  unfold ORM.filter_m2m_id_in. rewrite list_elem_of_bind. split.
  - intros (r0 & Hin & Hr0). apply list_elem_of_bind in Hin.
    destruct Hin as ([rid t] & Hin & Hlink). simpl in Hin.
    case_decide as Hd; [|by apply elem_of_nil in Hin].
    apply list_elem_of_singleton in Hin. subst r0.
    destruct Hd as [-> Ht]. eauto.
  - intros (Hr & t & Hlink & Ht). exists r. split; [|done].
    apply list_elem_of_bind. exists (r_id r, t). split; [|done].
    simpl. rewrite decide_True by done. by apply list_elem_of_singleton.
Qed.

Lemma elem_of_filter_recipe_notnull th qs l :
  l ∈ ORM.filter_recipe_notnull th qs
  ↔ l ∈ qs ∧ ∃ rid, (rid, l_id l) ∈ th.
Proof.
  unfold ORM.filter_recipe_notnull. rewrite list_elem_of_bind. split.
  - intros (l0 & Hin & Hl0). apply list_elem_of_bind in Hin.
    destruct Hin as ([rid t] & Hin & Hlink). simpl in Hin.
    case_decide as Hd; [|by apply elem_of_nil in Hin].
    apply list_elem_of_singleton in Hin. subst. eauto.
  - intros (Hl & rid & Hlink). exists l. split; [|done].
    apply list_elem_of_bind. exists (rid, l_id l). split; [|done].
    simpl. rewrite decide_True by done. by apply list_elem_of_singleton.
Qed.

Lemma elem_of_distinct {A} `{EqDecision A} (qs : list A) x :
  x ∈ ORM.distinct qs ↔ x ∈ qs.
Proof. apply elem_of_remove_dups. Qed.

Lemma NoDup_distinct {A} `{EqDecision A} (qs : list A) :
  NoDup (ORM.distinct qs).
Proof. apply NoDup_remove_dups. Qed.

(** Dropping repeated rows keeps a sorted queryset sorted. *)
Lemma StronglySorted_distinct {A} `{EqDecision A} (R : relation A)
    (qs : list A) :
  StronglySorted R qs → StronglySorted R (ORM.distinct qs).
Proof.
  unfold ORM.distinct. induction 1 as [|x l Hl IH Hx]; simpl.
  - constructor.
  - case_decide; [done|]. constructor; [done|].
    rewrite Forall_forall in Hx |- *. intros y Hy.
    apply Hx. by apply elem_of_remove_dups.
Qed.

Global Instance id_desc_trans : Transitive ORM.id_desc.
Proof. unfold ORM.id_desc. intros a b c ??. lia. Qed.
Global Instance id_desc_total : Total ORM.id_desc.
Proof. unfold ORM.id_desc. intros a b. lia. Qed.

Global Instance name_desc_trans : Transitive ORM.name_desc.
Proof. unfold ORM.name_desc. intros a b c ??. by etrans. Qed.
Global Instance name_desc_total : Total ORM.name_desc.
Proof.
  unfold ORM.name_desc. intros a b.
  destruct (total String.le (l_name a) (l_name b)); auto.
Qed.

Lemma elem_of_order_by_id_desc qs r :
  r ∈ ORM.order_by_id_desc qs ↔ r ∈ qs.
Proof. unfold ORM.order_by_id_desc. by rewrite merge_sort_Permutation. Qed.

Lemma elem_of_order_by_name_desc qs l :
  l ∈ ORM.order_by_name_desc qs ↔ l ∈ qs.
Proof. unfold ORM.order_by_name_desc. by rewrite merge_sort_Permutation. Qed.

(** In a table with a primary key, sorted distinct rows have strictly
    decreasing ids. *)
Lemma StronglySorted_id_strict (table rows : list Recipe) :
  NoDup (r_id <$> table) → rows ⊆ table → NoDup rows →
  StronglySorted ORM.id_desc rows →
  StronglySorted (λ a b, r_id b < r_id a) rows.
Proof.
  intros Hpk Hsub Hnd Hs. induction Hs as [|x l Hl IH Hx]; [constructor|].
  apply NoDup_cons in Hnd as [Hxl Hnd].
  constructor.
  - apply IH; [|done]. intros y Hy. apply Hsub. by right.
  - rewrite Forall_forall in Hx |- *. intros y Hy.
    specialize (Hx y Hy). unfold ORM.id_desc in Hx.
    destruct (decide (r_id y = r_id x)) as [Heq|]; [|lia].
    exfalso. apply Hxl.
    assert (y = x) as ->; [|done].
    apply (pk_inj r_id table); [done| | |done]; apply Hsub;
      [by right|by left].
Qed.

End ORM_facts.

(** ** The recipe queryset *)

Section RecipeQueryset.

Lemma Py_int_inl q e : Py.int q = inl e → e = ValueError.
Proof.
  unfold Py.int. destruct (Py.int_literal q); result_simpl; congruence.
Qed.

Lemma mapM_int_inl (l : list string) e :
  mapM (M := Result) Py.int l = inl e → e = ValueError.
Proof.
  revert e. induction l as [|q l IH]; simpl; intros e; [done|].
  destruct (Py.int q) as [e'|n] eqn:Hq; simpl.
  { intros [= <-]. by eapply Py_int_inl. }
  destruct (mapM _ l) as [e'|ids] eqn:Hl; result_simpl; [|done].
  intros [= <-]. by apply IH.
Qed.

(** The comprehension raises exactly when [int] rejects one of the
    pieces. *)
Lemma mapM_int_raises (l : list string) :
  mapM (M := Result) Py.int l = inl ValueError
  ↔ ∃ q, q ∈ l ∧ Py.int_literal q = None.
Proof.
  induction l as [|q l IH]; simpl.
  - split; [done|]. intros (q & Hq & _). by apply elem_of_nil in Hq.
  - destruct (Py.int_literal q) as [n|] eqn:Hq; unfold Py.int; rewrite Hq.
    + destruct (mapM _ l) as [e'|ids] eqn:Hl; result_simpl.
      * apply mapM_int_inl in Hl as Hl'. subst e'. split; [|done].
        intros _. destruct (proj1 IH eq_refl) as (q' & ? & ?).
        exists q'. split; [by right|done].
      * split; [done|]. intros (q' & Hq' & Hnone).
        apply elem_of_cons in Hq' as [->|Hq']; [congruence|].
        assert (inr ids = inl ValueError :> Result (list Z)); [|done].
        apply IH. eauto.
    + result_simpl. split; [|done]. intros _. exists q.
      split; [by left|done].
Qed.

Lemma digits_foreign c acc after l :
  c ∈ l → Py.isdigit c = false → c ≠ "_"%char → Py.digits acc after l = None.
Proof.
  intros Hin Hd Hu. revert acc after.
  induction l as [|x l IH]; intros acc after; [by apply elem_of_nil in Hin|].
  simpl. apply elem_of_cons in Hin as [<-|Hin].
  - rewrite Hd. by rewrite decide_False.
  - destruct (Py.isdigit x); [by apply IH|].
    case_decide; [|done]. destruct after; [by apply IH|done].
Qed.

Lemma elem_of_lstrip c l : c ∈ l → Py.isspace c = false → c ∈ Py.lstrip l.
Proof.
  intros Hin Hs. induction l as [|x l IH]; [done|]. simpl.
  destruct (Py.isspace x) eqn:Hx; [|done].
  apply elem_of_cons in Hin as [->|Hin]; [congruence|by apply IH].
Qed.

Lemma elem_of_rev {A} (x : A) (l : list A) : x ∈ rev l ↔ x ∈ l.
Proof. rewrite !list_elem_of_In. symmetry. apply in_rev. Qed.

Lemma elem_of_strip c l : c ∈ l → Py.isspace c = false → c ∈ Py.strip l.
Proof.
  intros Hin Hs. unfold Py.strip.
  apply elem_of_rev, elem_of_lstrip; [|done].
  by apply elem_of_rev, elem_of_lstrip.
Qed.

(** A piece with a character that no integer literal has is rejected, and
    so is the empty piece. *)
Lemma int_literal_foreign_char q c :
  c ∈ list_ascii_of_string q → literal_char c = false →
  Py.int_literal q = None.
Proof.
  intros Hin Hc. unfold literal_char in Hc.
  apply orb_false_iff in Hc as [Hc Hsign].
  apply orb_false_iff in Hc as [Hd Hs].
  apply bool_decide_eq_false in Hsign.
  assert (c ≠ "+"%char ∧ c ≠ "-"%char ∧ c ≠ "_"%char) as (Hp & Hm & Hu)
    by tauto.
  pose proof (elem_of_strip c _ Hin Hs) as Hin'.
  unfold Py.int_literal. cbv zeta.
  destruct (Py.count_digits _ <=? Py.max_str_digits); [|done].
  destruct (Py.strip (list_ascii_of_string q)) as [|x l] eqn:Hl;
    [by apply elem_of_nil in Hin'|].
  assert (Py.digits 0 false (x :: l) = None) as Hall
    by (by apply (digits_foreign c)).
  assert (x = c ∨ Py.digits 0 false l = None) as Hcase.
  { apply elem_of_cons in Hin' as [->|Hin']; [by left|].
    right. by apply (digits_foreign c). }
  destruct Hcase as [->|Hrest].
  - destruct c as [[] [] [] [] [] [] [] []]; try exact Hall; congruence.
  - destruct x as [[] [] [] [] [] [] [] []]; try exact Hall;
      by rewrite Hrest.
Qed.

Lemma params_to_ints_inl qs e :
  RecipeViewSet._params_to_ints qs = inl e → e = ValueError.
Proof. apply mapM_int_inl. Qed.

Lemma params_to_ints_raises qs :
  RecipeViewSet._params_to_ints qs = inl ValueError
  ↔ ∃ q, q ∈ Py.split "," qs ∧ Py.int_literal q = None.
Proof. apply mapM_int_raises. Qed.

Lemma param_ids_inl param e : param_ids param = inl e → e = ValueError.
Proof.
  unfold param_ids. destruct (RecipeViewSet.given param) as [s|]; [|done].
  destruct (RecipeViewSet._params_to_ints s) eqn:Hs; [|done].
  intros [= <-]. by eapply params_to_ints_inl.
Qed.

(** With parameters that parse, the queryset is the owner's rows of the
    joins, sorted and without repetition. *)
Lemma get_queryset_inr db u qp tag_ids ing_ids :
  param_ids (qp !! "tags") = inr tag_ids →
  param_ids (qp !! "ingredients") = inr ing_ids →
  RecipeViewSet.get_queryset db u qp
  = inr (ORM.distinct
           (ORM.order_by_id_desc
              (filter (λ r, r_user r = u)
                 (joined (recipe_ingredients db) ing_ids
                    (joined (recipe_tags db) tag_ids (recipes db)))))).
Proof.
  unfold param_ids, RecipeViewSet.get_queryset. intros Ht Hi.
  destruct (RecipeViewSet.given (qp !! "tags")) as [t|].
  - destruct (RecipeViewSet._params_to_ints t) as [|ids]; [done|].
    injection Ht as <-.
    destruct (RecipeViewSet.given (qp !! "ingredients")) as [i|].
    + destruct (RecipeViewSet._params_to_ints i) as [|ids']; [done|].
      by injection Hi as <-.
    + by injection Hi as <-.
  - injection Ht as <-.
    destruct (RecipeViewSet.given (qp !! "ingredients")) as [i|].
    + destruct (RecipeViewSet._params_to_ints i) as [|ids']; [done|].
      by injection Hi as <-.
    + by injection Hi as <-.
Qed.

(** A parameter that does not parse makes the queryset raise. *)
Lemma get_queryset_raises db u qp :
  param_ids (qp !! "tags") = inl ValueError
  ∨ param_ids (qp !! "ingredients") = inl ValueError →
  RecipeViewSet.get_queryset db u qp = inl ValueError.
Proof.
  unfold param_ids, RecipeViewSet.get_queryset. intros H.
  destruct (RecipeViewSet.given (qp !! "tags")) as [t|].
  - destruct (RecipeViewSet._params_to_ints t) as [e|ids] eqn:Ht.
    { apply params_to_ints_inl in Ht. by subst. }
    destruct H as [H|H]; [done|]. result_simpl.
    destruct (RecipeViewSet.given (qp !! "ingredients")) as [i|]; [|done].
    destruct (RecipeViewSet._params_to_ints i); simpl in *; congruence.
  - destruct H as [H|H]; [done|]. result_simpl.
    destruct (RecipeViewSet.given (qp !! "ingredients")) as [i|]; [|done].
    destruct (RecipeViewSet._params_to_ints i); simpl in *; congruence.
Qed.

(** The queryset raises nothing but [ValueError], and returns otherwise:
    it is the list above or that exception. *)
Lemma get_queryset_cases db u qp :
  (∃ tag_ids ing_ids,
      param_ids (qp !! "tags") = inr tag_ids
      ∧ param_ids (qp !! "ingredients") = inr ing_ids)
  ∨ RecipeViewSet.get_queryset db u qp = inl ValueError.
Proof.
  destruct (param_ids (qp !! "tags")) as [e|tag_ids] eqn:Ht.
  { right. apply get_queryset_raises. left.
    apply param_ids_inl in Ht as ?. by subst. }
  destruct (param_ids (qp !! "ingredients")) as [e|ing_ids] eqn:Hi.
  { right. apply get_queryset_raises. right.
    apply param_ids_inl in Hi as ?. by subst. }
  left. eauto.
Qed.

Lemma elem_of_joined th ids qs r :
  r ∈ joined th ids qs ↔ r ∈ qs ∧ passes th ids r.
Proof.
  destruct ids as [ids|]; simpl; [|naive_solver].
  rewrite elem_of_filter_m2m_id_in. unfold has_one_of. naive_solver.
Qed.

Lemma elem_of_get_queryset db u qp tag_ids ing_ids rows r :
  param_ids (qp !! "tags") = inr tag_ids →
  param_ids (qp !! "ingredients") = inr ing_ids →
  RecipeViewSet.get_queryset db u qp = inr rows →
  r ∈ rows
  ↔ r ∈ recipes db ∧ r_user r = u
    ∧ passes (recipe_tags db) tag_ids r
    ∧ passes (recipe_ingredients db) ing_ids r.
Proof.
  intros Ht Hi. rewrite (get_queryset_inr _ _ _ _ _ Ht Hi). intros [= <-].
  rewrite elem_of_distinct, elem_of_order_by_id_desc, list_elem_of_filter,
    !elem_of_joined.
  naive_solver.
Qed.

Lemma get_queryset_NoDup db u qp rows :
  RecipeViewSet.get_queryset db u qp = inr rows → NoDup rows.
Proof.
  destruct (get_queryset_cases db u qp) as [(t & i & Ht & Hi)|H];
    [|by rewrite H].
  rewrite (get_queryset_inr _ _ _ _ _ Ht Hi). intros [= <-].
  apply NoDup_distinct.
Qed.

Lemma get_queryset_sorted db u qp rows :
  RecipeViewSet.get_queryset db u qp = inr rows →
  StronglySorted ORM.id_desc rows.
Proof.
  destruct (get_queryset_cases db u qp) as [(t & i & Ht & Hi)|H];
    [|by rewrite H].
  rewrite (get_queryset_inr _ _ _ _ _ Ht Hi). intros [= <-].
  apply StronglySorted_distinct, StronglySorted_merge_sort; apply _.
Qed.

Lemma get_queryset_subseteq db u qp rows :
  RecipeViewSet.get_queryset db u qp = inr rows →
  rows ⊆ filter (λ r, r_user r = u) (recipes db).
Proof.
  destruct (get_queryset_cases db u qp) as [(t & i & Ht & Hi)|H];
    [|by rewrite H].
  intros Hrows r Hr.
  apply (elem_of_get_queryset _ _ _ _ _ _ _ Ht Hi Hrows) in Hr.
  apply list_elem_of_filter. naive_solver.
Qed.

End RecipeQueryset.

(** ** What the nested writes leave alone *)

Section Frames.

Lemma get_or_create_recipes k u n db :
  recipes (serializer.get_or_create k u n db).1 = recipes db
  ∧ recipe_seq (serializer.get_or_create k u n db).1 = recipe_seq db.
Proof.
  unfold serializer.get_or_create.
  destruct (filter _ _); [|done]. by destruct k.
Qed.

Lemma add_link_recipes k rid lid db :
  recipes (serializer.add_link k rid lid db) = recipes db
  ∧ recipe_seq (serializer.add_link k rid lid db) = recipe_seq db.
Proof. unfold serializer.add_link. case_decide; [done|]. by destruct k. Qed.

Lemma get_or_create_labels_recipes k u names rid db :
  recipes (serializer._get_or_create_labels k u names rid db) = recipes db
  ∧ recipe_seq (serializer._get_or_create_labels k u names rid db)
    = recipe_seq db.
Proof.
  unfold serializer._get_or_create_labels. revert db.
  induction names as [|n names IH]; intros db; simpl; [done|].
  destruct (serializer.get_or_create k u n db) as [db' l] eqn:Hg.
  destruct (IH (serializer.add_link k rid (l_id l) db')) as [-> ->].
  destruct (add_link_recipes k rid (l_id l) db') as [-> ->].
  pose proof (get_or_create_recipes k u n db) as H. rewrite Hg in H.
  apply H.
Qed.

(** Creating a recipe appends one row, numbered by the sequence. *)
Lemma create_recipes u d db :
  let new := (serializer.create u d db).2 in
  recipes (serializer.create u d db).1 = recipes db ++ [new]
  ∧ recipe_seq (serializer.create u d db).1 = recipe_seq db + 1
  ∧ r_id new = recipe_seq db
  ∧ r_user new = u.
Proof.
  unfold serializer.create, insert_recipe. simpl.
  match goal with
  | |- context [serializer._get_or_create_labels IngredientKind u ?ns ?rid
                  (serializer._get_or_create_labels TagKind u ?ms ?rid ?db0)] =>
      destruct (get_or_create_labels_recipes IngredientKind u ns rid
                  (serializer._get_or_create_labels TagKind u ms rid db0))
        as [-> ->];
      destruct (get_or_create_labels_recipes TagKind u ms rid db0)
        as [-> ->]
  end.
  done.
Qed.

Lemma create_recipes_ok u d db :
  recipes_ok db → recipes_ok (serializer.create u d db).1.
Proof.
  intros [Hpk Hseq].
  destruct (create_recipes u d db) as (Hr & Hs & Hid & _).
  split.
  - rewrite Hr, fmap_app. apply NoDup_app. split; [done|]. split.
    + intros x Hx Hx'. simpl in Hx'. apply list_elem_of_singleton in Hx'.
      apply list_elem_of_fmap in Hx as (r & -> & Hr0).
      apply Hseq in Hr0. lia.
    + simpl. apply NoDup_singleton.
  - intros r. rewrite Hr, Hs, elem_of_app, list_elem_of_singleton.
    intros [Hin| ->]; [apply Hseq in Hin|]; lia.
Qed.

End Frames.

(** ** Listing recipes *)

Section RecipeList.
Context (decodable : string → bool).

(** An authenticated GET on the list route answers with the queryset. *)
Lemma dispatch_list db request u :
  method request = GET → route request = ListRoute →
  user request = Some u →
  RecipeViewSet.dispatch decodable db request
  = (db,
     match RecipeViewSet.get_queryset db u (query_params request) with
     | inr rows => inr (mkResponse HTTP_200_OK (RecipeRows rows))
     | inl e => handle_exception (inl e)
     end).
Proof.
  intros Hm Hr Hu. unfold RecipeViewSet.dispatch, RecipeViewSet.handler.
  rewrite Hu, Hm, Hr. unfold RecipeViewSet.list_.
  by destruct (RecipeViewSet.get_queryset _ _ _).
Qed.

Lemma NoDup_ids (table rows : list Recipe) :
  NoDup (r_id <$> table) → rows ⊆ table → NoDup rows →
  NoDup (r_id <$> rows).
Proof.
  intros Hpk Hsub Hnd. apply NoDup_fmap_2_strong; [|done].
  intros x y Hx Hy. apply (pk_inj r_id table); auto.
Qed.

Lemma sorted_precedes (rows : list Recipe) a b :
  StronglySorted (λ a b, r_id b < r_id a) rows →
  a ∈ rows → b ∈ rows → r_id a < r_id b → precedes b a rows.
Proof.
  intros Hs Ha Hb Hlt.
  apply list_elem_of_split in Hb as (l1 & l2 & ->).
  apply StronglySorted_app in Hs as (H12 & _ & H2).
  apply StronglySorted_cons in H2 as [Hb2 _].
  apply elem_of_app in Ha as [Ha|Ha].
  - specialize (H12 a b Ha (list_elem_of_here _ _)). simpl in H12. lia.
  - apply elem_of_cons in Ha as [->|Ha]; [lia|].
    apply list_elem_of_split in Ha as (l3 & l4 & ->).
    by exists l1, l3, l4.
Qed.

(** C2: a recipe list request whose tags parameter, ingredients
    parameter or both are non-empty lists of ids is answered with exactly
    the requesting user's recipes that have a tag among the tag ids (when
    given) and an ingredient among the ingredient ids (when given); no
    row and no recipe id occurs twice. *)
Theorem recipe_list_filters db request u tag_ids ing_ids :
  method request = GET → route request = ListRoute →
  user request = Some u →
  param_ids (query_params request !! "tags") = inr tag_ids →
  param_ids (query_params request !! "ingredients") = inr ing_ids →
  ∃ rows,
    RecipeViewSet.dispatch decodable db request
    = (db, inr (mkResponse HTTP_200_OK (RecipeRows rows)))
    ∧ NoDup rows
    ∧ (NoDup (r_id <$> recipes db) → NoDup (r_id <$> rows))
    ∧ ∀ r, r ∈ rows
           ↔ r ∈ recipes db ∧ r_user r = u
             ∧ passes (recipe_tags db) tag_ids r
             ∧ passes (recipe_ingredients db) ing_ids r.
Proof.
  intros Hm Hr Hu Ht Hi.
  rewrite (dispatch_list _ _ _ Hm Hr Hu).
  pose proof (get_queryset_inr db u _ _ _ Ht Hi) as Hq.
  rewrite Hq. eexists. split; [done|].
  split; [by eapply get_queryset_NoDup|].
  split.
  - intros Hpk. apply (NoDup_ids (recipes db)); [done| |].
    + intros r Hr'. apply (get_queryset_subseteq _ _ _ _ Hq) in Hr'.
      apply list_elem_of_filter in Hr'. tauto.
    + by eapply get_queryset_NoDup.
  - intros r. by apply (elem_of_get_queryset _ _ _ _ _ _ _ Ht Hi).
Qed.

(** The rows of a list response have strictly decreasing ids. *)
Lemma list_rows_sorted db request u rows :
  NoDup (r_id <$> recipes db) →
  method request = GET → route request = ListRoute →
  user request = Some u →
  RecipeViewSet.dispatch decodable db request
  = (db, inr (mkResponse HTTP_200_OK (RecipeRows rows))) →
  StronglySorted (λ a b, r_id b < r_id a) rows.
Proof.
  intros Hpk Hm Hr Hu. rewrite (dispatch_list _ _ _ Hm Hr Hu).
  destruct (RecipeViewSet.get_queryset _ _ _) as [e|rows'] eqn:Hq.
  { destruct e; simpl; intros [=]. }
  intros [= <-].
  apply (StronglySorted_id_strict (recipes db)).
  - done.
  - intros r Hr'. apply (get_queryset_subseteq _ _ _ _ Hq) in Hr'.
    apply list_elem_of_filter in Hr'. tauto.
  - by eapply get_queryset_NoDup.
  - by eapply get_queryset_sorted.
Qed.

(** C7: the rows of a recipe list response have strictly decreasing
    ids, so that a recipe with a greater id comes first; and ids follow
    creation order: a created recipe is numbered above every recipe
    there is, so in a later list response it comes before each older
    recipe in it. *)
Theorem recipe_list_most_recent_first db request u :
  recipes_ok db →
  method request = GET → route request = ListRoute →
  user request = Some u →
  (∀ rows,
      RecipeViewSet.dispatch decodable db request
      = (db, inr (mkResponse HTTP_200_OK (RecipeRows rows))) →
      StronglySorted (λ a b, r_id b < r_id a) rows
      ∧ ∀ a b, a ∈ rows → b ∈ rows → r_id a < r_id b → precedes b a rows)
  ∧ (∀ owner create_request,
       let created := RecipeViewSet.perform_create db owner create_request in
       recipes_ok created.1
       ∧ recipes created.1 = recipes db ++ [created.2]
       ∧ (∀ old, old ∈ recipes db → r_id old < r_id created.2)
       ∧ ∀ rows,
           RecipeViewSet.dispatch decodable created.1 request
           = (created.1, inr (mkResponse HTTP_200_OK (RecipeRows rows))) →
           ∀ old, old ∈ recipes db → old ∈ rows → created.2 ∈ rows →
                  precedes created.2 old rows).
Proof.
  intros Hok Hm Hr Hu. split.
  - intros rows Hrows.
    assert (StronglySorted (λ a b, r_id b < r_id a) rows) as Hs.
    { eapply list_rows_sorted; eauto. apply Hok. }
    split; [done|]. intros a b. by apply sorted_precedes.
  - intros owner create_request created. subst created.
    unfold RecipeViewSet.perform_create.
    destruct (create_recipes owner (data create_request) db)
      as (Hrec & _ & Hid & _).
    pose proof (create_recipes_ok owner (data create_request) db Hok)
      as Hok'.
    assert (∀ old, old ∈ recipes db →
              r_id old < r_id (serializer.create owner (data create_request) db).2)
      as Hlt.
    { intros old Hold. rewrite Hid. by apply Hok. }
    split; [done|]. split; [done|]. split; [done|].
    intros rows Hrows old Hold Hin Hnew.
    apply sorted_precedes; auto.
    eapply list_rows_sorted; eauto. apply Hok'.
Qed.

End RecipeList.

(** ** Listing tags and ingredients *)

Section LabelList.
Context (k : Kind).

Lemma label_get_queryset_inr db u qp flag :
  BaseRecipeAttrViewSet.is_assigned_only qp = inr flag →
  BaseRecipeAttrViewSet.get_queryset k db u qp
  = inr (ORM.distinct
           (ORM.order_by_name_desc
              (filter (λ l, l_user l = u)
                 (if flag
                  then ORM.filter_recipe_notnull (through k db) (labels k db)
                  else labels k db)))).
Proof.
  intros Hf. unfold BaseRecipeAttrViewSet.get_queryset. by rewrite Hf.
Qed.

Lemma is_assigned_only_inl qp e :
  BaseRecipeAttrViewSet.is_assigned_only qp = inl e → e = ValueError.
Proof.
  unfold BaseRecipeAttrViewSet.is_assigned_only.
  destruct (qp !! "assigned_only") as [s|]; [|done].
  destruct (Py.int s) eqn:Hs; result_simpl; [|done].
  intros [= <-]. by eapply Py_int_inl.
Qed.

Lemma label_get_queryset_inl db u qp e :
  BaseRecipeAttrViewSet.get_queryset k db u qp = inl e →
  BaseRecipeAttrViewSet.is_assigned_only qp = inl ValueError.
Proof.
  unfold BaseRecipeAttrViewSet.get_queryset.
  destruct (BaseRecipeAttrViewSet.is_assigned_only qp) as [e'|flag] eqn:Hf;
    [|done].
  intros _. apply is_assigned_only_inl in Hf as ?. by subst.
Qed.

Lemma elem_of_label_get_queryset db u qp flag rows l :
  BaseRecipeAttrViewSet.is_assigned_only qp = inr flag →
  BaseRecipeAttrViewSet.get_queryset k db u qp = inr rows →
  l ∈ rows
  ↔ l ∈ labels k db ∧ l_user l = u
    ∧ (flag = true → ∃ rid, (rid, l_id l) ∈ through k db).
Proof.
  intros Hf. rewrite (label_get_queryset_inr _ _ _ _ Hf). intros [= <-].
  rewrite elem_of_distinct, elem_of_order_by_name_desc, list_elem_of_filter.
  destruct flag.
  - rewrite elem_of_filter_recipe_notnull. naive_solver.
  - naive_solver.
Qed.

Lemma dispatch_label_list db request u :
  method request = GET → route request = ListRoute →
  user request = Some u →
  BaseRecipeAttrViewSet.dispatch k db request
  = (db,
     match BaseRecipeAttrViewSet.get_queryset k db u (query_params request)
     with
     | inr rows => inr (mkResponse HTTP_200_OK (LabelRows rows))
     | inl e => handle_exception (inl e)
     end).
Proof.
  intros Hm Hr Hu.
  unfold BaseRecipeAttrViewSet.dispatch, BaseRecipeAttrViewSet.handler.
  rewrite Hu, Hm, Hr. unfold BaseRecipeAttrViewSet.list_.
  by destruct (BaseRecipeAttrViewSet.get_queryset _ _ _ _).
Qed.

(** C8: a tag or ingredient list request is answered with the user's
    labels sorted by name, greatest first; with [assigned_only=1] the
    rows are exactly the user's labels that some recipe is linked to,
    each once, whatever the number of its links. *)
Theorem label_list_order_and_assigned db request u flag :
  method request = GET → route request = ListRoute →
  user request = Some u →
  BaseRecipeAttrViewSet.is_assigned_only (query_params request) = inr flag →
  (query_params request !! "assigned_only" = Some "1" → flag = true)
  ∧ ∃ rows,
      BaseRecipeAttrViewSet.dispatch k db request
      = (db, inr (mkResponse HTTP_200_OK (LabelRows rows)))
      ∧ StronglySorted (λ a b, String.le (l_name b) (l_name a)) rows
      ∧ NoDup rows
      ∧ (NoDup (l_id <$> labels k db) → NoDup (l_id <$> rows))
      ∧ ∀ l, l ∈ rows
             ↔ l ∈ labels k db ∧ l_user l = u
               ∧ (flag = true → ∃ rid, (rid, l_id l) ∈ through k db).
Proof.
  intros Hm Hr Hu Hf. split.
  { intros H1. unfold BaseRecipeAttrViewSet.is_assigned_only in Hf.
    rewrite H1 in Hf. vm_compute in Hf. congruence. }
  rewrite (dispatch_label_list _ _ _ Hm Hr Hu).
  pose proof (label_get_queryset_inr db u _ _ Hf) as Hq. rewrite Hq.
  eexists. split; [done|]. split.
  { apply StronglySorted_distinct.
    apply (StronglySorted_merge_sort ORM.name_desc). }
  split; [apply NoDup_distinct|]. split.
  - intros Hpk. apply NoDup_fmap_2_strong; [|apply NoDup_distinct].
    intros x y Hx Hy. apply (pk_inj l_id (labels k db)); [done| |].
    + apply (elem_of_label_get_queryset _ _ _ _ _ _ Hf Hq) in Hx. tauto.
    + apply (elem_of_label_get_queryset _ _ _ _ _ _ Hf Hq) in Hy. tauto.
  - intros l. by apply (elem_of_label_get_queryset _ _ _ _ _ _ Hf Hq).
Qed.

End LabelList.

(** ** Looking an object up *)

Section Lookup.

Lemma filter_unique {A} (P : A → Prop) `{∀ x, Decision (P x)}
    (l : list A) x :
  NoDup l → x ∈ l → P x → (∀ y, y ∈ l → P y → y = x) → filter P l = [x].
Proof.
  induction l as [|z l IH]; intros Hnd Hx HP Huniq.
  - by apply elem_of_nil in Hx.
  - apply NoDup_cons in Hnd as [Hz Hnd].
    rewrite filter_cons. apply elem_of_cons in Hx as [<-|Hx].
    + rewrite decide_True by done. f_equal.
      apply elem_of_nil_inv. intros y Hy.
      apply list_elem_of_filter in Hy as [HPy Hy].
      assert (y = x) as -> by (apply Huniq; [by right|done]). done.
    + rewrite decide_False.
      * apply IH; auto. intros y Hy. apply Huniq. by right.
      * intros HPz. assert (z = x) as -> by (apply Huniq; [by left|done]).
        done.
Qed.

Lemma get_object_or_404_missing {A} (pk_of : A → Z) qs pk :
  (∀ x, x ∈ qs → pk_of x ≠ pk) →
  get_object_or_404 pk_of qs pk = inl Http404.
Proof.
  intros Hno. unfold get_object_or_404, ORM.get_pk.
  replace (filter (λ x, pk_of x = pk) qs) with (@nil A); [done|].
  symmetry. apply elem_of_nil_inv. intros x Hx.
  apply list_elem_of_filter in Hx as [? Hx]. by apply Hno in Hx.
Qed.

Lemma get_object_or_404_found {A} (pk_of : A → Z) qs pk x :
  NoDup qs → x ∈ qs → pk_of x = pk →
  (∀ y, y ∈ qs → pk_of y = pk → y = x) →
  get_object_or_404 pk_of qs pk = inr x.
Proof.
  intros Hnd Hx Hpk Huniq. unfold get_object_or_404, ORM.get_pk.
  by rewrite (filter_unique _ qs x Hnd Hx Hpk Huniq).
Qed.

(** The recipe that has the key is not among the rows of the request:
    the lookup ends in [Http404]. *)
Lemma recipe_get_object_404 db u request pk tag_ids ing_ids :
  param_ids (query_params request !! "tags") = inr tag_ids →
  param_ids (query_params request !! "ingredients") = inr ing_ids →
  (∀ r, r ∈ recipes db → r_id r = pk →
        ¬ (r_user r = u ∧ passes (recipe_tags db) tag_ids r
           ∧ passes (recipe_ingredients db) ing_ids r)) →
  RecipeViewSet.get_object db u request pk = inl Http404.
Proof.
  intros Ht Hi Hno. unfold RecipeViewSet.get_object.
  pose proof (get_queryset_inr db u _ _ _ Ht Hi) as Hq. rewrite Hq.
  result_simpl. apply get_object_or_404_missing.
  intros r Hr Hpk.
  apply (elem_of_get_queryset _ _ _ _ _ _ _ Ht Hi Hq) in Hr.
  apply (Hno r); tauto.
Qed.

Lemma recipe_get_object_found db u request pk tag_ids ing_ids r :
  NoDup (r_id <$> recipes db) →
  param_ids (query_params request !! "tags") = inr tag_ids →
  param_ids (query_params request !! "ingredients") = inr ing_ids →
  r ∈ recipes db → r_id r = pk → r_user r = u →
  passes (recipe_tags db) tag_ids r →
  passes (recipe_ingredients db) ing_ids r →
  RecipeViewSet.get_object db u request pk = inr r.
Proof.
  intros Hpk Ht Hi Hr Hid Hu Hpt Hpi. unfold RecipeViewSet.get_object.
  pose proof (get_queryset_inr db u _ _ _ Ht Hi) as Hq. rewrite Hq.
  result_simpl. apply get_object_or_404_found.
  - apply NoDup_distinct.
  - by apply (elem_of_get_queryset _ _ _ _ _ _ _ Ht Hi Hq).
  - done.
  - intros y Hy Hy'.
    apply (elem_of_get_queryset _ _ _ _ _ _ _ Ht Hi Hq) in Hy.
    apply (pk_inj r_id (recipes db)); [done|tauto|done|congruence].
Qed.

Lemma label_get_object_404 k db u request pk flag :
  BaseRecipeAttrViewSet.is_assigned_only (query_params request) = inr flag →
  (∀ l, l ∈ labels k db → l_id l = pk → l_user l ≠ u) →
  BaseRecipeAttrViewSet.get_object k db u request pk = inl Http404.
Proof.
  intros Hf Hno. unfold BaseRecipeAttrViewSet.get_object.
  pose proof (label_get_queryset_inr k db u _ _ Hf) as Hq. rewrite Hq.
  result_simpl. apply get_object_or_404_missing.
  intros l Hl Hpk.
  apply (elem_of_label_get_queryset _ _ _ _ _ _ _ Hf Hq) in Hl.
  apply (Hno l); tauto.
Qed.

(** A detail action whose lookup raises changes nothing and hands the
    exception to [handle_exception]. *)
Lemma recipe_dispatch_lookup_raises decodable db request u pk e :
  user request = Some u → recipe_detail_action request pk →
  RecipeViewSet.get_object db u request pk = inl e →
  RecipeViewSet.dispatch decodable db request
  = (db, handle_exception (inl e)).
Proof.
  intros Hu Hact He. unfold RecipeViewSet.dispatch, RecipeViewSet.handler.
  rewrite Hu.
  destruct Hact as [[-> Hm]|[-> ->]].
  - repeat (apply elem_of_cons in Hm as [->|Hm]);
      [..|by apply elem_of_nil in Hm];
      unfold RecipeViewSet.retrieve, RecipeViewSet.update,
        RecipeViewSet.destroy; by rewrite He.
  - unfold RecipeViewSet.upload_image. by rewrite He.
Qed.

Lemma label_dispatch_lookup_raises k db request u pk e :
  user request = Some u → label_detail_action request pk →
  BaseRecipeAttrViewSet.get_object k db u request pk = inl e →
  BaseRecipeAttrViewSet.dispatch k db request
  = (db, handle_exception (inl e)).
Proof.
  intros Hu [Hr Hm] He.
  unfold BaseRecipeAttrViewSet.dispatch, BaseRecipeAttrViewSet.handler.
  rewrite Hu, Hr.
  repeat (apply elem_of_cons in Hm as [->|Hm]);
    [..|by apply elem_of_nil in Hm];
    unfold BaseRecipeAttrViewSet.update, BaseRecipeAttrViewSet.destroy;
    by rewrite He.
Qed.

Lemma get_object_or_404_inr {A} (pk_of : A → Z) qs pk x :
  get_object_or_404 pk_of qs pk = inr x → x ∈ qs ∧ pk_of x = pk.
Proof.
  unfold get_object_or_404, ORM.get_pk.
  destruct (filter (λ x, pk_of x = pk) qs) as [|y [|z l]] eqn:Hf;
    result_simpl; try done.
  intros [= <-].
  assert (y ∈ filter (λ x, pk_of x = pk) qs) as Hin by (rewrite Hf; by left).
  apply list_elem_of_filter in Hin. tauto.
Qed.

Lemma recipe_get_object_inr db u request pk r :
  RecipeViewSet.get_object db u request pk = inr r →
  r ∈ recipes db ∧ r_id r = pk ∧ r_user r = u.
Proof.
  unfold RecipeViewSet.get_object.
  destruct (RecipeViewSet.get_queryset _ _ _) as [|rows] eqn:Hq;
    result_simpl; [done|].
  intros [Hin Hid]%get_object_or_404_inr.
  apply (get_queryset_subseteq _ _ _ _ Hq) in Hin.
  apply list_elem_of_filter in Hin. tauto.
Qed.

End Lookup.

(** ** Ownership, filters on detail routes, malformed parameters *)

Section Scoping.
Context (decodable : string → bool).

(** C10: the queryset of a retrieve, update, partial update, destroy or
    upload-image request is filtered by the tags and ingredients
    parameters as that of a list request is; when the parameters exclude
    the requesting user's own recipe, the request is answered 404 and
    nothing is written, although the same request without query
    parameters finds the recipe. *)
Theorem filters_apply_to_detail_actions db request u pk r tag_ids ing_ids :
  user request = Some u → recipe_detail_action request pk →
  NoDup (r_id <$> recipes db) →
  r ∈ recipes db → r_user r = u → r_id r = pk →
  param_ids (query_params request !! "tags") = inr tag_ids →
  param_ids (query_params request !! "ingredients") = inr ing_ids →
  ¬ (passes (recipe_tags db) tag_ids r
     ∧ passes (recipe_ingredients db) ing_ids r) →
  RecipeViewSet.dispatch decodable db request = (db, inr not_found)
  ∧ RecipeViewSet.get_object db u (with_query_params ∅ request) pk = inr r.
Proof.
  intros Hu Hact Hpk Hr Hown Hid Ht Hi Hex. split.
  - rewrite (recipe_dispatch_lookup_raises _ _ _ u pk Http404); [done..|].
    apply (recipe_get_object_404 _ _ _ _ tag_ids ing_ids); [done..|].
    intros r' Hr' Hid' (_ & Hpt & Hpi). apply Hex.
    assert (r' = r) as <-; [|done].
    apply (pk_inj r_id (recipes db)); [done..|congruence].
  - by apply (recipe_get_object_found _ _ _ _ None None).
Qed.

(** C1 (amended): what a user gets from the recipe, tag and ingredient
    endpoints is scoped to that user.  The rows of a list response are
    owned by the requesting user.  A retrieve, update, partial update,
    destroy or upload-image on a recipe of another user, and an update,
    partial update or destroy on a tag or ingredient of another user, is
    answered 404 and writes nothing, provided the query parameters
    parse.  The tag and ingredient viewsets have no retrieve action: a
    GET on their detail route is answered 405 and writes nothing,
    whoever owns the record and whether or not there is one. *)
Theorem cross_user_access_not_found db request a b pk :
  a ≠ b → user request = Some a →
  (* recipes *)
  (∀ rows,
      RecipeViewSet.dispatch decodable db request
      = (db, inr (mkResponse HTTP_200_OK (RecipeRows rows))) →
      method request = GET → route request = ListRoute →
      ∀ r, r ∈ rows → r_user r = a)
  ∧ (∀ r tag_ids ing_ids,
       recipe_detail_action request pk →
       NoDup (r_id <$> recipes db) →
       r ∈ recipes db → r_user r = b → r_id r = pk →
       param_ids (query_params request !! "tags") = inr tag_ids →
       param_ids (query_params request !! "ingredients") = inr ing_ids →
       RecipeViewSet.dispatch decodable db request = (db, inr not_found))
  (* tags and ingredients *)
  ∧ (∀ k rows,
       BaseRecipeAttrViewSet.dispatch k db request
       = (db, inr (mkResponse HTTP_200_OK (LabelRows rows))) →
       method request = GET → route request = ListRoute →
       ∀ l, l ∈ rows → l_user l = a)
  ∧ (∀ k l flag,
       label_detail_action request pk →
       NoDup (l_id <$> labels k db) →
       l ∈ labels k db → l_user l = b → l_id l = pk →
       BaseRecipeAttrViewSet.is_assigned_only (query_params request)
       = inr flag →
       BaseRecipeAttrViewSet.dispatch k db request = (db, inr not_found))
  ∧ (∀ k,
       method request = GET → route request = DetailRoute pk →
       BaseRecipeAttrViewSet.dispatch k db request
       = (db, inr (mkResponse HTTP_405_METHOD_NOT_ALLOWED NoBody))).
Proof.
  intros Hab Hu. repeat split.
  - intros rows Hd Hm Hr r Hin.
    rewrite (dispatch_list _ _ _ _ Hm Hr Hu) in Hd.
    destruct (RecipeViewSet.get_queryset _ _ _) as [e|rows'] eqn:Hq.
    { destruct e; simpl in Hd; congruence. }
    injection Hd as <-.
    apply (get_queryset_subseteq _ _ _ _ Hq) in Hin.
    apply list_elem_of_filter in Hin. tauto.
  - intros r tag_ids ing_ids Hact Hpk Hr Hown Hid Ht Hi.
    rewrite (recipe_dispatch_lookup_raises _ _ _ a pk Http404); [done..|].
    apply (recipe_get_object_404 _ _ _ _ tag_ids ing_ids); [done..|].
    intros r' Hr' Hid' (Hown' & _).
    assert (r' = r) as ->
      by (apply (pk_inj r_id (recipes db)); [done..|congruence]).
    congruence.
  - intros k rows Hd Hm Hr l Hin.
    rewrite (dispatch_label_list _ _ _ _ Hm Hr Hu) in Hd.
    destruct (BaseRecipeAttrViewSet.get_queryset _ _ _ _) as [e|rows'] eqn:Hq.
    { destruct e; simpl in Hd; congruence. }
    injection Hd as <-.
    unfold BaseRecipeAttrViewSet.get_queryset in Hq.
    destruct (BaseRecipeAttrViewSet.is_assigned_only _) as [|flag] eqn:Hf;
      [done|].
    apply (elem_of_label_get_queryset k db a _ flag _ l Hf) in Hin;
      [tauto|].
    unfold BaseRecipeAttrViewSet.get_queryset. by rewrite Hf.
  - intros k l flag Hact Hpk Hl Hown Hid Hf.
    rewrite (label_dispatch_lookup_raises _ _ _ a pk Http404); [done..|].
    apply (label_get_object_404 _ _ _ _ _ flag); [done|].
    intros l' Hl' Hid' Hown'.
    assert (l' = l) as ->
      by (apply (pk_inj l_id (labels k db)); [done..|congruence]).
    congruence.
  - intros k Hm Hr.
    unfold BaseRecipeAttrViewSet.dispatch, BaseRecipeAttrViewSet.handler.
    by rewrite Hr, Hu, Hm.
Qed.

(** C9 (amended): when a piece of a non-empty tags or ingredients
    parameter is not an integer literal, [get_queryset] raises
    [ValueError]; [handle_exception] does not turn it into a response, so
    every authenticated request whose action evaluates the queryset
    (list, retrieve, update, partial update, destroy, upload-image) ends
    in that exception, with nothing written.  A piece with a character
    other than digits, signs, underscores and whitespace is such a piece,
    and so are [abc] and the empty piece of [1,,2].  An empty parameter
    is skipped like a missing one.  A create does not evaluate the
    queryset: it is answered 201, or 400 with the errors of the payload,
    whatever the parameters; a request without credentials is answered
    401. *)
Theorem malformed_filter_raises_ValueError db u qp :
  (∀ s q,
      qp !! "tags" = Some s ∨ qp !! "ingredients" = Some s →
      Py.truthy s = true →
      q ∈ Py.split "," s → Py.int_literal q = None →
      RecipeViewSet.get_queryset db u qp = inl ValueError
      ∧ ∀ request,
          user request = Some u → query_params request = qp →
          evaluates_queryset request →
          RecipeViewSet.dispatch decodable db request = (db, inl ValueError))
  ∧ (∀ q c, c ∈ list_ascii_of_string q → literal_char c = false →
            Py.int_literal q = None)
  ∧ Py.int_literal "abc" = None
  ∧ ("" ∈ Py.split "," "1,,2" ∧ Py.int_literal "" = None)
  ∧ RecipeViewSet.get_queryset db u (<["tags" := ""]> qp)
    = RecipeViewSet.get_queryset db u (delete "tags" qp)
  ∧ RecipeViewSet.get_queryset db u (<["ingredients" := ""]> qp)
    = RecipeViewSet.get_queryset db u (delete "ingredients" qp)
  ∧ (∀ request,
       user request = Some u → query_params request = qp →
       method request = POST → route request = ListRoute →
       (∃ db' recipe,
          RecipeViewSet.dispatch decodable db request
          = (db', inr (mkResponse HTTP_201_CREATED (RecipeRow recipe))))
       ∨ RecipeViewSet.dispatch decodable db request
         = (db, inr (mkResponse HTTP_400_BAD_REQUEST
                       (Errors (serializer.errors (data request))))))
  ∧ (∀ request,
       user request = None → query_params request = qp →
       RecipeViewSet.dispatch decodable db request
       = (db, inr (mkResponse HTTP_401_UNAUTHORIZED NoBody))).
Proof.
  split; [|split; [apply int_literal_foreign_char|
                   split; [done|split; [split; [|done]|
                                        split; [|split; [|split]]]]]].
  - intros s q Hs Htruthy Hq Hnone.
    assert (RecipeViewSet.get_queryset db u qp = inl ValueError) as Hraise.
    { apply get_queryset_raises.
      assert (RecipeViewSet._params_to_ints s = inl ValueError) as Hp
        by (apply params_to_ints_raises; eauto).
      destruct Hs as [Hs|Hs]; [left|right]; unfold param_ids;
        rewrite Hs; simpl; rewrite Htruthy, Hp; done. }
    split; [done|].
    intros request Hu Hqp [[Hr Hm]|[pk Hact]].
    + rewrite (dispatch_list _ _ _ _ Hm Hr Hu), Hqp, Hraise. done.
    + rewrite (recipe_dispatch_lookup_raises _ _ _ u pk ValueError);
        [done..|].
      unfold RecipeViewSet.get_object. by rewrite Hqp, Hraise.
  - apply list_elem_of_In. vm_compute. tauto.
  - unfold RecipeViewSet.get_queryset.
    rewrite lookup_insert_eq, lookup_delete_eq.
    by rewrite lookup_insert_ne, lookup_delete_ne by done.
  - unfold RecipeViewSet.get_queryset.
    rewrite lookup_insert_eq, lookup_delete_eq.
    by rewrite lookup_insert_ne, lookup_delete_ne by done.
  - intros request Hu _ Hm Hr.
    unfold RecipeViewSet.dispatch, RecipeViewSet.handler.
    rewrite Hu, Hm, Hr. unfold RecipeViewSet.create.
    destruct (serializer.is_valid false (data request)); [left|by right].
    destruct (RecipeViewSet.perform_create db u request) as [db' recipe].
    by exists db', recipe.
  - intros request Hu _. unfold RecipeViewSet.dispatch. by rewrite Hu.
Qed.

End Scoping.

(** ** Uploading an image *)

Section Upload.
Context (decodable : string → bool).

Lemma save_recipe_elem r' db r0 :
  r0 ∈ recipes (save_recipe r' db)
  ↔ (r0 = r' ∧ ∃ r, r ∈ recipes db ∧ r_id r = r_id r')
    ∨ (r0 ∈ recipes db ∧ r_id r0 ≠ r_id r').
Proof.
  unfold save_recipe. destruct db; simpl.
  rewrite list_elem_of_fmap. split.
  - intros (r & -> & Hr). case_decide; [left|right]; eauto.
  - intros [[-> (r & Hr & Hid)]|[Hr Hid]].
    + exists r. by rewrite decide_True.
    + exists r0. by rewrite decide_False.
Qed.

(** C6 (amended): an upload-image request on a recipe of the requesting
    user, with tags and ingredients parameters that parse.  When the
    parameters do not exclude the recipe: a payload that is not a file
    with a decodable content is answered 400 and nothing is written, so
    the recipe keeps its image; a file with a decodable content is
    answered 200, the recipe then refers to the new file name, under
    which the media store returns the uploaded content.  When the
    parameters exclude the recipe, the request is answered 404 and
    nothing is written, whatever the payload. *)
Theorem upload_image_validates_and_replaces
    db request u pk r tag_ids ing_ids :
  user request = Some u →
  method request = POST → route request = UploadImageRoute pk →
  NoDup (r_id <$> recipes db) →
  r ∈ recipes db → r_user r = u → r_id r = pk →
  param_ids (query_params request !! "tags") = inr tag_ids →
  param_ids (query_params request !! "ingredients") = inr ing_ids →
  (passes (recipe_tags db) tag_ids r →
   passes (recipe_ingredients db) ing_ids r →
   ((∀ name content,
        d_image (data request) = Some (File name content) →
        decodable content = false) →
    ∃ errors,
      RecipeViewSet.dispatch decodable db request
      = (db, inr (mkResponse HTTP_400_BAD_REQUEST (Errors errors))))
   ∧ (∀ name content,
        d_image (data request) = Some (File name content) →
        decodable content = true →
        let path := serializer.recipe_image_file_path (uuid request) name in
        ∃ db',
          RecipeViewSet.dispatch decodable db request
          = (db', inr (mkResponse HTTP_200_OK (ImageRow pk (Some path))))
          ∧ (∃ r', r' ∈ recipes db' ∧ r_id r' = pk)
          ∧ (∀ r', r' ∈ recipes db' → r_id r' = pk →
                   r_image r' = Some path)
          ∧ media db' !! path = Some content
          ∧ (∀ r0, r_id r0 ≠ pk → r0 ∈ recipes db' ↔ r0 ∈ recipes db)))
  ∧ (¬ (passes (recipe_tags db) tag_ids r
        ∧ passes (recipe_ingredients db) ing_ids r) →
     RecipeViewSet.dispatch decodable db request = (db, inr not_found)).
Proof.
  intros Hu Hm Hr Hpk Hin Hown Hid Ht Hi. split.
  - intros Hpt Hpi.
    pose proof (recipe_get_object_found db u request pk tag_ids ing_ids r
                  Hpk Ht Hi Hin Hid Hown Hpt Hpi) as Hobj.
    unfold RecipeViewSet.dispatch, RecipeViewSet.handler.
    rewrite Hu, Hm, Hr. unfold RecipeViewSet.upload_image. rewrite Hobj.
    subst pk. split.
    + intros Hbad. unfold serializer.image_is_valid.
      destruct (d_image (data request)) as [[s|name content]|] eqn:Hd;
        simpl; eauto.
      rewrite (Hbad name content eq_refl). simpl. eauto.
    + intros name content Hd Hdec.
      unfold serializer.image_is_valid, serializer.image_save.
      rewrite Hd, Hdec. simpl.
      set (path := serializer.recipe_image_file_path (uuid request) name).
      eexists. split; [done|].
      split; [|split; [|split]].
      * exists (mkRecipe (r_id r) (r_user r) (r_title r) (r_time_minutes r)
                  (r_price r) (r_description r) (r_link r) (Some path)).
        split; [|done].
        apply save_recipe_elem. left. split; [done|].
        exists r. by destruct db.
      * intros r' Hr' Hid'.
        apply save_recipe_elem in Hr' as [[-> _]|[_ Hne]]; [done|].
        simpl in Hne. congruence.
      * destruct db; simpl. apply lookup_insert_eq.
      * intros r0 Hne. rewrite save_recipe_elem. simpl.
        split.
        -- intros [[-> _]|[Hr0 _]]; [simpl in Hne; congruence|by destruct db].
        -- intros Hr0. right. split; [by destruct db|congruence].
  - intros Hex.
    rewrite (recipe_dispatch_lookup_raises _ _ _ u pk Http404);
      [done|done|by right|].
    apply (recipe_get_object_404 _ _ _ _ tag_ids ing_ids); [done..|].
    intros r' Hr' Hid' (_ & Hpt & Hpi). apply Hex.
    assert (r' = r) as <-; [|done].
    apply (pk_inj r_id (recipes db)); [done..|congruence].
Qed.

End Upload.

(** ** Nested tags and ingredients *)

Section GetOrCreate.
Context (k : Kind) (u : Z).

Lemma labels_insert_label owner name db :
  labels k (insert_label k owner name db).1
  = labels k db ++ [mkLabel (label_seq k db) owner name]
  ∧ through k (insert_label k owner name db).1 = through k db
  ∧ label_seq k (insert_label k owner name db).1 = label_seq k db + 1.
Proof. unfold insert_label. by destruct k, db. Qed.

(** One [get_or_create]: the label it returns is the user's and has the
    name; it is an old row when the user had one, else the one row that
    is appended. *)
Lemma get_or_create_spec n db :
  let db' := (serializer.get_or_create k u n db).1 in
  let l := (serializer.get_or_create k u n db).2 in
  l ∈ labels k db' ∧ l_user l = u ∧ l_name l = n
  ∧ through k db' = through k db
  ∧ match owned k u n db with
    | [] =>
        labels k db' = labels k db ++ [l] ∧ l_id l = label_seq k db
        ∧ label_seq k db' = label_seq k db + 1
    | _ :: _ =>
        db' = db ∧ l ∈ owned k u n db
    end.
Proof.
  unfold serializer.get_or_create, owned.
  destruct (filter _ (labels k db)) as [|l0 ls] eqn:Hf; simpl.
  - destruct (labels_insert_label u n db) as (Hl & Ht & Hs).
    unfold insert_label in Hl, Ht, Hs. simpl in Hl, Ht, Hs.
    rewrite Hl, Ht, Hs. split; [|done].
    apply elem_of_app. right. by apply list_elem_of_singleton.
  - assert (l0 ∈ filter (λ l, l_user l = u ∧ l_name l = n) (labels k db))
      as Hin by (rewrite Hf; by left).
    apply list_elem_of_filter in Hin as [[? ?] ?].
    repeat split; auto. by left.
Qed.

Lemma add_link_spec rid lid db :
  labels k (serializer.add_link k rid lid db) = labels k db
  ∧ label_seq k (serializer.add_link k rid lid db) = label_seq k db
  ∧ ∀ link, link ∈ through k (serializer.add_link k rid lid db)
            ↔ link ∈ through k db ∨ link = (rid, lid).
Proof.
  unfold serializer.add_link. case_decide as Hd.
  - repeat split; auto. intros [?| ->]; auto.
  - assert (through k (set_through k (through k db ++ [(rid, lid)]) db)
            = through k db ++ [(rid, lid)]) as -> by (by destruct k, db).
    split; [by destruct k, db|]. split; [by destruct k, db|].
    intros link. rewrite elem_of_app, list_elem_of_singleton. tauto.
Qed.

Lemma owned_app n db db' extra :
  labels k db' = labels k db ++ extra →
  owned k u n db'
  = owned k u n db ++ filter (λ l, l_user l = u ∧ l_name l = n) extra.
Proof. unfold owned. intros ->. apply filter_app. Qed.

End GetOrCreate.

Section GetOrCreateLabels.
Context (k : Kind) (u : Z).

Lemma get_or_create_labels_cons n names rid db :
  serializer._get_or_create_labels k u (n :: names) rid db
  = serializer._get_or_create_labels k u names rid
      (serializer.add_link k rid
         (l_id (serializer.get_or_create k u n db).2)
         (serializer.get_or_create k u n db).1).
Proof.
  unfold serializer._get_or_create_labels. simpl.
  by destruct (serializer.get_or_create k u n db).
Qed.

Lemma get_or_create_ok n db :
  labels_ok k db → labels_ok k (serializer.get_or_create k u n db).1.
Proof.
  intros [Hpk Hseq].
  destruct (get_or_create_spec k u n db) as (_ & _ & _ & _ & Hcase).
  destruct (owned k u n db).
  - destruct Hcase as (Hl & Hid & Hs). split.
    + rewrite Hl, fmap_app. apply NoDup_app. split; [done|]. split.
      * intros x Hx Hx'. simpl in Hx'. apply list_elem_of_singleton in Hx'.
        apply list_elem_of_fmap in Hx as (l & -> & Hl0).
        apply Hseq in Hl0. lia.
      * simpl. apply NoDup_singleton.
    + intros l. rewrite Hl, Hs, elem_of_app, list_elem_of_singleton.
      intros [Hin| ->]; [apply Hseq in Hin|]; lia.
  - destruct Hcase as [-> _]. by split.
Qed.

Lemma add_link_ok rid lid db :
  labels_ok k db → labels_ok k (serializer.add_link k rid lid db).
Proof.
  intros [Hpk Hseq].
  destruct (add_link_spec k rid lid db) as (Hl & Hs & _).
  split; rewrite Hl; [done|]. by rewrite Hs.
Qed.

Lemma get_or_create_labels_ok names rid db :
  labels_ok k db →
  labels_ok k (serializer._get_or_create_labels k u names rid db).
Proof.
  revert db. induction names as [|n names IH]; intros db Hok; [done|].
  rewrite get_or_create_labels_cons.
  by apply IH, add_link_ok, get_or_create_ok.
Qed.

(** The rows and links that the loop over the names leaves. *)
Lemma get_or_create_labels_spec names rid db :
  let db' := serializer._get_or_create_labels k u names rid db in
  ∃ created,
    labels k db' = labels k db ++ created
    ∧ Forall (λ c, l_user c = u ∧ l_name c ∈ names
                   ∧ owned k u (l_name c) db = []) created
    ∧ NoDup (l_name <$> created)
    ∧ (∀ link, link ∈ through k db → link ∈ through k db')
    ∧ (∀ link, link ∈ through k db' →
               link ∈ through k db
               ∨ ∃ l, l ∈ labels k db' ∧ link = (rid, l_id l)
                      ∧ l_user l = u ∧ l_name l ∈ names)
    ∧ ∀ n, n ∈ names →
           ∃ l, l ∈ labels k db' ∧ l_user l = u ∧ l_name l = n
                ∧ (rid, l_id l) ∈ through k db'
                ∧ (owned k u n db ≠ [] → l ∈ owned k u n db).
Proof.
  revert db. induction names as [|n names IH]; intros db.
  { simpl. exists []. rewrite app_nil_r. repeat split; auto.
    - constructor.
    - intros n Hn. by apply elem_of_nil in Hn. }
  cbv zeta. rewrite get_or_create_labels_cons.
  destruct (get_or_create_spec k u n db) as (Hl & Hu & Hn & Ht & Hcase).
  set (g := serializer.get_or_create k u n db) in *.
  destruct (add_link_spec k rid (l_id g.2) g.1) as (Hal & _ & Hat).
  set (db1 := serializer.add_link k rid (l_id g.2) g.1) in *.
  destruct (IH db1) as (created1 & Hlab & Hall & Hnd & Hsub & Hnew & Hnames).
  clear IH.
  set (db' := serializer._get_or_create_labels k u names rid db1) in *.
  assert (∃ extra, labels k db1 = labels k db ++ extra
                   ∧ (extra = [] ∨ extra = [g.2] ∧ owned k u n db = [])
                   ∧ (owned k u n db ≠ [] → g.2 ∈ owned k u n db))
    as (extra & Hext & Hextra & Hold).
  { rewrite Hal. destruct (owned k u n db) eqn:Ho.
    - destruct Hcase as (-> & _). exists [g.2]. split; [done|].
      split; [by right|done].
    - destruct Hcase as (-> & Hin). exists []. rewrite app_nil_r.
      split; [done|]. split; [by left|done]. }
  assert (∀ m, owned k u m db1 = [] → owned k u m db = []) as Hmono.
  { intros m. rewrite (owned_app k u m db db1 extra Hext).
    by intros [? _]%app_eq_nil. }
  assert (g.2 ∈ labels k db') as Hg'.
  { rewrite Hlab, Hal. apply elem_of_app. by left. }
  exists (extra ++ created1). split; [|split; [|split; [|split; [|split]]]].
  - by rewrite Hlab, Hext, app_assoc.
  - apply Forall_app. split.
    + destruct Hextra as [->|[-> Ho]]; [constructor|].
      apply Forall_singleton. split; [done|].
      split; [rewrite Hn; by left|by rewrite Hn].
    + eapply Forall_impl; [exact Hall|]. simpl.
      intros c (? & ? & ?). split; [done|]. split; [by right|auto].
  - rewrite fmap_app. apply NoDup_app. split; [|split; [|done]].
    + destruct Hextra as [->|[-> _]]; [constructor|apply NoDup_singleton].
    + intros m Hm Hm'.
      destruct Hextra as [->|[-> _]]; [by apply elem_of_nil in Hm|].
      simpl in Hm. apply list_elem_of_singleton in Hm. subst m.
      apply list_elem_of_fmap in Hm' as (c & Hc & Hin).
      rewrite Forall_forall in Hall. destruct (Hall c Hin) as (_ & _ & Hoc).
      assert (g.2 ∈ owned k u (l_name c) db1) as Habs.
      { unfold owned. apply list_elem_of_filter. rewrite Hal. auto. }
      rewrite Hoc in Habs. by apply elem_of_nil in Habs.
  - intros link Hin. apply Hsub, Hat. left. by rewrite Ht.
  - intros link Hin. apply Hnew in Hin as [Hin|(l & ? & ? & ? & ?)].
    + apply Hat in Hin as [Hin| ->].
      * left. by rewrite <- Ht.
      * right. exists g.2. repeat split; auto. rewrite Hn. by left.
    + right. exists l. repeat split; auto. by right.
  - intros m Hm. apply elem_of_cons in Hm as [->|Hm].
    + exists g.2. repeat split; auto.
      apply Hsub, Hat. by right.
    + destruct (Hnames m Hm) as (l & Hlin & Hlu & Hln & Hlink & Hlold).
      exists l. repeat split; auto. intros Hne.
      assert (owned k u m db1 ≠ []) as Hne1
        by (intros Habs; by apply Hmono in Habs).
      specialize (Hlold Hne1).
      rewrite (owned_app k u m db db1 extra Hext) in Hlold.
      apply elem_of_app in Hlold as [?|Hlold]; [done|].
      apply list_elem_of_filter in Hlold as [[_ Hname] Hlold].
      destruct Hextra as [->|[-> Ho]]; [by apply elem_of_nil in Hlold|].
      apply list_elem_of_singleton in Hlold. subst l.
      exfalso. apply Hne. by rewrite <- Hln, Hn.
Qed.

End GetOrCreateLabels.

Section NestedLabels.
Context (k : Kind) (u : Z).

Lemma reused_or_created_loop names rid db :
  labels_ok k db →
  reused_or_created k u names rid db
    (serializer._get_or_create_labels k u names rid db).
Proof.
  intros Hok.
  pose proof (get_or_create_labels_ok k u names rid db Hok) as [Hpk' _].
  destruct (get_or_create_labels_spec k u names rid db)
    as (created & Hlab & Hall & Hnd & Hsub & Hnew & Hnames).
  set (db' := serializer._get_or_create_labels k u names rid db) in *.
  rewrite Forall_forall in Hall.
  split; [|split].
  - intros n Hn.
    destruct (Hnames n Hn) as (l & Hl & Hlu & Hln & Hlink & Hlold).
    rewrite (owned_app k u n db db' created Hlab).
    destruct (owned k u n db) as [|l0 ls] eqn:Ho.
    + assert (l ∉ labels k db) as Hfresh.
      { intros Hin.
        assert (l ∈ owned k u n db) as Habs
          by (unfold owned; apply list_elem_of_filter; auto).
        rewrite Ho in Habs. by apply elem_of_nil in Habs. }
      exists l. split; [|done]. simpl.
      rewrite Hlab in Hl. apply elem_of_app in Hl as [?|Hl]; [done|].
      apply filter_unique; auto.
      * eapply NoDup_fmap_1, Hnd.
      * intros y Hy [_ Hyn].
        apply (pk_inj l_name created); [done..|congruence].
    + replace (filter (λ l1, l_user l1 = u ∧ l_name l1 = n) created)
        with (@nil Label).
      * rewrite app_nil_r. split; [done|]. exists l. split; [|done].
        apply Hlold. done.
      * symmetry. apply elem_of_nil_inv. intros c Hc.
        apply list_elem_of_filter in Hc as [[_ Hcn] Hc].
        destruct (Hall c Hc) as (_ & _ & Hoc).
        rewrite Hcn, Ho in Hoc. done.
  - rewrite Hlab, filter_app.
    replace (filter (λ l, l_user l ≠ u) created) with (@nil Label);
      [by rewrite app_nil_r|].
    symmetry. apply elem_of_nil_inv. intros c Hc.
    apply list_elem_of_filter in Hc as [Hcu Hc].
    by destruct (Hall c Hc) as (? & _).
  - intros l Hl Hlink.
    apply Hnew in Hlink as [?|(l' & Hl' & Heq & Hu' & _)]; [by left|].
    right. injection Heq as Heq.
    by rewrite (pk_inj l_id (labels k db') l l' Hpk' Hl Hl' Heq).
Qed.

(** The statement only reads the tables of the kind, and it survives
    dropping links at the start. *)
Lemma reused_or_created_frame names rid db0 db db' db1 :
  labels k db0 = labels k db →
  (∀ link, link ∈ through k db → link ∈ through k db0) →
  labels k db1 = labels k db' → through k db1 = through k db' →
  reused_or_created k u names rid db db' →
  reused_or_created k u names rid db0 db1.
Proof.
  unfold reused_or_created, owned.
  intros -> Hsub -> -> (H1 & H2 & H3). split; [done|]. split; [done|].
  intros l Hl Hlink. destruct (H3 l Hl Hlink); auto.
Qed.

End NestedLabels.

Section Frames2.

Lemma same_labels_refl k db : same_labels k db db.
Proof. by repeat split. Qed.

Lemma same_labels_trans k db1 db2 db3 :
  same_labels k db1 db2 → same_labels k db2 db3 → same_labels k db1 db3.
Proof.
  unfold same_labels. intros (H1 & H2 & H3) (H4 & H5 & H6).
  rewrite H1, H2, H3. done.
Qed.

Lemma insert_recipe_same k mk db :
  same_labels k (insert_recipe mk db).1 db.
Proof. unfold insert_recipe. by destruct k, db. Qed.

Lemma save_recipe_same k r db : same_labels k (save_recipe r db) db.
Proof. unfold save_recipe. by destruct k, db. Qed.

Lemma get_or_create_other k k' u n db :
  k ≠ k' → same_labels k (serializer.get_or_create k' u n db).1 db.
Proof.
  intros Hne. unfold serializer.get_or_create.
  destruct (filter _ _); [|apply same_labels_refl].
  unfold insert_label. by destruct k, k', db.
Qed.

Lemma add_link_other k k' rid lid db :
  k ≠ k' → same_labels k (serializer.add_link k' rid lid db) db.
Proof.
  intros Hne. unfold serializer.add_link.
  case_decide; [apply same_labels_refl|]. by destruct k, k', db.
Qed.

Lemma get_or_create_labels_other k k' u names rid db :
  k ≠ k' →
  same_labels k (serializer._get_or_create_labels k' u names rid db) db.
Proof.
  intros Hne. revert db.
  induction names as [|n names IH]; intros db; [apply same_labels_refl|].
  rewrite get_or_create_labels_cons.
  eapply same_labels_trans; [apply IH|].
  eapply same_labels_trans; [by apply add_link_other|].
  by apply get_or_create_other.
Qed.

Lemma clear_links_other k k' rid db :
  k ≠ k' → same_labels k (serializer.clear_links k' rid db) db.
Proof. intros Hne. unfold serializer.clear_links. by destruct k, k', db. Qed.

Lemma clear_links_same k rid db :
  labels k (serializer.clear_links k rid db) = labels k db
  ∧ label_seq k (serializer.clear_links k rid db) = label_seq k db
  ∧ ∀ link, link ∈ through k (serializer.clear_links k rid db) →
            link ∈ through k db.
Proof.
  unfold serializer.clear_links.
  assert (through k (set_through k
                       (filter (λ link, link.1 ≠ rid) (through k db)) db)
          = filter (λ link, link.1 ≠ rid) (through k db)) as ->
    by (by destruct k, db).
  split; [by destruct k, db|]. split; [by destruct k, db|].
  intros link Hin. by apply list_elem_of_filter in Hin as [_ ?].
Qed.

Lemma update_labels_other k k' u names rid db :
  k ≠ k' → same_labels k (serializer.update_labels k' u names rid db) db.
Proof.
  intros Hne. unfold serializer.update_labels.
  destruct names as [names|]; [|apply same_labels_refl].
  eapply same_labels_trans; [by apply get_or_create_labels_other|].
  by apply clear_links_other.
Qed.

Lemma labels_ok_same k db1 db2 :
  labels k db1 = labels k db2 → label_seq k db1 = label_seq k db2 →
  labels_ok k db2 → labels_ok k db1.
Proof. intros Hl Hs [? ?]. split; rewrite Hl; [done|]. by rewrite Hs. Qed.

End Frames2.

Section NestedWrites.
Context (decodable : string → bool).

Lemma create_reused_or_created k u d db :
  labels_ok k db →
  reused_or_created k u (default [] (names_of k d))
    (r_id (serializer.create u d db).2) db (serializer.create u d db).1.
Proof.
  intros Hok. unfold serializer.create, insert_recipe. simpl.
  match goal with
  | |- context [serializer._get_or_create_labels TagKind u ?ms ?rid ?d0] =>
      set (tag_names := ms); set (db0 := d0);
      set (db1 := serializer._get_or_create_labels TagKind u tag_names
                    rid db0)
  end.
  match goal with
  | |- context [serializer._get_or_create_labels IngredientKind u ?ns _ db1] =>
      set (ing_names := ns)
  end.
  assert (∀ k', same_labels k' db0 db) as H0
    by (intros k'; subst db0; unfold same_labels; by destruct k', db).
  destruct k; simpl.
  - destruct (H0 TagKind) as (Hl & Ht & Hs).
    destruct (get_or_create_labels_other TagKind IngredientKind u ing_names
                (recipe_seq db) db1) as (Hl' & Ht' & _); [done|].
    eapply (reused_or_created_frame TagKind u _ _ db db0 db1);
      [done| |done|done|].
    + intros link. by rewrite Ht.
    + apply reused_or_created_loop. by apply (labels_ok_same _ _ db).
  - destruct (get_or_create_labels_other IngredientKind TagKind u tag_names
                (recipe_seq db) db0) as (Hl & Ht & Hs); [done|].
    fold db1 in Hl, Ht, Hs.
    destruct (H0 IngredientKind) as (Hl0 & Ht0 & Hs0).
    eapply (reused_or_created_frame IngredientKind u _ _ db db1);
      [by rewrite Hl, Hl0| |done|done|].
    + intros link. by rewrite Ht, Ht0.
    + apply reused_or_created_loop.
      apply (labels_ok_same _ _ db);
        [by rewrite Hl, Hl0|by rewrite Hs, Hs0|done].
Qed.

Lemma update_reused_or_created k u instance d db names :
  labels_ok k db → names_of k d = Some names →
  reused_or_created k u names (r_id instance) db
    (serializer.update u instance d db).1.
Proof.
  intros Hok Hnames. unfold serializer.update. simpl.
  set (rid := r_id instance).
  set (db1 := serializer.update_labels TagKind u (d_tags d) rid db).
  set (db2 := serializer.update_labels IngredientKind u (d_ingredients d)
                rid db1).
  match goal with
  | |- context [save_recipe ?r db2] =>
      pose proof (λ k', save_recipe_same k' r db2) as Hsave
  end.
  destruct k; simpl in Hnames.
  - destruct (Hsave TagKind) as (Hl3 & Ht3 & _).
    destruct (update_labels_other TagKind IngredientKind u (d_ingredients d)
                rid db1) as (Hl2 & Ht2 & _); [done|].
    destruct (clear_links_same TagKind rid db) as (Hlc & Hsc & Htc).
    eapply (reused_or_created_frame TagKind u _ _ db
              (serializer.clear_links TagKind rid db) db1).
    + by rewrite Hlc.
    + exact Htc.
    + by rewrite Hl3.
    + by rewrite Ht3.
    + subst db1. unfold serializer.update_labels. rewrite Hnames.
      apply reused_or_created_loop. by apply (labels_ok_same _ _ db).
  - destruct (Hsave IngredientKind) as (Hl3 & Ht3 & _).
    destruct (update_labels_other IngredientKind TagKind u (d_tags d)
                rid db) as (Hl1 & Ht1 & Hs1); [done|].
    destruct (clear_links_same IngredientKind rid db1) as (Hlc & Hsc & Htc).
    eapply (reused_or_created_frame IngredientKind u _ _ db
              (serializer.clear_links IngredientKind rid db1) db2).
    + by rewrite Hlc.
    + intros link Hin. apply Htc in Hin. by rewrite <- Ht1.
    + by rewrite Hl3.
    + by rewrite Ht3.
    + subst db2. unfold serializer.update_labels at 1. rewrite Hnames.
      apply reused_or_created_loop. fold db1 in Hl1, Hs1.
      apply (labels_ok_same _ _ db);
        [by rewrite Hlc, Hl1|by rewrite Hsc, Hs1|done].
Qed.

Lemma clear_links_recipes k rid db :
  recipes (serializer.clear_links k rid db) = recipes db
  ∧ recipe_seq (serializer.clear_links k rid db) = recipe_seq db.
Proof. unfold serializer.clear_links. by destruct k, db. Qed.

Lemma update_labels_recipes k u names rid db :
  recipes (serializer.update_labels k u names rid db) = recipes db
  ∧ recipe_seq (serializer.update_labels k u names rid db) = recipe_seq db.
Proof.
  unfold serializer.update_labels. destruct names as [names|]; [|done].
  destruct (get_or_create_labels_recipes k u names rid
              (serializer.clear_links k rid db)) as [-> ->].
  apply clear_links_recipes.
Qed.

Lemma save_recipe_recipes r db :
  recipes (save_recipe r db)
  = map (λ r0, if decide (r_id r0 = r_id r) then r else r0) (recipes db)
  ∧ recipe_seq (save_recipe r db) = recipe_seq db.
Proof. unfold save_recipe. by destruct db. Qed.

(** The rows of the recipe table after an update: the row of the instance
    is replaced, the others stay. *)
Lemma update_recipes u instance d db :
  let updated := (serializer.update u instance d db).2 in
  recipes (serializer.update u instance d db).1
  = map (λ r0, if decide (r_id r0 = r_id instance) then updated else r0)
      (recipes db)
  ∧ recipe_seq (serializer.update u instance d db).1 = recipe_seq db
  ∧ r_id updated = r_id instance ∧ r_user updated = r_user instance.
Proof.
  unfold serializer.update. cbn [fst snd].
  match goal with
  | |- context [save_recipe ?r ?d2] =>
      destruct (save_recipe_recipes r d2) as [-> ->]
  end.
  destruct (update_labels_recipes IngredientKind u (d_ingredients d)
              (r_id instance)
              (serializer.update_labels TagKind u (d_tags d) (r_id instance)
                 db)) as [-> ->].
  destruct (update_labels_recipes TagKind u (d_tags d) (r_id instance) db)
    as [-> ->].
  done.
Qed.

(** C3: a create request with a valid payload is answered 201, and an
    update or partial update of a recipe that the lookup finds is
    answered 200.  The recipe of the response is a row of the table
    afterwards, owned by the requesting user: the one row that the create
    appends, under an id that no row of a well-formed table had, or the
    row that the update puts in the place of the instance.  For each kind
    of label (tag, ingredient) whose names the payload carries, between
    the states before and after: a name for which the requesting user
    has labels gets no new row and the recipe is linked to one of them;
    any other name gets exactly one new row of that user, linked to the
    recipe; the rows of other users stay as they are and no link to them
    is added. *)
Theorem nested_labels_get_or_create k db request u :
  labels_ok k db → user request = Some u →
  (method request = POST → route request = ListRoute →
   serializer.is_valid false (data request) = true →
   ∃ db' recipe,
     RecipeViewSet.dispatch decodable db request
     = (db', inr (mkResponse HTTP_201_CREATED (RecipeRow recipe)))
     ∧ recipes db' = recipes db ++ [recipe]
     ∧ r_user recipe = u
     ∧ (recipes_ok db → ∀ r, r ∈ recipes db → r_id r ≠ r_id recipe)
     ∧ reused_or_created k u (default [] (names_of k (data request)))
         (r_id recipe) db db')
  ∧ (∀ pk instance names partial,
       route request = DetailRoute pk →
       method request = (if partial : bool then PATCH else PUT) →
       RecipeViewSet.get_object db u request pk = inr instance →
       serializer.is_valid partial (data request) = true →
       names_of k (data request) = Some names →
       ∃ db' recipe,
         RecipeViewSet.dispatch decodable db request
         = (db', inr (mkResponse HTTP_200_OK (RecipeRow recipe)))
         ∧ r_id recipe = r_id instance
         ∧ instance ∈ recipes db
         ∧ recipe ∈ recipes db'
         ∧ r_user recipe = u
         ∧ reused_or_created k u names (r_id instance) db db').
Proof.
  intros Hok Hu. split.
  - intros Hm Hr Hvalid.
    unfold RecipeViewSet.dispatch, RecipeViewSet.handler.
    rewrite Hu, Hm, Hr. unfold RecipeViewSet.create. rewrite Hvalid.
    unfold RecipeViewSet.perform_create.
    pose proof (create_reused_or_created k u (data request) db Hok) as H.
    destruct (create_recipes u (data request) db) as (Hrows & _ & Hid & Hown).
    destruct (serializer.create u (data request) db) as [db' recipe].
    cbn [fst snd] in *. exists db', recipe.
    split; [done|]. split; [done|]. split; [done|]. split; [|done].
    intros Hrok r Hin. apply Hrok in Hin. lia.
  - intros pk instance names partial Hr Hm Hobj Hvalid Hnames.
    unfold RecipeViewSet.dispatch, RecipeViewSet.handler.
    rewrite Hu, Hr, Hm.
    pose proof (update_reused_or_created k u instance (data request) db
                  names Hok Hnames) as H.
    destruct (recipe_get_object_inr _ _ _ _ _ Hobj) as (Hin & _ & Hown).
    destruct (update_recipes u instance (data request) db)
      as (Hrows & _ & Hid & Hown').
    assert ((serializer.update u instance (data request) db).2
            ∈ recipes (serializer.update u instance (data request) db).1)
      as Hin'.
    { rewrite Hrows. change (map ?f ?l) with (f <$> l).
      apply list_elem_of_fmap. exists instance. split; [|done].
      by rewrite decide_True. }
    destruct partial; unfold RecipeViewSet.update; rewrite Hobj, Hvalid;
      destruct (serializer.update u instance (data request) db)
        as [db' recipe]; cbn [fst snd] in *; exists db', recipe;
      (split; [done|]); (split; [done|]); (split; [done|]);
      (split; [done|]); (split; [congruence|done]).
Qed.

End NestedWrites.

(** ** Registration and tokens *)

Section Users.
Context (make_password : string → string).
Context (min_length : nat).
Context (generate_key : DB → string).

Lemma email_errors_taken db d email :
  d_email d = Some email →
  (∃ u0, u0 ∈ users db ∧ u_email u0 = email) →
  is_Some (UserViews.email_errors db d !! "email").
Proof.
  intros Hd (u0 & Hin & Heq). unfold UserViews.email_errors. rewrite Hd.
  destruct (Py.truthy email); simpl.
  - assert (UserViews.email_taken db email = true) as ->.
    { unfold UserViews.email_taken. apply bool_decide_eq_true.
      apply Exists_exists. exists u0. auto. }
    rewrite lookup_singleton_eq. eauto.
  - rewrite lookup_singleton_eq. eauto.
Qed.

Lemma password_errors_short d password :
  d_password d = Some password →
  (String.length password < min_length)%nat →
  is_Some (UserViews.password_errors min_length d !! "password").
Proof.
  intros Hd Hlen. unfold UserViews.password_errors. rewrite Hd.
  rewrite decide_True by done. rewrite lookup_singleton_eq. eauto.
Qed.

Lemma errors_nonempty db d field :
  is_Some (UserViews.errors min_length db d !! field) →
  UserViews.errors min_length db d ≠ ∅.
Proof. intros [m Hm] Hemp. rewrite Hemp, lookup_empty in Hm. done. Qed.

Lemma errors_empty db d :
  UserViews.errors min_length db d = ∅ →
  UserViews.email_errors db d = ∅
  ∧ UserViews.password_errors min_length d = ∅.
Proof.
  unfold UserViews.errors. intros H.
  split; apply map_eq; intros i; rewrite lookup_empty;
    apply (f_equal (λ m, m !! i)) in H;
    rewrite lookup_union, lookup_empty in H;
    destruct (UserViews.email_errors db d !! i),
      (UserViews.password_errors min_length d !! i); done.
Qed.

(** C4: a registration whose email is that of a stored user is answered
    400, and so is one whose password is shorter than the minimum; both
    write nothing, so no user is created.  The body of a 201 answer has
    the fields email and name only, and it is the same whatever
    acceptable password was sent. *)
Theorem registration_rejects_and_hides_password db d :
  (∀ email,
      d_email d = Some email →
      (∃ u0, u0 ∈ users db ∧ u_email u0 = email) →
      ∃ errors,
        UserViews.CreateUserView make_password min_length db d
        = (db, mkResponse HTTP_400_BAD_REQUEST (Errors errors)))
  ∧ (∀ password,
       d_password d = Some password →
       (String.length password < min_length)%nat →
       ∃ errors,
         UserViews.CreateUserView make_password min_length db d
         = (db, mkResponse HTTP_400_BAD_REQUEST (Errors errors)))
  ∧ (∀ db' response,
       UserViews.CreateUserView make_password min_length db d
       = (db', response) →
       status_code response = HTTP_201_CREATED →
       ∃ fields,
         body response = Dict fields
         ∧ fields !! "password" = None
         ∧ dom fields = {[ "email"; "name" ]}
         ∧ ∀ password',
             (min_length ≤ String.length password')%nat →
             (UserViews.CreateUserView make_password min_length db
                (with_password password' d)).2 = response).
Proof.
  unfold UserViews.CreateUserView. split; [|split].
  - intros email Hd Htaken.
    rewrite decide_False; [eauto|].
    apply (errors_nonempty _ _ "email"). unfold UserViews.errors.
    apply lookup_union_is_Some. left.
    by apply (email_errors_taken db d email).
  - intros password Hd Hshort.
    rewrite decide_False; [eauto|].
    apply (errors_nonempty _ _ "password"). unfold UserViews.errors.
    apply lookup_union_is_Some. right.
    by apply (password_errors_short d password).
  - intros db' response. case_decide as Herr; [|by intros [= <- <-]].
    unfold UserViews.create_user. simpl. intros [= <- <-] _.
    eexists. split; [done|]. unfold UserViews.profile. simpl.
    split; [by rewrite lookup_insert_ne, lookup_singleton_ne|].
    split; [by rewrite dom_insert_L, dom_singleton_L|].
    intros password' Hlen.
    apply errors_empty in Herr as [Hemail _].
    rewrite decide_True; [done|].
    unfold UserViews.errors, UserViews.password_errors, with_password. simpl.
    rewrite decide_False by lia.
    unfold UserViews.email_errors in *. simpl. rewrite Hemail.
    by rewrite (left_id_L ∅ (∪)).
Qed.

Lemma authenticate_Some db email password u :
  UserViews.authenticate make_password db email password = Some u →
  u ∈ users db ∧ u_email u = email ∧ u_password u = make_password password.
Proof.
  unfold UserViews.authenticate. intros Hh.
  apply head_Some_elem_of, list_elem_of_filter in Hh as [[? Hc] ?].
  unfold UserViews.check_password in Hc.
  apply Is_true_true, bool_decide_eq_true in Hc. auto.
Qed.

Lemma authenticate_None db email password :
  UserViews.authenticate make_password db email password = None →
  ¬ credentials_match make_password db email password.
Proof.
  unfold UserViews.authenticate. intros Hh (u & Hin & He & Hp).
  apply head_None in Hh.
  assert (u ∈ filter (λ u, u_email u = email
                           ∧ UserViews.check_password make_password password
                               (u_password u)) (users db)) as Habs.
  { apply list_elem_of_filter. split; [|done]. split; [done|].
    unfold UserViews.check_password.
    apply Is_true_true, bool_decide_eq_true. done. }
  rewrite Hh in Habs. by apply elem_of_nil in Habs.
Qed.

(** C5: a token request whose pair is not the credential of a stored user
    (a blank password included) is answered 400 with the one generic
    message, without a token and with nothing written: the same answer
    whether the email or the password is the wrong one.  A pair that is a
    stored credential is answered 200 with a token in the body. *)
Theorem token_requires_matching_credentials db email password :
  (¬ credentials_match make_password db email password →
   UserViews.CreateTokenView make_password generate_key db email password
   = (db, mkResponse HTTP_400_BAD_REQUEST (Errors UserViews.bad_credentials))
   ∧ UserViews.bad_credentials !! "token" = None
   ∧ size UserViews.bad_credentials = 1%nat
   ∧ ∀ email' password',
       ¬ credentials_match make_password db email' password' →
       UserViews.CreateTokenView make_password generate_key db email' password'
       = UserViews.CreateTokenView make_password generate_key db email
           password)
  ∧ (credentials_match make_password db email password →
     ∃ db' key,
       UserViews.CreateTokenView make_password generate_key db email password
       = (db', mkResponse HTTP_200_OK (Dict {[ "token" := key ]}))
       ∧ ∃ u, (key, u_id u) ∈ tokens db' ∧ u ∈ users db
              ∧ u_email u = email
              ∧ u_password u = make_password password).
Proof.
  assert (∀ e p, ¬ credentials_match make_password db e p →
            UserViews.CreateTokenView make_password generate_key db e p
            = (db, mkResponse HTTP_400_BAD_REQUEST
                     (Errors UserViews.bad_credentials))) as Hbad.
  { intros e p Hno. unfold UserViews.CreateTokenView.
    destruct (UserViews.authenticate make_password db e p) as [u|] eqn:Ha;
      [|done].
    exfalso. apply Hno. exists u. by apply authenticate_Some. }
  split.
  - intros Hno. split; [by apply Hbad|]. split; [done|]. split; [done|].
    intros e p Hno'. by rewrite !Hbad.
  - intros Hmatch. unfold UserViews.CreateTokenView.
    destruct (UserViews.authenticate make_password db email password)
      as [u|] eqn:Ha.
    + apply authenticate_Some in Ha as (Hin & He & Hp).
      unfold UserViews.token_get_or_create.
      destruct (filter _ (tokens db)) as [|t ts] eqn:Hf.
      * eexists _, _. split; [done|]. exists u. repeat split; auto.
        destruct db; simpl. apply elem_of_app. right.
        by apply list_elem_of_singleton.
      * eexists _, _. split; [done|]. exists u. repeat split; auto.
        assert (t ∈ filter (λ t, t.2 = u_id u) (tokens db)) as Ht
          by (rewrite Hf; by left).
        apply list_elem_of_filter in Ht as [Ht2 Ht].
        destruct t as [key uid]. simpl in *. by subst.
    + by apply authenticate_None in Ha.
Qed.

End Users.

(** ** The statements on the small database *)

Section Instances.

Lemma sample_recipes_ok : recipes_ok Sample.db.
Proof.
  split.
  - apply (bool_decide_unpack _). by vm_compute.
  - apply Forall_forall. apply (bool_decide_unpack _). by vm_compute.
Defined.

Lemma sample_labels_ok k : labels_ok k Sample.db.
Proof.
  destruct k; split;
    try (apply Forall_forall); apply (bool_decide_unpack _); by vm_compute.
Defined.

Lemma recipe_list_filters_witness :
  let request :=
    Sample.get Sample.alice ListRoute
      {[ "tags" := "1,2"; "ingredients" := "1" ]} in
  method request = GET ∧ route request = ListRoute
  ∧ user request = Some Sample.alice
  ∧ param_ids (query_params request !! "tags") = inr (Some [1; 2])
  ∧ param_ids (query_params request !! "ingredients") = inr (Some [1])
  ∧ ∃ rows,
      RecipeViewSet.dispatch Sample.decodable Sample.db request
      = (Sample.db, inr (mkResponse HTTP_200_OK (RecipeRows rows)))
      ∧ NoDup rows
      ∧ (NoDup (r_id <$> recipes Sample.db) → NoDup (r_id <$> rows))
      ∧ ∀ r, r ∈ rows
             ↔ r ∈ recipes Sample.db ∧ r_user r = Sample.alice
               ∧ passes (recipe_tags Sample.db) (Some [1; 2]) r
               ∧ passes (recipe_ingredients Sample.db) (Some [1]) r.
Proof.
  intros request. repeat (split; [reflexivity|]).
  apply (recipe_list_filters Sample.decodable Sample.db request Sample.alice
           (Some [1; 2]) (Some [1])); reflexivity.
Defined.

Lemma recipe_list_most_recent_first_witness :
  let request := Sample.get Sample.alice ListRoute ∅ in
  recipes_ok Sample.db ∧ method request = GET ∧ route request = ListRoute
  ∧ user request = Some Sample.alice
  ∧ RecipeViewSet.dispatch Sample.decodable Sample.db request
    = (Sample.db,
       inr (mkResponse HTTP_200_OK (RecipeRows [Sample.pork; Sample.curry])))
  ∧ precedes Sample.pork Sample.curry [Sample.pork; Sample.curry].
Proof.
  intros request. split; [apply sample_recipes_ok|].
  repeat (split; [reflexivity|]).
  destruct (recipe_list_most_recent_first Sample.decodable Sample.db request
              Sample.alice sample_recipes_ok eq_refl eq_refl eq_refl)
    as [H _].
  destruct (H [Sample.pork; Sample.curry] eq_refl) as [_ Hp].
  apply Hp; [apply list_elem_of_In; simpl; tauto..|reflexivity].
Defined.

Lemma label_list_order_and_assigned_witness :
  let request :=
    Sample.get Sample.alice ListRoute {[ "assigned_only" := "1" ]} in
  method request = GET ∧ route request = ListRoute
  ∧ user request = Some Sample.alice
  ∧ BaseRecipeAttrViewSet.is_assigned_only (query_params request) = inr true
  ∧ ∃ rows,
      BaseRecipeAttrViewSet.dispatch TagKind Sample.db request
      = (Sample.db, inr (mkResponse HTTP_200_OK (LabelRows rows)))
      ∧ StronglySorted (λ a b, String.le (l_name b) (l_name a)) rows
      ∧ NoDup rows
      ∧ (NoDup (l_id <$> labels TagKind Sample.db) → NoDup (l_id <$> rows))
      ∧ ∀ l, l ∈ rows
             ↔ l ∈ labels TagKind Sample.db ∧ l_user l = Sample.alice
               ∧ (true = true →
                  ∃ rid, (rid, l_id l) ∈ through TagKind Sample.db).
Proof.
  intros request. repeat (split; [reflexivity|]).
  apply (label_list_order_and_assigned TagKind Sample.db request Sample.alice
           true eq_refl eq_refl eq_refl eq_refl).
Defined.

Lemma filters_apply_to_detail_actions_witness :
  let request :=
    Sample.get Sample.alice (DetailRoute 2) {[ "tags" := "1" ]} in
  user request = Some Sample.alice
  ∧ recipe_detail_action request 2
  ∧ NoDup (r_id <$> recipes Sample.db)
  ∧ Sample.pork ∈ recipes Sample.db
  ∧ r_user Sample.pork = Sample.alice ∧ r_id Sample.pork = 2
  ∧ param_ids (query_params request !! "tags") = inr (Some [1])
  ∧ param_ids (query_params request !! "ingredients") = inr None
  ∧ ¬ (passes (recipe_tags Sample.db) (Some [1]) Sample.pork
       ∧ passes (recipe_ingredients Sample.db) None Sample.pork)
  ∧ RecipeViewSet.dispatch Sample.decodable Sample.db request
    = (Sample.db, inr not_found)
  ∧ RecipeViewSet.get_object Sample.db Sample.alice
      (with_query_params ∅ request) 2 = inr Sample.pork.
Proof.
  intros request.
  assert (recipe_detail_action request 2) as Hact.
  { left. split; [reflexivity|]. apply list_elem_of_In. simpl. tauto. }
  assert (Sample.pork ∈ recipes Sample.db) as Hin.
  { apply list_elem_of_In. simpl. tauto. }
  assert (¬ (passes (recipe_tags Sample.db) (Some [1]) Sample.pork
             ∧ passes (recipe_ingredients Sample.db) None Sample.pork))
    as Hex.
  { intros [(t & Ht & Hl) _]. apply list_elem_of_In in Ht, Hl.
    simpl in Ht, Hl. destruct Ht as [<-|[]].
    repeat (destruct Hl as [Hl|Hl]; [discriminate Hl|]). exact Hl. }
  split; [reflexivity|]. split; [exact Hact|].
  split; [apply sample_recipes_ok|]. split; [exact Hin|].
  repeat (split; [reflexivity|]). split; [exact Hex|].
  apply (filters_apply_to_detail_actions Sample.decodable Sample.db request
           Sample.alice 2 Sample.pork (Some [1]) None eq_refl Hact
           (recipes_pk _ sample_recipes_ok) Hin eq_refl eq_refl eq_refl
           eq_refl Hex).
Defined.

Lemma cross_user_access_not_found_witness :
  let request := Sample.send DELETE Sample.alice (DetailRoute 3) no_data in
  Sample.alice ≠ Sample.bob ∧ user request = Some Sample.alice
  ∧ RecipeViewSet.dispatch Sample.decodable Sample.db request
    = (Sample.db, inr not_found)
  ∧ BaseRecipeAttrViewSet.dispatch TagKind Sample.db request
    = (Sample.db, inr not_found).
Proof.
  intros request.
  assert (Sample.alice ≠ Sample.bob) as Hne by discriminate.
  split; [exact Hne|]. split; [reflexivity|].
  destruct (cross_user_access_not_found Sample.decodable Sample.db request
              Sample.alice Sample.bob 3 Hne eq_refl)
    as (_ & Hrecipe & _ & Hlabel & _).
  split.
  - apply (Hrecipe Sample.soup None None);
      [left; split; [reflexivity|];
       apply list_elem_of_In; simpl; tauto
      |apply sample_recipes_ok
      |apply list_elem_of_In; simpl; tauto
      |reflexivity..].
  - apply (Hlabel TagKind Sample.bobs_dinner false);
      [split; [reflexivity|]; apply list_elem_of_In; simpl; tauto
      |apply (sample_labels_ok TagKind)
      |apply list_elem_of_In; simpl; tauto
      |reflexivity..].
Defined.

(** C1, as stated, at a retrieve of another user's tag: the tag and
    ingredient viewsets have no retrieve action, and the GET on the detail
    route is answered 405, not 404. *)
Lemma label_retrieve_is_not_routed :
  let request := Sample.get Sample.alice (DetailRoute 3) ∅ in
  Sample.bobs_dinner ∈ tags Sample.db
  ∧ l_id Sample.bobs_dinner = 3
  ∧ l_user Sample.bobs_dinner = Sample.bob
  ∧ Sample.alice ≠ Sample.bob
  ∧ BaseRecipeAttrViewSet.dispatch TagKind Sample.db request
    = (Sample.db, inr (mkResponse HTTP_405_METHOD_NOT_ALLOWED NoBody))
  ∧ BaseRecipeAttrViewSet.dispatch TagKind Sample.db request
    ≠ (Sample.db, inr not_found).
Proof.
  intros request. split; [apply list_elem_of_In; simpl; tauto|].
  repeat (split; [done|]). done.
Qed.

Lemma malformed_filter_raises_ValueError_witness :
  let request :=
    Sample.get Sample.alice (DetailRoute 1) {[ "tags" := "1,,2" ]} in
  RecipeViewSet.get_queryset Sample.db Sample.alice (query_params request)
  = inl ValueError
  ∧ RecipeViewSet.dispatch Sample.decodable Sample.db request
    = (Sample.db, inl ValueError).
Proof.
  intros request.
  destruct (malformed_filter_raises_ValueError Sample.decodable Sample.db
              Sample.alice (query_params request)) as [H _].
  destruct (H "1,,2" "") as [Hq Hd];
    [left; reflexivity|reflexivity
    |apply list_elem_of_In; simpl; tauto|reflexivity|].
  split; [exact Hq|]. apply Hd; [reflexivity..|].
  right. exists 1. left. split; [reflexivity|].
  apply list_elem_of_In. simpl. tauto.
Defined.

(** C9, as stated, at recipe requests with [tags=abc] that do not reach
    [get_queryset]: a create is answered 201, or 400 with the field
    errors of its payload, and a request without credentials is answered
    401; none of them ends in [ValueError]. *)
Lemma create_ignores_malformed_filter :
  let qp : gmap string string := {[ "tags" := "abc" ]} in
  let valid :=
    mkRequest POST ListRoute (Some Sample.alice) qp (Sample.names ["Thai"])
      "uuid" in
  let invalid :=
    mkRequest POST ListRoute (Some Sample.alice) qp no_data "uuid" in
  let anonymous := mkRequest GET ListRoute None qp no_data "uuid" in
  RecipeViewSet.get_queryset Sample.db Sample.alice qp = inl ValueError
  ∧ (∃ db' recipe,
       RecipeViewSet.dispatch Sample.decodable Sample.db valid
       = (db', inr (mkResponse HTTP_201_CREATED (RecipeRow recipe))))
  ∧ RecipeViewSet.dispatch Sample.decodable Sample.db invalid
    = (Sample.db,
       inr (mkResponse HTTP_400_BAD_REQUEST
              (Errors (serializer.errors no_data))))
  ∧ serializer.errors no_data !! "title" = Some "This field is required."
  ∧ RecipeViewSet.dispatch Sample.decodable Sample.db anonymous
    = (Sample.db, inr (mkResponse HTTP_401_UNAUTHORIZED NoBody)).
Proof.
  intros qp valid invalid anonymous. split; [done|]. split.
  { do 2 eexists. by vm_compute. }
  split; [done|]. split; [by vm_compute|done].
Qed.

Lemma upload_image_validates_and_replaces_witness :
  let request :=
    Sample.send POST Sample.alice (UploadImageRoute 1)
      (Sample.image (File "photo.jpg" "JPEG0001")) in
  user request = Some Sample.alice
  ∧ method request = POST ∧ route request = UploadImageRoute 1
  ∧ NoDup (r_id <$> recipes Sample.db)
  ∧ Sample.curry ∈ recipes Sample.db
  ∧ r_user Sample.curry = Sample.alice ∧ r_id Sample.curry = 1
  ∧ param_ids (query_params request !! "tags") = inr None
  ∧ param_ids (query_params request !! "ingredients") = inr None
  ∧ passes (recipe_tags Sample.db) None Sample.curry
  ∧ passes (recipe_ingredients Sample.db) None Sample.curry
  ∧ ∃ db',
      RecipeViewSet.dispatch Sample.decodable Sample.db request
      = (db',
         inr (mkResponse HTTP_200_OK
                (ImageRow 1 (Some "uploads/recipe/uuid.jpg"))))
      ∧ (∃ r', r' ∈ recipes db' ∧ r_id r' = 1)
      ∧ (∀ r', r' ∈ recipes db' → r_id r' = 1 →
               r_image r' = Some "uploads/recipe/uuid.jpg")
      ∧ media db' !! "uploads/recipe/uuid.jpg" = Some "JPEG0001"
      ∧ (∀ r0, r_id r0 ≠ 1 → r0 ∈ recipes db' ↔ r0 ∈ recipes Sample.db).
Proof.
  intros request.
  assert (Sample.curry ∈ recipes Sample.db) as Hin.
  { apply list_elem_of_In. simpl. tauto. }
  repeat (split; [reflexivity|]). split; [apply sample_recipes_ok|].
  split; [exact Hin|]. do 4 (split; [reflexivity|]).
  split; [exact I|]. split; [exact I|].
  destruct (upload_image_validates_and_replaces Sample.decodable Sample.db
              request Sample.alice 1 Sample.curry None None eq_refl eq_refl
              eq_refl (recipes_pk _ sample_recipes_ok) Hin eq_refl eq_refl
              eq_refl eq_refl) as [H _].
  destruct (H I I) as [_ Hvalid].
  exact (Hvalid "photo.jpg" "JPEG0001" eq_refl eq_refl).
Defined.

(** C6, as stated, at an upload to the requesting user's own recipe with
    a tags parameter that excludes it: the request is answered 404,
    neither 200 nor 400, whether the payload is a decodable image or
    not. *)
Lemma upload_image_excluded_by_filter :
  let valid :=
    mkRequest POST (UploadImageRoute 1) (Some Sample.alice)
      {[ "tags" := "3" ]} (Sample.image (File "photo.jpg" "JPEG0001"))
      "uuid" in
  let invalid :=
    mkRequest POST (UploadImageRoute 1) (Some Sample.alice)
      {[ "tags" := "3" ]} (Sample.image (File "photo.jpg" "notanimage"))
      "uuid" in
  Sample.curry ∈ recipes Sample.db
  ∧ r_id Sample.curry = 1 ∧ r_user Sample.curry = Sample.alice
  ∧ Sample.decodable "JPEG0001" = true
  ∧ Sample.decodable "notanimage" = false
  ∧ RecipeViewSet.dispatch Sample.decodable Sample.db valid
    = (Sample.db, inr (mkResponse HTTP_404_NOT_FOUND NoBody))
  ∧ RecipeViewSet.dispatch Sample.decodable Sample.db invalid
    = (Sample.db, inr (mkResponse HTTP_404_NOT_FOUND NoBody)).
Proof.
  intros valid invalid. split; [apply list_elem_of_In; simpl; tauto|].
  repeat (split; [done|]). done.
Qed.

Lemma nested_labels_get_or_create_witness :
  let request :=
    Sample.send POST Sample.alice ListRoute
      (Sample.names ["Dinner"; "Breakfast"]) in
  labels_ok TagKind Sample.db ∧ user request = Some Sample.alice
  ∧ ∃ db' recipe,
      RecipeViewSet.dispatch Sample.decodable Sample.db request
      = (db', inr (mkResponse HTTP_201_CREATED (RecipeRow recipe)))
      ∧ recipes db' = recipes Sample.db ++ [recipe]
      ∧ r_user recipe = Sample.alice
      ∧ (recipes_ok Sample.db →
         ∀ r, r ∈ recipes Sample.db → r_id r ≠ r_id recipe)
      ∧ reused_or_created TagKind Sample.alice ["Dinner"; "Breakfast"]
          (r_id recipe) Sample.db db'.
Proof.
  intros request. split; [apply sample_labels_ok|]. split; [reflexivity|].
  destruct (nested_labels_get_or_create Sample.decodable TagKind Sample.db
              request Sample.alice (sample_labels_ok TagKind) eq_refl)
    as [H _].
  exact (H eq_refl eq_refl eq_refl).
Defined.

Lemma registration_rejects_and_hides_password_witness :
  let d :=
    mkUserData (Some "alice@example.com") (Some "longenough") (Some "Eve") in
  (∃ u0, u0 ∈ users Sample.db ∧ u_email u0 = "alice@example.com")
  ∧ ∃ errors,
      UserViews.CreateUserView Sample.hash 5 Sample.db d
      = (Sample.db, mkResponse HTTP_400_BAD_REQUEST (Errors errors)).
Proof.
  intros d.
  assert (∃ u0, u0 ∈ users Sample.db ∧ u_email u0 = "alice@example.com")
    as Htaken.
  { eexists. split; [apply list_elem_of_In; simpl; left; reflexivity|].
    reflexivity. }
  split; [exact Htaken|].
  destruct (registration_rejects_and_hides_password Sample.hash 5 Sample.db d)
    as [H _].
  exact (H "alice@example.com" eq_refl Htaken).
Defined.

Lemma token_requires_matching_credentials_witness :
  credentials_match Sample.hash Sample.db "alice@example.com" "alicepass"
  ∧ ∃ db' key,
      UserViews.CreateTokenView Sample.hash Sample.key_of Sample.db
        "alice@example.com" "alicepass"
      = (db', mkResponse HTTP_200_OK (Dict {[ "token" := key ]}))
      ∧ ∃ u, (key, u_id u) ∈ tokens db' ∧ u ∈ users Sample.db
             ∧ u_email u = "alice@example.com"
             ∧ u_password u = Sample.hash "alicepass".
Proof.
  assert (credentials_match Sample.hash Sample.db "alice@example.com"
            "alicepass") as Hmatch.
  { eexists. split; [apply list_elem_of_In; simpl; left; reflexivity|].
    split; reflexivity. }
  split; [exact Hmatch|].
  destruct (token_requires_matching_credentials Sample.hash Sample.key_of
              Sample.db "alice@example.com" "alicepass") as [_ H].
  exact (H Hmatch).
Defined.

End Instances.

(** ** The tests of the repository, evaluated *)

Section Tests.

(** [test_filter_by_tags]: both tagged recipes, once each, newest first. *)
Example test_filter_by_tags :
  RecipeViewSet.get_queryset Sample.db Sample.alice {[ "tags" := "1,2" ]}
  = inr [Sample.pork; Sample.curry].
Proof. reflexivity. Qed.

(** Tags and ingredients together: only the curry has both. *)
Example test_filter_by_tags_and_ingredients :
  RecipeViewSet.get_queryset Sample.db Sample.alice
    {[ "tags" := "1,2"; "ingredients" := "1" ]}
  = inr [Sample.curry].
Proof. reflexivity. Qed.

(** [test_recipe_list_limited_to_user] *)
Example test_recipe_list_limited_to_user :
  RecipeViewSet.get_queryset Sample.db Sample.bob ∅ = inr [Sample.soup].
Proof. reflexivity. Qed.

(** [test_access_other_user_recipe] *)
Example test_access_other_user_recipe :
  RecipeViewSet.dispatch Sample.decodable Sample.db
    (Sample.send DELETE Sample.alice (DetailRoute 3) no_data)
  = (Sample.db, inr not_found).
Proof. reflexivity. Qed.

(** [test_filtered_tags_unique]: the tag linked to two recipes is listed
    once; names come greatest first. *)
Example test_filtered_tags_unique :
  BaseRecipeAttrViewSet.get_queryset TagKind Sample.db Sample.alice
    {[ "assigned_only" := "1" ]}
  = inr [Sample.thai; Sample.dinner].
Proof. reflexivity. Qed.

(** [test_create_recipe_with_existing_tag]: the user's tag is linked, the
    other name gets a row; the other user's tag of the same name is not
    touched. *)
Example test_create_recipe_with_existing_tag :
  let db' :=
    (RecipeViewSet.dispatch Sample.decodable Sample.db
       (Sample.send POST Sample.alice ListRoute
          (Sample.names ["Dinner"; "Breakfast"]))).1 in
  tags db'
  = [Sample.dinner; Sample.thai; Sample.bobs_dinner;
     mkLabel 4 Sample.alice "Breakfast"]
  ∧ recipe_tags db' = recipe_tags Sample.db ++ [(4, 1); (4, 4)].
Proof. split; reflexivity. Qed.

(** A name that only another user has a tag for gets a row of its own. *)
Example test_create_recipe_with_other_users_tag :
  let db' :=
    (RecipeViewSet.dispatch Sample.decodable Sample.db
       (Sample.send POST Sample.bob ListRoute (Sample.names ["Thai"]))).1 in
  tags db'
  = [Sample.dinner; Sample.thai; Sample.bobs_dinner;
     mkLabel 4 Sample.bob "Thai"]
  ∧ recipe_tags db' = recipe_tags Sample.db ++ [(4, 4)].
Proof. split; reflexivity. Qed.

(** [test_upload_image_bad_request] *)
Example test_upload_image_bad_request :
  RecipeViewSet.dispatch Sample.decodable Sample.db
    (Sample.send POST Sample.alice (UploadImageRoute 1)
       (Sample.image (NotAFile "notanimage")))
  = (Sample.db,
     inr (mkResponse HTTP_400_BAD_REQUEST
            (Errors {[ "image" := "The submitted data was not a file." ]}))).
Proof. reflexivity. Qed.

(** [test_create_user_success]: the body has no password. *)
Example test_create_user_success :
  (UserViews.CreateUserView Sample.hash 5 Sample.db
     (mkUserData (Some "test@EXAMPLE.com") (Some "test123")
        (Some "Test Name"))).2
  = mkResponse HTTP_201_CREATED
      (Dict {[ "email" := "test@example.com"; "name" := "Test Name" ]}).
Proof. reflexivity. Qed.

(** [test_create_user_with_short_password] *)
Example test_create_user_with_short_password :
  (UserViews.CreateUserView Sample.hash 5 Sample.db
     (mkUserData (Some "test@example.com") (Some "a") (Some "Test name"))).1
  = Sample.db.
Proof. reflexivity. Qed.

(** [test_create_token_bad_credentials] and
    [test_create_token_blank_credentials] *)
Example test_create_token_bad_credentials :
  UserViews.CreateTokenView Sample.hash Sample.key_of Sample.db
    "alice@example.com" "badpass"
  = (Sample.db,
     mkResponse HTTP_400_BAD_REQUEST (Errors UserViews.bad_credentials))
  ∧ UserViews.CreateTokenView Sample.hash Sample.key_of Sample.db
      "alice@example.com" ""
    = (Sample.db,
       mkResponse HTTP_400_BAD_REQUEST (Errors UserViews.bad_credentials)).
Proof. split; reflexivity. Qed.

(** [test_recipe_file_name_uuid] *)
Example test_recipe_file_name_uuid :
  serializer.recipe_image_file_path "test-uuid" "example.jpg"
  = "uploads/recipe/test-uuid.jpg".
Proof. reflexivity. Qed.

(** What [int] reads and what it rejects. *)
Example int_literals :
  Py.int_literal "12" = Some 12 ∧ Py.int_literal " 7 " = Some 7
  ∧ Py.int_literal "-3" = Some (-3) ∧ Py.int_literal "1_000" = Some 1000
  ∧ Py.int_literal "abc" = None ∧ Py.int_literal "" = None
  ∧ Py.int_literal "1__0" = None ∧ Py.int_literal "1.5" = None.
Proof. repeat split; reflexivity. Qed.

(** [int] does not skip the separators U+001C to U+001F, which
    [str.isspace()] holds of; it skips the no-break space. *)
Example int_blanks :
  Py.int_literal (String (ascii_of_N 28) "1") = None
  ∧ Py.int_literal (String (ascii_of_N 31) "1") = None
  ∧ Py.int_literal (String (ascii_of_N 160) "1") = Some 1
  ∧ Py.int_literal (String (ascii_of_N 9) "1") = Some 1.
Proof. repeat split; reflexivity. Qed.

(** The limit on the digits of a literal: 4300 digits are read, 4301 are
    not, leading zeros counted. *)
Example int_max_str_digits :
  is_Some (Py.int_literal (string_of_list_ascii (replicate 4300 "1"%char)))
  ∧ Py.int_literal (string_of_list_ascii (replicate 4301 "1"%char)) = None
  ∧ Py.int_literal (string_of_list_ascii (replicate 4301 "0"%char)) = None.
Proof.
  split; [apply (bool_decide_unpack _); by vm_compute|].
  split; by vm_compute.
Qed.

End Tests.

(** ** Waiting for the database *)

Section WaitForDb.
Import wait_for_db.

Lemma loop_caught fs checks c :
  Forall caught fs →
  loop (fs ++ checks) c
  = loop checks
      (mkConsole (stdout c ++ replicate (length fs) unavailable)
         (slept c + length fs) (checked c + length fs)).
Proof.
  intros Hfs. revert c. induction Hfs as [|o fs Ho _ IH]; intros c.
  - simpl. destruct c; simpl. by rewrite app_nil_r, !Nat.add_0_r.
  - assert (loop ((o :: fs) ++ checks) c
            = loop (fs ++ checks)
                (sleep 1 (write unavailable (check c)))) as ->
      by (by destruct Ho as [-> | ->]).
    rewrite IH. simpl. f_equal. f_equal; [|lia..].
    by rewrite <- app_assoc.
Qed.

(** The outcomes split at the first one that is not caught. *)
Lemma split_caught (checks : list Check) :
  Forall caught checks
  ∨ ∃ fs o rest, checks = fs ++ o :: rest ∧ Forall caught fs ∧ ¬ caught o.
Proof.
  induction checks as [|o checks IH]; [by left|].
  destruct (decide (caught o)) as [Ho|Ho].
  - destruct IH as [IH|(fs & o' & rest & -> & Hfs & Ho')].
    + left. by constructor.
    + right. exists (o :: fs), o', rest. split; [done|]. split; [|done].
      by constructor.
  - right. exists [], o, checks. split; [done|]. split; [constructor|done].
Qed.

(** X1: when the database comes up after [n] failed checks of the two
    caught kinds, the command returns having written the opening line,
    [n] times the unavailable line and the final line, slept [n] seconds
    and called [check] [n + 1] times; later outcomes are not looked at. *)
Theorem handle_returns_when_up fs rest :
  Forall caught fs →
  handle (fs ++ Up :: rest)
  = Finished
      (mkConsole
         (Plain "Waiting for database..."
            :: replicate (length fs) unavailable
            ++ [SUCCESS "Database available"])
         (length fs) (S (length fs))).
Proof.
  intros Hfs. unfold handle. by rewrite (loop_caught fs _ _ Hfs).
Qed.

(** X2: how a run ends is decided by the first outcome that is not
    caught: the command returns when it is a success, the exception
    leaves the command when it is another error, and the command is still
    waiting when there is none.  The final line is written exactly when
    the command returns, and then it is the last line. *)
Theorem handle_ends_by_first_uncaught checks :
  (∀ c, handle checks = Finished c
        ↔ ∃ fs rest, checks = fs ++ Up :: rest ∧ Forall caught fs
                     ∧ c = console (handle checks))
  ∧ (∀ e c, handle checks = Raised e c
            ↔ ∃ fs rest, checks = fs ++ Unexpected e :: rest
                         ∧ Forall caught fs ∧ c = console (handle checks))
  ∧ (∀ c, handle checks = Waiting c
          ↔ Forall caught checks ∧ c = console (handle checks))
  ∧ (SUCCESS "Database available" ∈ stdout (console (handle checks))
     ↔ ∃ c, handle checks = Finished c)
  ∧ (∀ c, handle checks = Finished c →
          last (stdout c) = Some (SUCCESS "Database available")).
Proof.
  assert (∀ fs rest, Forall caught fs →
            handle (fs ++ Up :: rest)
            = Finished (console (handle (fs ++ Up :: rest)))) as Hup.
  { intros fs rest Hfs. by rewrite (handle_returns_when_up fs rest Hfs). }
  assert (∀ fs e rest, Forall caught fs →
            handle (fs ++ Unexpected e :: rest)
            = Raised e (console (handle (fs ++ Unexpected e :: rest)))
            ∧ SUCCESS "Database available"
              ∉ stdout (console (handle (fs ++ Unexpected e :: rest))))
    as Hex.
  { intros fs e rest Hfs. unfold handle. rewrite (loop_caught fs _ _ Hfs).
    simpl. split; [done|]. intros Hin.
    apply elem_of_cons in Hin as [?|Hin]; [done|].
    apply elem_of_replicate in Hin as [? _]. done. }
  assert (∀ fs, Forall caught fs →
            handle fs = Waiting (console (handle fs))
            ∧ SUCCESS "Database available" ∉ stdout (console (handle fs)))
    as Hwait.
  { intros fs Hfs. unfold handle.
    rewrite <- (app_nil_r fs) at 1 2 3. rewrite (loop_caught fs _ _ Hfs).
    simpl. split; [done|]. intros Hin.
    apply elem_of_cons in Hin as [?|Hin]; [done|].
    apply elem_of_replicate in Hin as [? _]. done. }
  destruct (split_caught checks) as [Hall|(fs & o & rest & -> & Hfs & Ho)].
  - destruct (Hwait checks Hall) as [Hw Hno].
    split; [|split; [|split; [|split]]].
    + intros c. split; [by rewrite Hw|].
      intros (fs & rest & -> & _ & _).
      apply Forall_app in Hall as [_ Hall]. apply Forall_cons in Hall as [[?|?] _];
        done.
    + intros e c. split; [by rewrite Hw|].
      intros (fs & rest & -> & _ & _).
      apply Forall_app in Hall as [_ Hall]. apply Forall_cons in Hall as [[?|?] _];
        done.
    + intros c. rewrite Hw at 1. split; [by intros [= <-]|].
      by intros [_ ->].
    + split; [done|]. intros [c Hc]. by rewrite Hw in Hc.
    + intros c. by rewrite Hw.
  - assert (∀ fs' o' rest', fs ++ o :: rest = fs' ++ o' :: rest' →
              Forall caught fs' → ¬ caught o' → o' = o) as Hfirst.
    { clear -Hfs Ho. intros fs' o' rest' Heq Hfs' Ho'.
      revert fs' Heq Hfs'. induction Hfs as [|x fs Hx _ IH]; intros fs' Heq Hfs'.
      - destruct fs' as [|y fs']; simpl in Heq; [congruence|].
        injection Heq as -> _. by apply Forall_cons in Hfs' as [? _].
      - destruct fs' as [|y fs']; simpl in Heq.
        + injection Heq as <- _. done.
        + injection Heq as _ Heq. apply Forall_cons in Hfs' as [_ Hfs'].
          by apply (IH fs'). }
    assert (¬ Forall caught (fs ++ o :: rest)) as Hnot.
    { intros Hall. apply Forall_app in Hall as [_ Hall].
      by apply Forall_cons in Hall as [? _]. }
    destruct o as [| | |e0]; [|exfalso; apply Ho; by left
                              |exfalso; apply Ho; by right|].
    + pose proof (Hup fs rest Hfs) as Hf.
      split; [|split; [|split; [|split]]].
      * intros c. rewrite Hf at 1. split.
        -- intros [= <-]. by exists fs, rest.
        -- by intros (_ & _ & _ & _ & ->).
      * intros e c. rewrite Hf at 1. split; [done|].
        intros (fs' & rest' & Heq & Hfs' & _).
        by pose proof (Hfirst fs' (Unexpected e) rest' Heq Hfs'
                         ltac:(by intros [?|?])).
      * intros c. rewrite Hf at 1. split; [done|]. by intros [? _].
      * split; [by eauto|]. intros _.
        rewrite (handle_returns_when_up fs rest Hfs). simpl.
        right. apply elem_of_app. right. by left.
      * intros c. rewrite (handle_returns_when_up fs rest Hfs).
        intros [= <-]. simpl.
        by rewrite app_comm_cons, last_snoc.
    + destruct (Hex fs e0 rest Hfs) as [Hr Hno].
      split; [|split; [|split; [|split]]].
      * intros c. rewrite Hr at 1. split; [done|].
        intros (fs' & rest' & Heq & Hfs' & _).
        by pose proof (Hfirst fs' Up rest' Heq Hfs' ltac:(by intros [?|?])).
      * intros e c. rewrite Hr at 1. split.
        -- intros [= <- <-]. by exists fs, rest.
        -- intros (fs' & rest' & Heq & Hfs' & ->).
           pose proof (Hfirst fs' (Unexpected e) rest' Heq Hfs'
                         ltac:(by intros [?|?])) as [= ->]. done.
      * intros c. rewrite Hr at 1. split; [done|]. by intros [? _].
      * split; [done|]. intros [c Hc]. by rewrite Hr in Hc.
      * intros c. by rewrite Hr.
Qed.

(** X3: in every run, however it ends, the command has slept one second
    for each unavailable line it wrote, the opening line came first, and
    it has written nothing else but, at most, the final line. *)
Theorem handle_sleeps_once_per_failure checks :
  let c := console (handle checks) in
  slept c = length (filter (λ l, l = unavailable) (stdout c))
  ∧ head (stdout c) = Some (Plain "Waiting for database...")
  ∧ Forall (λ l, l = unavailable ∨ l = SUCCESS "Database available")
      (tail (stdout c))
  ∧ (slept c ≤ checked c ≤ S (slept c))%nat.
Proof.
  assert (∀ (fs : list Check) tl,
            length (filter (λ l, l = unavailable)
                      (replicate (length fs) unavailable ++ tl))
            = (length fs
               + length (filter (λ l, l = unavailable) tl))%nat) as Hcount.
  { intros fs tl. rewrite filter_app, length_app. f_equal.
    generalize (length fs). intros n. induction n as [|n IH]; [done|].
    change (replicate (S n) unavailable)
      with (unavailable :: replicate n unavailable).
    rewrite filter_cons, decide_True by done. simpl. by rewrite IH. }
  assert (∀ n : nat, Forall (λ l, l = unavailable
                              ∨ l = SUCCESS "Database available")
                       (replicate n unavailable)) as Hrep.
  { intros n. apply Forall_forall. intros l Hl.
    apply elem_of_replicate in Hl as [-> _]. by left. }
  destruct (split_caught checks) as [Hall|(fs & o & rest & -> & Hfs & Ho)].
  - unfold handle. rewrite <- (app_nil_r checks).
    rewrite (loop_caught checks _ _ Hall). simpl.
    rewrite filter_cons, decide_False by done.
    rewrite <- (app_nil_r (replicate _ _)), Hcount. simpl.
    rewrite app_nil_r. repeat split; auto; lia.
  - unfold handle. rewrite (loop_caught fs _ _ Hfs).
    destruct o as [| | |e0]; [|exfalso; apply Ho; by left
                              |exfalso; apply Ho; by right|]; simpl.
    + rewrite filter_cons, decide_False by done.
      rewrite Hcount, filter_cons, decide_False by done. simpl.
      split; [lia|]. split; [done|]. split; [|lia].
      apply Forall_app. split; [done|]. apply Forall_singleton. by right.
    + rewrite filter_cons, decide_False by done.
      rewrite <- (app_nil_r (replicate _ _)), Hcount. simpl.
      rewrite app_nil_r. repeat split; auto; lia.
Qed.

End WaitForDb.

(** ** Splitting and joining *)

Section Split.
Context (sep : ascii).

Lemma split_nonempty s : Py.split sep s ≠ [].
Proof.
  destruct s as [|c s]; simpl; [done|].
  case_decide; [done|]. by destruct (Py.split sep s).
Qed.

Lemma split_free s : free_of sep s → Py.split sep s = [s].
Proof.
  unfold free_of. induction s as [|c s IH]; simpl; [done|].
  intros Hfree. apply not_elem_of_cons in Hfree as [Hc Hs].
  rewrite decide_False by done. by rewrite IH.
Qed.

Lemma split_app p rest :
  free_of sep p →
  Py.split sep (p +:+ String sep rest) = p :: Py.split sep rest.
Proof.
  unfold free_of. induction p as [|c p IH].
  - intros _. change (EmptyString +:+ String sep rest) with (String sep rest).
    simpl. by rewrite decide_True.
  - intros Hfree. simpl in Hfree. apply not_elem_of_cons in Hfree as [Hc Hp].
    change (String c p +:+ String sep rest)
      with (String c (p +:+ String sep rest)).
    simpl. rewrite decide_False by done. by rewrite IH.
Qed.

Lemma join_split s : join sep (Py.split sep s) = s.
Proof.
  unfold join. induction s as [|c s IH]; simpl; [done|].
  pose proof (split_nonempty s) as Hne.
  destruct (Py.split sep s) as [|t ts] eqn:Hs; [done|].
  case_decide as Hc.
  - subst c. transitivity
      (String sep (String.concat (String sep EmptyString) (t :: ts)));
      [reflexivity|by rewrite IH].
  - rewrite <- IH. by destruct ts.
Qed.

Lemma split_pieces_free s : Forall (free_of sep) (Py.split sep s).
Proof.
  unfold free_of. induction s as [|c s IH]; simpl.
  - apply Forall_singleton. apply not_elem_of_nil.
  - case_decide as Hc.
    + constructor; [apply not_elem_of_nil|done].
    + destruct (Py.split sep s) as [|t ts]; simpl.
      * apply Forall_singleton. simpl. apply not_elem_of_cons.
        split; [done|apply not_elem_of_nil].
      * apply Forall_cons in IH as [Ht Hts]. constructor; [|done].
        simpl. apply not_elem_of_cons. auto.
Qed.

Lemma length_split s :
  length (Py.split sep s)
  = S (length (filter (λ c, c = sep) (list_ascii_of_string s))).
Proof.
  induction s as [|c s IH]; simpl; [done|].
  rewrite filter_cons. case_decide as Hc.
  - simpl. by rewrite IH.
  - pose proof (split_nonempty s) as Hne.
    destruct (Py.split sep s) as [|t ts]; [done|]. simpl in *. done.
Qed.

Lemma split_join pieces :
  pieces ≠ [] → Forall (free_of sep) pieces →
  Py.split sep (join sep pieces) = pieces.
Proof.
  unfold join. induction pieces as [|p pieces IH]; [done|].
  intros _ Hfree. apply Forall_cons in Hfree as [Hp Hfree].
  destruct pieces as [|p' pieces].
  - simpl. by apply split_free.
  - cbn [String.concat].
    change (String sep EmptyString ++ ?s)%string with (String sep s).
    rewrite split_app by done. f_equal. by apply IH.
Qed.

(** X4: [split] cuts a string at every occurrence of the separator and
    nowhere else: the pieces have no separator, there is one more piece
    than separators (so never none), and joining them with the separator
    gives the string back; a non-empty list of pieces without separator is
    what [split] returns on their join. *)
Theorem split_inverts_join s :
  join sep (Py.split sep s) = s
  ∧ Forall (free_of sep) (Py.split sep s)
  ∧ length (Py.split sep s)
    = S (length (filter (λ c, c = sep) (list_ascii_of_string s)))
  ∧ ∀ pieces,
      pieces ≠ [] → Forall (free_of sep) pieces →
      Py.split sep (join sep pieces) = pieces.
Proof.
  split; [apply join_split|]. split; [apply split_pieces_free|].
  split; [apply length_split|]. apply split_join.
Qed.

End Split.

(** ** Reading the ids of a parameter *)

Section ParamsToInts.

Lemma mapM_int_inr (l : list string) ids :
  mapM (M := Result) Py.int l = inr ids
  ↔ Forall2 (λ q n, Py.int_literal q = Some n) l ids.
Proof.
  revert ids. induction l as [|q l IH]; intros ids; simpl.
  - split.
    + intros [= <-]. constructor.
    + intros H. by apply Forall2_nil_inv_l in H as ->.
  - destruct (Py.int_literal q) as [n|] eqn:Hq; unfold Py.int; rewrite Hq.
    + destruct (mapM _ l) as [e|ids'] eqn:Hl; result_simpl.
      * split; [done|]. intros H.
        apply Forall2_cons_inv_l in H as (n' & ids'' & _ & H & ->).
        by apply IH in H.
      * split.
        -- intros [= <-]. constructor; [done|]. by apply IH.
        -- intros H.
           apply Forall2_cons_inv_l in H as (n' & ids'' & Hn & H & ->).
           apply IH in H. congruence.
    + result_simpl. split; [done|]. intros H.
      apply Forall2_cons_inv_l in H as (n' & ids'' & Hn & _ & _). congruence.
Qed.

(** X5: [_params_to_ints] returns exactly when [int] reads every piece of
    the string, and then it returns those integers, one per piece, in
    order: one more than there are commas, so never an empty list.  One
    piece that is not a literal makes the whole conversion raise
    [ValueError], wherever it stands. *)
Theorem params_to_ints_all_or_nothing qs :
  (∀ ids,
      RecipeViewSet._params_to_ints qs = inr ids
      ↔ Forall2 (λ q n, Py.int_literal q = Some n) (Py.split "," qs) ids)
  ∧ (∀ ids,
       RecipeViewSet._params_to_ints qs = inr ids →
       length ids
       = S (length (filter (λ c, c = ","%char) (list_ascii_of_string qs))))
  ∧ (RecipeViewSet._params_to_ints qs = inl ValueError
     ↔ ∃ q, q ∈ Py.split "," qs ∧ Py.int_literal q = None)
  ∧ ∀ e, RecipeViewSet._params_to_ints qs = inl e → e = ValueError.
Proof.
  split; [intros ids; apply mapM_int_inr|]. split.
  - intros ids Hids. apply mapM_int_inr in Hids.
    apply Forall2_length in Hids. rewrite <- Hids. apply length_split.
  - split; [apply params_to_ints_raises|apply params_to_ints_inl].
Qed.

Lemma pretty_N_char_digit d :
  (d < 10)%N →
  Py.isdigit (pretty_N_char d) = true
  ∧ Py.digit_value (pretty_N_char d) = Z.of_N d.
Proof.
  intros Hd.
  assert (d = 0 ∨ d = 1 ∨ d = 2 ∨ d = 3 ∨ d = 4 ∨ d = 5 ∨ d = 6 ∨ d = 7
          ∨ d = 8 ∨ d = 9)%N as Hcases by lia.
  repeat (destruct Hcases as [->|Hcases]; [by vm_compute|]).
  subst. by vm_compute.
Qed.

Lemma digits_pretty_N_go x s after :
  (0 < x)%N →
  Py.digits 0 after (list_ascii_of_string (pretty_N_go x s))
  = Py.digits (Z.of_N x) true (list_ascii_of_string s).
Proof.
  revert s after. induction (N.lt_wf_0 x) as [x _ IH]; intros s after Hx.
  rewrite pretty_N_go_step by done.
  destruct (pretty_N_char_digit (x `mod` 10)) as [Hd Hv];
    [by apply N.mod_lt|].
  assert (Z.of_N x = 10 * Z.of_N (x `div` 10) + Z.of_N (x `mod` 10)) as Hx10.
  { rewrite (N.div_mod x 10) at 1 by done. lia. }
  destruct (decide (x `div` 10 = 0)%N) as [H0|H0].
  - rewrite H0, pretty_N_go_0. simpl. rewrite Hd, Hv, Hx10, H0. done.
  - rewrite IH; [|by apply N.div_lt|by apply N.neq_0_lt_0].
    simpl. by rewrite Hd, Hv, Hx10.
Qed.

Lemma pretty_N_go_chars (P : ascii → Prop) x s :
  (∀ d, (d < 10)%N → P (pretty_N_char d)) →
  Forall P (list_ascii_of_string s) →
  Forall P (list_ascii_of_string (pretty_N_go x s)).
Proof.
  intros HP. revert s. induction (N.lt_wf_0 x) as [x _ IH]; intros s Hs.
  destruct (decide (x = 0)%N) as [->|Hx]; [by rewrite pretty_N_go_0|].
  rewrite pretty_N_go_step by (by apply N.neq_0_lt_0).
  apply IH; [apply N.div_lt; [by apply N.neq_0_lt_0|done]|].
  simpl. constructor; [|done]. apply HP. by apply N.mod_lt.
Qed.

Lemma lstrip_id l :
  Forall (λ c, Py.isspace c = false) l → Py.lstrip l = l.
Proof. destruct 1 as [|c l Hc _]; simpl; [done|]. by rewrite Hc. Qed.

Lemma strip_id l :
  Forall (λ c, Py.isspace c = false) l → Py.strip l = l.
Proof.
  intros Hl. unfold Py.strip. rewrite (lstrip_id l Hl), lstrip_id.
  - apply rev_involutive.
  - apply Forall_forall. intros c Hc. apply (proj1 (elem_of_rev c l)) in Hc.
    by apply (proj1 (Forall_forall _ _) Hl).
Qed.

(** The number of characters that [pretty_N_go] puts before [s]: as many
    as [x] has decimal digits. *)
Lemma pretty_N_go_length x s (k : nat) :
  (x < 10 ^ N.of_nat k)%N →
  (length (list_ascii_of_string (pretty_N_go x s))
   ≤ k + length (list_ascii_of_string s))%nat.
Proof.
  revert s k. induction (N.lt_wf_0 x) as [x _ IH]; intros s k Hx.
  destruct (decide (x = 0)%N) as [->|H0]; [rewrite pretty_N_go_0; lia|].
  rewrite pretty_N_go_step by (by apply N.neq_0_lt_0).
  destruct k as [|k]; [simpl in Hx; lia|].
  rewrite Nat2N.inj_succ, N.pow_succ_r' in Hx.
  etrans; [apply (IH (x `div` 10)%N) with (k := k)|simpl; lia].
  - apply N.div_lt; [by apply N.neq_0_lt_0|done].
  - apply N.Div0.div_lt_upper_bound. lia.
Qed.

Lemma pretty_N_go_length_ge x s :
  (length (list_ascii_of_string s)
   ≤ length (list_ascii_of_string (pretty_N_go x s)))%nat.
Proof.
  revert s. induction (N.lt_wf_0 x) as [x _ IH]; intros s.
  destruct (decide (x = 0)%N) as [->|H0]; [by rewrite pretty_N_go_0|].
  rewrite pretty_N_go_step by (by apply N.neq_0_lt_0).
  etrans; [|apply IH; apply N.div_lt; [by apply N.neq_0_lt_0|done]].
  simpl. lia.
Qed.

Lemma pretty_N_go_length_lower x s (k : nat) :
  (10 ^ N.of_nat k ≤ x)%N →
  (S k + length (list_ascii_of_string s)
   ≤ length (list_ascii_of_string (pretty_N_go x s)))%nat.
Proof.
  revert s k. induction (N.lt_wf_0 x) as [x _ IH]; intros s k Hx.
  assert (0 < x)%N as Hpos.
  { pose proof (N.pow_nonzero 10 (N.of_nat k)). lia. }
  rewrite pretty_N_go_step by done.
  destruct k as [|k].
  - etrans; [|apply pretty_N_go_length_ge]. simpl. lia.
  - rewrite Nat2N.inj_succ, N.pow_succ_r' in Hx.
    etrans; [|apply (IH (x `div` 10)%N) with (k := k)].
    + simpl. lia.
    + by apply N.div_lt.
    + apply N.div_le_lower_bound; [done|lia].
Qed.

Lemma count_digits_all ds :
  Forall (λ c, Py.isdigit c = true) ds →
  Py.count_digits ds = Z.of_nat (length ds).
Proof.
  intros Hds. unfold Py.count_digits. f_equal. f_equal.
  induction Hds as [|c ds Hc _ IH]; [done|].
  rewrite filter_cons, decide_True by done. by f_equal.
Qed.

(** The characters of [str(n)]: digits, as many as [n] has decimal
    digits, after a minus sign when [n] is negative. *)
Lemma str_int_chars (n : Z) :
  ∃ sign ds,
    list_ascii_of_string (str_int n) = sign ++ ds
    ∧ (sign = [] ∨ sign = ["-"%char]) ∧ ds ≠ []
    ∧ Forall (λ c, Py.isdigit c = true) ds
    ∧ Py.digits 0 false ds = Some (Z.abs n)
    ∧ (sign = [] ↔ 0 ≤ n)
    ∧ ∀ k : nat,
        (Z.abs n < 10 ^ Z.of_nat k → 0 < Z.of_nat k →
         Z.of_nat (length ds) ≤ Z.of_nat k)
        ∧ (10 ^ Z.of_nat k ≤ Z.abs n → Z.of_nat k < Z.of_nat (length ds)).
Proof.
  assert (∀ p, let ds := list_ascii_of_string (pretty (N.pos p)) in
               ds ≠ [] ∧ Forall (λ c, Py.isdigit c = true) ds
               ∧ Py.digits 0 false ds = Some (Z.pos p)
               ∧ ∀ k : nat,
                   (Z.pos p < 10 ^ Z.of_nat k → 0 < Z.of_nat k →
                    Z.of_nat (length ds) ≤ Z.of_nat k)
                   ∧ (10 ^ Z.of_nat k ≤ Z.pos p →
                      Z.of_nat k < Z.of_nat (length ds))) as Hpos.
  { intros p ds. subst ds. unfold pretty, pretty_N.
    rewrite decide_False by done.
    assert (Forall (λ c, Py.isdigit c = true)
              (list_ascii_of_string (pretty_N_go (N.pos p) ""))) as Hds.
    { apply pretty_N_go_chars; [|constructor].
      intros d Hd. by apply pretty_N_char_digit. }
    pose proof (digits_pretty_N_go (N.pos p) "" false ltac:(lia)) as Hv.
    simpl in Hv. split; [|split; [done|split; [done|]]].
    { intros Hnil. rewrite Hnil in Hv. done. }
    intros k.
    assert (Z.of_N (10 ^ N.of_nat k) = 10 ^ Z.of_nat k) as Hpow.
    { rewrite N2Z.inj_pow. by rewrite nat_N_Z. }
    split.
    - intros Hk _.
      pose proof (pretty_N_go_length (N.pos p) "" k) as Hle.
      simpl in Hle. lia.
    - intros Hk.
      pose proof (pretty_N_go_length_lower (N.pos p) "" k) as Hle.
      simpl in Hle. lia. }
  unfold str_int. destruct n as [|p|p]; unfold pretty, pretty_Z.
  - exists [], ["0"%char].
    split; [done|]. split; [by left|]. split; [done|].
    split; [by repeat constructor|]. split; [done|]. split; [done|].
    intros k. split; [simpl; lia|].
    intros Hk. pose proof (Z.pow_pos_nonneg 10 (Z.of_nat k)). lia.
  - destruct (Hpos p) as (Hne & Hds & Hv & Hlen).
    exists [], (list_ascii_of_string (pretty (N.pos p))).
    split; [done|]. split; [by left|]. split; [done|].
    split; [done|]. split; [done|]. split; [split; [lia|done]|done].
  - destruct (Hpos p) as (Hne & Hds & Hv & Hlen).
    exists ["-"%char], (list_ascii_of_string (pretty (N.pos p))).
    split; [done|]. split; [by right|]. split; [done|].
    split; [done|]. split; [done|]. split; [split; [done|lia]|done].
Qed.

Lemma isdigit_plain c :
  Py.isdigit c = true →
  Py.isspace c = false ∧ c ≠ ","%char ∧ c ≠ "+"%char ∧ c ≠ "-"%char.
Proof.
  destruct c as [[] [] [] [] [] [] [] []]; vm_compute; intros; try done;
    by repeat split.
Qed.

(** [int] reads [str(n)] back as [n], as long as [n] has no more digits
    than the limit; beyond it, [int] rejects [str(n)]. *)
Lemma int_literal_str_int n :
  (Z.abs n < 10 ^ Py.max_str_digits → Py.int_literal (str_int n) = Some n)
  ∧ (10 ^ Py.max_str_digits ≤ Z.abs n → Py.int_literal (str_int n) = None).
Proof.
  destruct (str_int_chars n) as (sign & ds & Hchars & Hsign & Hne & Hds & Hv
                                 & Hpos & Hk).
  assert (Py.strip (list_ascii_of_string (str_int n)) = sign ++ ds)
    as Hstrip.
  { rewrite Hchars. apply strip_id, Forall_app. split.
    - destruct Hsign as [->| ->]; by repeat constructor.
    - eapply Forall_impl; [exact Hds|]. intros c Hc.
      by apply isdigit_plain in Hc as (? & _). }
  assert (Py.count_digits (sign ++ ds) = Z.of_nat (length ds)) as Hcount.
  { destruct Hsign as [->| ->]; [by apply count_digits_all|].
    rewrite <- (count_digits_all ds Hds). unfold Py.count_digits.
    simpl. by rewrite filter_cons, decide_False. }
  assert (Py.max_str_digits = Z.of_nat 4300) as Hmax by done.
  destruct (Hk 4300%nat) as [Hle Hgt]. rewrite <- Hmax in Hle, Hgt.
  unfold Py.int_literal. cbv zeta. rewrite Hstrip, Hcount.
  split; intros Hn.
  - rewrite (proj2 (Z.leb_le _ _)) by (apply Hle; [done|by rewrite Hmax]).
    destruct Hsign as [->| ->]; simpl.
    + destruct ds as [|c ds]; [done|].
      apply Forall_cons in Hds as [Hc _].
      apply isdigit_plain in Hc as (_ & _ & Hp & Hm).
      assert (Z.abs n = n) as Habs by (apply Z.abs_eq, Hpos; done).
      rewrite Habs in Hv.
      destruct c as [[] [] [] [] [] [] [] []]; try exact Hv; congruence.
    + rewrite Hv. simpl. f_equal.
      assert (¬ 0 ≤ n) by (intros H; by apply Hpos in H). lia.
  - rewrite (proj2 (Z.leb_gt _ _)); [done|]. by apply Hgt.
Qed.

Lemma str_int_free n : free_of "," (str_int n).
Proof.
  destruct (str_int_chars n) as (sign & ds & Hchars & Hsign & _ & Hds & _).
  unfold free_of. rewrite Hchars. intros Hin.
  apply elem_of_app in Hin as [Hin|Hin].
  - destruct Hsign as [->| ->]; [by apply elem_of_nil in Hin|].
    by apply list_elem_of_singleton in Hin.
  - apply (proj1 (Forall_forall _ _) Hds) in Hin.
    by apply isdigit_plain in Hin as (_ & ? & _).
Qed.

(** X6: the parameter that a client builds from a non-empty list of ids,
    each written in decimal and joined by commas, is read back by
    [_params_to_ints] as that list, provided every id has at most
    [max_str_digits] decimal digits; an id with more digits makes the
    conversion raise [ValueError].  (No string stands for the empty list:
    the empty string has one piece, which is not a literal.) *)
Theorem params_to_ints_reads_joined_ids (ids : list Z) :
  ids ≠ [] →
  (Forall (λ n, Z.abs n < 10 ^ Py.max_str_digits) ids →
   RecipeViewSet._params_to_ints (join "," (str_int <$> ids)) = inr ids)
  ∧ (Exists (λ n, 10 ^ Py.max_str_digits ≤ Z.abs n) ids →
     RecipeViewSet._params_to_ints (join "," (str_int <$> ids))
     = inl ValueError)
  ∧ RecipeViewSet._params_to_ints "" = inl ValueError.
Proof.
  intros Hne.
  assert (Py.split "," (join "," (str_int <$> ids)) = str_int <$> ids)
    as Hsplit.
  { apply split_join; [by destruct ids|].
    apply Forall_fmap, Forall_forall. intros n _. apply str_int_free. }
  split; [|split; [|done]].
  - intros Hsmall. unfold RecipeViewSet._params_to_ints. rewrite Hsplit.
    apply mapM_int_inr. clear Hne Hsplit.
    induction Hsmall as [|n ids Hn _ IH]; constructor; [|done].
    by apply int_literal_str_int.
  - intros Hbig. apply params_to_ints_raises. rewrite Hsplit.
    apply Exists_exists in Hbig as (n & Hin & Hn).
    exists (str_int n). split; [apply list_elem_of_fmap; by exists n|].
    by apply int_literal_str_int.
Qed.

End ParamsToInts.

(** ** More on the recipe queryset *)

Section QuerysetFacts.

(** Two querysets over a table with a primary key that have the same rows
    are the same list. *)
Lemma sorted_rows_unique (table rows1 rows2 : list Recipe) :
  NoDup (r_id <$> table) → rows1 ⊆ table →
  NoDup rows1 → NoDup rows2 →
  StronglySorted ORM.id_desc rows1 → StronglySorted ORM.id_desc rows2 →
  (∀ r, r ∈ rows1 ↔ r ∈ rows2) → rows1 = rows2.
Proof.
  intros Hpk Hsub Hnd1 Hnd2 Hs1 Hs2 Heq.
  apply (StronglySorted_unique_strong ORM.id_desc); [|done..|].
  - intros x1 x2 Hx1 Hx2 H12 H21. unfold ORM.id_desc in *.
    apply (pk_inj r_id table); [done|by apply Hsub| |lia].
    apply Hsub. by apply Heq.
  - by apply NoDup_Permutation.
Qed.

Lemma passes_same_ids th a b r : same_ids a b → passes th a r ↔ passes th b r.
Proof.
  destruct a as [x|], b as [y|]; simpl; try done.
  intros Hxy. unfold has_one_of. split; intros (t & Ht & Hl); exists t;
    (split; [by apply Hxy|done]).
Qed.

(** X7: over a table with a primary key, the recipe queryset depends on
    which ids a filter parameter lists, not on their order or on
    repetitions: two query strings whose tags parameters, and whose
    ingredients parameters, list the same ids give the same rows in the
    same order. *)
Theorem get_queryset_depends_on_id_set
    db u qp qp' tag_ids tag_ids' ing_ids ing_ids' :
  NoDup (r_id <$> recipes db) →
  param_ids (qp !! "tags") = inr tag_ids →
  param_ids (qp' !! "tags") = inr tag_ids' →
  param_ids (qp !! "ingredients") = inr ing_ids →
  param_ids (qp' !! "ingredients") = inr ing_ids' →
  same_ids tag_ids tag_ids' → same_ids ing_ids ing_ids' →
  RecipeViewSet.get_queryset db u qp = RecipeViewSet.get_queryset db u qp'.
Proof.
  intros Hpk Ht Ht' Hi Hi' Hst Hsi.
  pose proof (get_queryset_inr db u qp _ _ Ht Hi) as Hq.
  pose proof (get_queryset_inr db u qp' _ _ Ht' Hi') as Hq'.
  rewrite Hq, Hq'. f_equal.
  apply (sorted_rows_unique (recipes db)).
  - done.
  - intros r Hin. apply (get_queryset_subseteq _ _ _ _ Hq) in Hin.
    apply list_elem_of_filter in Hin. tauto.
  - exact (get_queryset_NoDup _ _ _ _ Hq).
  - exact (get_queryset_NoDup _ _ _ _ Hq').
  - exact (get_queryset_sorted _ _ _ _ Hq).
  - exact (get_queryset_sorted _ _ _ _ Hq').
  - intros r.
    rewrite (elem_of_get_queryset _ _ _ _ _ _ r Ht Hi Hq).
    rewrite (elem_of_get_queryset _ _ _ _ _ _ r Ht' Hi' Hq').
    rewrite (passes_same_ids _ _ _ r Hst), (passes_same_ids _ _ _ r Hsi).
    done.
Qed.

(** X8: the two filters compose by intersection and only narrow: the
    rows for a query string with both parameters are the rows that the
    tags parameter alone and the ingredients parameter alone both give,
    and each of these is among the rows that no parameter gives. *)
Theorem get_queryset_filters_intersect db u qp tag_ids ing_ids :
  param_ids (qp !! "tags") = inr tag_ids →
  param_ids (qp !! "ingredients") = inr ing_ids →
  ∃ both by_tags by_ingredients all,
    RecipeViewSet.get_queryset db u qp = inr both
    ∧ RecipeViewSet.get_queryset db u (delete "ingredients" qp) = inr by_tags
    ∧ RecipeViewSet.get_queryset db u (delete "tags" qp) = inr by_ingredients
    ∧ RecipeViewSet.get_queryset db u ∅ = inr all
    ∧ (∀ r, r ∈ both ↔ r ∈ by_tags ∧ r ∈ by_ingredients)
    ∧ by_tags ⊆ all ∧ by_ingredients ⊆ all.
Proof.
  intros Ht Hi.
  assert (param_ids (delete "ingredients" qp !! "tags") = inr tag_ids) as Ht1
    by (by rewrite lookup_delete_ne).
  assert (param_ids (delete "ingredients" qp !! "ingredients") = inr None)
    as Hi1 by (by rewrite lookup_delete_eq).
  assert (param_ids (delete "tags" qp !! "tags") = inr None) as Ht2
    by (by rewrite lookup_delete_eq).
  assert (param_ids (delete "tags" qp !! "ingredients") = inr ing_ids) as Hi2
    by (by rewrite lookup_delete_ne).
  assert (param_ids ((∅ : gmap string string) !! "tags") = inr None) as Ht0
    by done.
  assert (param_ids ((∅ : gmap string string) !! "ingredients") = inr None)
    as Hi0 by done.
  pose proof (get_queryset_inr db u _ _ _ Ht Hi) as Hq.
  pose proof (get_queryset_inr db u _ _ _ Ht1 Hi1) as Hq1.
  pose proof (get_queryset_inr db u _ _ _ Ht2 Hi2) as Hq2.
  pose proof (get_queryset_inr db u _ _ _ Ht0 Hi0) as Hq0.
  eexists _, _, _, _.
  split; [exact Hq|]. split; [exact Hq1|]. split; [exact Hq2|].
  split; [exact Hq0|]. split; [|split].
  - intros r.
    rewrite (elem_of_get_queryset _ _ _ _ _ _ r Ht Hi Hq).
    rewrite (elem_of_get_queryset _ _ _ _ _ _ r Ht1 Hi1 Hq1).
    rewrite (elem_of_get_queryset _ _ _ _ _ _ r Ht2 Hi2 Hq2).
    simpl. tauto.
  - intros r.
    rewrite (elem_of_get_queryset _ _ _ _ _ _ r Ht1 Hi1 Hq1).
    rewrite (elem_of_get_queryset _ _ _ _ _ _ r Ht0 Hi0 Hq0).
    simpl. tauto.
  - intros r.
    rewrite (elem_of_get_queryset _ _ _ _ _ _ r Ht2 Hi2 Hq2).
    rewrite (elem_of_get_queryset _ _ _ _ _ _ r Ht0 Hi0 Hq0).
    simpl. tauto.
Qed.

Lemma get_object_or_404_inl {A} (pk_of : A → Z) (table qs : list A) pk e :
  NoDup (pk_of <$> table) → qs ⊆ table → NoDup qs →
  get_object_or_404 pk_of qs pk = inl e → e = Http404.
Proof.
  intros Hpk Hsub Hnd. unfold get_object_or_404, ORM.get_pk.
  destruct (filter (λ x, pk_of x = pk) qs) as [|y [|z l]] eqn:Hf;
    result_simpl; try done; [by intros [= <-]|].
  intros _. exfalso.
  assert (NoDup (y :: z :: l)) as Hnd' by (rewrite <- Hf; by apply NoDup_filter).
  assert (∀ x, x ∈ y :: z :: l → x ∈ qs ∧ pk_of x = pk) as Hin.
  { intros x Hx. rewrite <- Hf in Hx. apply list_elem_of_filter in Hx. tauto. }
  destruct (Hin y ltac:(by left)) as [Hy Hy'].
  destruct (Hin z ltac:(right; by left)) as [Hz Hz'].
  assert (y = z) as -> by (apply (pk_inj pk_of table); auto; congruence).
  apply NoDup_cons in Hnd' as [Hnot _]. apply Hnot. by left.
Qed.

(** X9: whatever a detail action of the recipe or of a tag or ingredient
    viewset gets from [get_object] is a row of the table that has the
    requested key and is owned by the requesting user; over a table with a
    primary key the lookup raises nothing but [Http404] and the
    [ValueError] of a malformed parameter. *)
Theorem get_object_returns_own_row db u request pk :
  (∀ r, RecipeViewSet.get_object db u request pk = inr r →
        r ∈ recipes db ∧ r_id r = pk ∧ r_user r = u)
  ∧ (∀ k l, BaseRecipeAttrViewSet.get_object k db u request pk = inr l →
            l ∈ labels k db ∧ l_id l = pk ∧ l_user l = u)
  ∧ (∀ e, NoDup (r_id <$> recipes db) →
          RecipeViewSet.get_object db u request pk = inl e →
          e = Http404 ∨ e = ValueError)
  ∧ (∀ k e, NoDup (l_id <$> labels k db) →
            BaseRecipeAttrViewSet.get_object k db u request pk = inl e →
            e = Http404 ∨ e = ValueError).
Proof.
  split; [|split; [|split]].
  - intros r. unfold RecipeViewSet.get_object.
    destruct (RecipeViewSet.get_queryset _ _ _) as [|rows] eqn:Hq;
      result_simpl; [done|].
    intros [Hin Hid]%get_object_or_404_inr.
    apply (get_queryset_subseteq _ _ _ _ Hq) in Hin.
    apply list_elem_of_filter in Hin. tauto.
  - intros k l. unfold BaseRecipeAttrViewSet.get_object.
    destruct (BaseRecipeAttrViewSet.get_queryset _ _ _ _) as [|rows] eqn:Hq;
      result_simpl; [done|].
    intros [Hin Hid]%get_object_or_404_inr.
    unfold BaseRecipeAttrViewSet.get_queryset in Hq.
    destruct (BaseRecipeAttrViewSet.is_assigned_only _) as [|flag] eqn:Hf;
      [done|].
    apply (elem_of_label_get_queryset k db u _ flag rows l Hf) in Hin;
      [tauto|].
    unfold BaseRecipeAttrViewSet.get_queryset. by rewrite Hf.
  - intros e Hpk. unfold RecipeViewSet.get_object.
    destruct (get_queryset_cases db u (query_params request))
      as [(t & i & Ht & Hi)|Hraise].
    + pose proof (get_queryset_inr db u _ _ _ Ht Hi) as Hq. rewrite Hq.
      result_simpl. intros He. left.
      eapply (get_object_or_404_inl r_id (recipes db)); [done| | |exact He].
      * intros r Hin. apply (get_queryset_subseteq _ _ _ _ Hq) in Hin.
        apply list_elem_of_filter in Hin. tauto.
      * apply NoDup_distinct.
    + rewrite Hraise. result_simpl. intros [= <-]. by right.
  - intros k e Hpk. unfold BaseRecipeAttrViewSet.get_object.
    destruct (BaseRecipeAttrViewSet.is_assigned_only (query_params request))
      as [e'|flag] eqn:Hf.
    + unfold BaseRecipeAttrViewSet.get_queryset. rewrite Hf. result_simpl.
      intros [= <-]. right. by eapply is_assigned_only_inl.
    + pose proof (label_get_queryset_inr k db u _ _ Hf) as Hq. rewrite Hq.
      result_simpl. intros He. left.
      eapply (get_object_or_404_inl l_id (labels k db)); [done| | |exact He].
      * intros l Hin.
        apply (elem_of_label_get_queryset k db u _ flag _ l Hf Hq) in Hin.
        tauto.
      * apply NoDup_distinct.
Qed.

End QuerysetFacts.

(** ** The assigned_only parameter *)

Section AssignedOnly.
Context (k : Kind).

Lemma label_get_object_hidden db u request pk flag :
  BaseRecipeAttrViewSet.is_assigned_only (query_params request) = inr flag →
  (∀ l, l ∈ labels k db → l_id l = pk →
        ¬ (l_user l = u
           ∧ (flag = true → ∃ rid, (rid, l_id l) ∈ through k db))) →
  BaseRecipeAttrViewSet.get_object k db u request pk = inl Http404.
Proof.
  intros Hf Hno. unfold BaseRecipeAttrViewSet.get_object.
  pose proof (label_get_queryset_inr k db u _ _ Hf) as Hq. rewrite Hq.
  result_simpl. apply get_object_or_404_missing.
  intros l Hl Hpk.
  apply (elem_of_label_get_queryset _ _ _ _ _ _ _ Hf Hq) in Hl.
  apply (Hno l); tauto.
Qed.

Lemma label_get_object_found db u request pk flag l :
  NoDup (l_id <$> labels k db) →
  BaseRecipeAttrViewSet.is_assigned_only (query_params request) = inr flag →
  l ∈ labels k db → l_id l = pk → l_user l = u →
  (flag = true → ∃ rid, (rid, l_id l) ∈ through k db) →
  BaseRecipeAttrViewSet.get_object k db u request pk = inr l.
Proof.
  intros Hpk Hf Hl Hid Hu Hlink. unfold BaseRecipeAttrViewSet.get_object.
  pose proof (label_get_queryset_inr k db u _ _ Hf) as Hq. rewrite Hq.
  result_simpl. apply get_object_or_404_found.
  - apply NoDup_distinct.
  - by apply (elem_of_label_get_queryset _ _ _ _ _ _ _ Hf Hq).
  - done.
  - intros y Hy Hy'.
    apply (elem_of_label_get_queryset _ _ _ _ _ _ _ Hf Hq) in Hy.
    apply (pk_inj l_id (labels k db)); [done|tauto|done|congruence].
Qed.

(** X10: a tag or ingredient request whose [assigned_only] parameter is
    not an integer literal ends in an uncaught [ValueError] with nothing
    written, on every action that evaluates the queryset (list, update,
    partial update, destroy).  Unlike an empty tags parameter, an empty
    [assigned_only] is not skipped: it raises too. *)
Theorem malformed_assigned_only_raises db request u s :
  user request = Some u →
  query_params request !! "assigned_only" = Some s →
  Py.int_literal s = None →
  label_evaluates_queryset request →
  BaseRecipeAttrViewSet.dispatch k db request = (db, inl ValueError)
  ∧ Py.int_literal "" = None.
Proof.
  intros Hu Hs Hnone Hact. split; [|done].
  assert (BaseRecipeAttrViewSet.get_queryset k db u (query_params request)
          = inl ValueError) as Hraise.
  { unfold BaseRecipeAttrViewSet.get_queryset,
      BaseRecipeAttrViewSet.is_assigned_only, Py.int.
    by rewrite Hs, Hnone. }
  destruct Hact as [[Hr Hm]|[pk Hact]].
  - by rewrite (dispatch_label_list _ _ _ _ Hm Hr Hu), Hraise.
  - rewrite (label_dispatch_lookup_raises _ _ _ u pk ValueError); [done..|].
    unfold BaseRecipeAttrViewSet.get_object. by rewrite Hraise.
Qed.

(** X11: the [assigned_only] flag is applied on every action, not only on
    list: an update, partial update or destroy of the requesting user's
    own tag or ingredient that no recipe is linked to is answered 404,
    with nothing written, when the request carries a non-zero
    [assigned_only]; without the parameter the same lookup finds the
    label. *)
Theorem assigned_only_applies_to_detail_actions db request u pk l :
  user request = Some u → label_detail_action request pk →
  NoDup (l_id <$> labels k db) →
  l ∈ labels k db → l_user l = u → l_id l = pk →
  BaseRecipeAttrViewSet.is_assigned_only (query_params request) = inr true →
  (∀ rid, (rid, pk) ∉ through k db) →
  BaseRecipeAttrViewSet.dispatch k db request = (db, inr not_found)
  ∧ BaseRecipeAttrViewSet.get_object k db u (with_query_params ∅ request) pk
    = inr l.
Proof.
  intros Hu Hact Hpk Hl Hown Hid Hf Hno. split.
  - rewrite (label_dispatch_lookup_raises _ _ _ u pk Http404); [done..|].
    apply (label_get_object_hidden _ _ _ _ true); [done|].
    intros l' Hl' Hid' [_ Hlink]. destruct (Hlink eq_refl) as [rid Hrid].
    apply (Hno rid). by rewrite <- Hid'.
  - by apply (label_get_object_found _ _ _ _ false).
Qed.

End AssignedOnly.

(** ** What requests write *)

Section Writes.
Context (decodable : string → bool).

(** X12: a GET writes nothing, on the recipe, tag and ingredient
    endpoints alike, whatever its route, user, parameters and outcome. *)
Theorem get_requests_write_nothing db request :
  method request = GET →
  (RecipeViewSet.dispatch decodable db request).1 = db
  ∧ ∀ k, (BaseRecipeAttrViewSet.dispatch k db request).1 = db.
Proof.
  intros Hm. split.
  - unfold RecipeViewSet.dispatch, RecipeViewSet.handler. rewrite Hm.
    destruct (user request) as [u|]; [|done].
    destruct (route request) as [|pk|pk]; simpl.
    + unfold RecipeViewSet.list_.
      by destruct (RecipeViewSet.get_queryset _ _ _).
    + unfold RecipeViewSet.retrieve.
      by destruct (RecipeViewSet.get_object _ _ _ _).
    + done.
  - intros k.
    unfold BaseRecipeAttrViewSet.dispatch, BaseRecipeAttrViewSet.handler.
    rewrite Hm.
    destruct (route request) as [|pk|pk], (user request) as [u|]; simpl;
      try done.
    unfold BaseRecipeAttrViewSet.list_.
    by destruct (BaseRecipeAttrViewSet.get_queryset _ _ _ _).
Qed.

Lemma image_save_recipes uuid instance d db :
  let saved := (serializer.image_save uuid instance d db).2 in
  (recipes (serializer.image_save uuid instance d db).1
   = map (λ r0, if decide (r_id r0 = r_id instance) then saved else r0)
       (recipes db)
   ∨ (serializer.image_save uuid instance d db).1 = db)
  ∧ recipe_seq (serializer.image_save uuid instance d db).1 = recipe_seq db
  ∧ r_id saved = r_id instance ∧ r_user saved = r_user instance.
Proof.
  unfold serializer.image_save.
  destruct (d_image d) as [[?|name content]|]; cbn [fst snd]; auto.
Qed.

Lemma delete_recipe_recipes r db :
  recipes (delete_recipe r db) = filter (λ r0, r_id r0 ≠ r_id r) (recipes db)
  ∧ recipe_seq (delete_recipe r db) = recipe_seq db.
Proof. unfold delete_recipe. by destruct db. Qed.

(** Replacing the row of a key by a row of the same owner leaves the rows
    of other owners as they are. *)
Lemma replace_row_others (table : list Recipe) old new u r :
  NoDup (r_id <$> table) → old ∈ table → r_user old = u → r_user new = u →
  r_user r ≠ u →
  r ∈ map (λ r0, if decide (r_id r0 = r_id old) then new else r0) table
  ↔ r ∈ table.
Proof.
  intros Hpk Hold Hu Hnew Hr.
  change (map ?f table) with (f <$> table). rewrite list_elem_of_fmap. split.
  - intros (r0 & -> & Hr0). case_decide; [congruence|done].
  - intros Hin. exists r. split; [|done].
    rewrite decide_False; [done|]. intros Heq.
    assert (r = old) as -> by (by apply (pk_inj r_id table)). done.
Qed.

(** X13: no request to the recipe endpoint changes the recipes of
    another user: over a table with a primary key, the rows owned by
    anyone but the requesting user are the same before and after, whether
    the request lists, creates, updates, destroys or uploads an image, and
    whatever key it names. *)
Theorem recipe_writes_stay_with_owner db request u r :
  NoDup (r_id <$> recipes db) →
  user request = Some u → r_user r ≠ u →
  r ∈ recipes (RecipeViewSet.dispatch decodable db request).1
  ↔ r ∈ recipes db.
Proof.
  intros Hpk Hu Hr.
  assert (∀ pk instance,
            RecipeViewSet.get_object db u request pk = inr instance →
            instance ∈ recipes db ∧ r_id instance = pk ∧ r_user instance = u)
    as Hobj.
  { intros pk instance Hg. unfold RecipeViewSet.get_object in Hg.
    destruct (RecipeViewSet.get_queryset _ _ _) as [|rows] eqn:Hq;
      result_simpl; [done|].
    apply get_object_or_404_inr in Hg as [Hin Hid].
    apply (get_queryset_subseteq _ _ _ _ Hq) in Hin.
    apply list_elem_of_filter in Hin. tauto. }
  assert (∀ partial pk,
            r ∈ recipes (RecipeViewSet.update partial db u request pk).1
            ↔ r ∈ recipes db) as Hupdate.
  { intros partial pk. unfold RecipeViewSet.update.
    destruct (RecipeViewSet.get_object db u request pk) as [e|instance] eqn:Hg;
      [done|].
    destruct (Hobj pk instance Hg) as (Hin & Hid & Hown).
    destruct (serializer.is_valid partial (data request)); [|done].
    destruct (update_recipes u instance (data request) db)
      as (Hrows & _ & _ & Hown').
    destruct (serializer.update u instance (data request) db)
      as [db' recipe]. cbn [fst snd ok] in *. rewrite Hrows.
    apply (replace_row_others _ _ _ u); auto. congruence. }
  unfold RecipeViewSet.dispatch, RecipeViewSet.handler. rewrite Hu.
  destruct (route request) as [|pk|pk], (method request); cbn [fst];
    try done.
  - unfold RecipeViewSet.list_.
    by destruct (RecipeViewSet.get_queryset _ _ _).
  - unfold RecipeViewSet.create, RecipeViewSet.perform_create.
    destruct (serializer.is_valid false (data request)); [|done].
    destruct (create_recipes u (data request) db) as (Hrows & _ & _ & Hown).
    destruct (serializer.create u (data request) db) as [db' recipe].
    cbn [fst snd ok] in *.
    rewrite Hrows, elem_of_app, list_elem_of_singleton.
    split; [|by left]. intros [?| ->]; [done|]. done.
  - unfold RecipeViewSet.retrieve.
    by destruct (RecipeViewSet.get_object _ _ _ _).
  - specialize (Hupdate false pk).
    by destruct (RecipeViewSet.update false db u request pk).
  - specialize (Hupdate true pk).
    by destruct (RecipeViewSet.update true db u request pk).
  - unfold RecipeViewSet.destroy.
    destruct (RecipeViewSet.get_object db u request pk) as [e|instance] eqn:Hg;
      [done|].
    destruct (Hobj pk instance Hg) as (Hin & Hid & Hown).
    cbn [fst ok]. destruct (delete_recipe_recipes instance db) as [-> _].
    rewrite list_elem_of_filter. split; [tauto|]. intros Hrin.
    split; [|done]. intros Heq.
    assert (r = instance) as -> by (by apply (pk_inj r_id (recipes db))).
    done.
  - unfold RecipeViewSet.upload_image.
    destruct (RecipeViewSet.get_object db u request pk) as [e|instance] eqn:Hg;
      [done|].
    destruct (Hobj pk instance Hg) as (Hin & Hid & Hown).
    destruct (serializer.image_is_valid decodable (data request)); [|done].
    destruct (image_save_recipes (uuid request) instance (data request) db)
      as (Hrows & _ & _ & Hown').
    destruct (serializer.image_save (uuid request) instance (data request) db)
      as [db' recipe]. cbn [fst snd ok] in *.
    destruct Hrows as [-> | ->]; [|done].
    apply (replace_row_others _ _ _ u); auto. congruence.
Qed.

End Writes.

(** ** How requests compose *)

Section Compose.
Context (decodable : string → bool).

Lemma StronglySorted_filter {A} (R : relation A) (P : A → Prop)
    `{∀ x, Decision (P x)} (l : list A) :
  StronglySorted R l → StronglySorted R (filter P l).
Proof.
  induction 1 as [|x l Hl IH Hx]; [constructor|].
  rewrite filter_cons. case_decide; [|done].
  constructor; [done|]. rewrite Forall_forall in Hx |- *.
  intros y Hy. apply Hx. by apply list_elem_of_filter in Hy as [_ ?].
Qed.

Lemma delete_recipe_through k r db :
  through k (delete_recipe r db)
  = filter (λ link, link.1 ≠ r_id r) (through k db).
Proof. unfold delete_recipe. by destruct k, db. Qed.

(** Links of other recipes do not matter to whether a recipe passes. *)
Lemma passes_agree th th' ids r :
  (∀ t, (r_id r, t) ∈ th ↔ (r_id r, t) ∈ th') →
  passes th ids r ↔ passes th' ids r.
Proof.
  intros Hth. destruct ids as [ids|]; simpl; [|done].
  unfold has_one_of. split; intros (t & Ht & Hl); exists t;
    (split; [done|by apply Hth]).
Qed.

(** Two states whose tables agree on the rows and links that a user's
    queryset can see give that user the same queryset. *)
Lemma get_queryset_agree db db' u (P : Recipe → Prop) `{∀ r, Decision (P r)}
    qp rows :
  NoDup (r_id <$> recipes db') →
  (∀ r, r_user r = u → r ∈ recipes db' ↔ r ∈ recipes db ∧ P r) →
  (∀ r t, r ∈ recipes db' → r_user r = u →
          ((r_id r, t) ∈ recipe_tags db' ↔ (r_id r, t) ∈ recipe_tags db)
          ∧ ((r_id r, t) ∈ recipe_ingredients db'
             ↔ (r_id r, t) ∈ recipe_ingredients db)) →
  RecipeViewSet.get_queryset db u qp = inr rows →
  RecipeViewSet.get_queryset db' u qp = inr (filter P rows).
Proof.
  intros Hpk Hrows Hlinks Hq.
  destruct (get_queryset_cases db u qp) as [(t & i & Ht & Hi)|Hraise];
    [|by rewrite Hraise in Hq].
  pose proof (get_queryset_inr db' u qp _ _ Ht Hi) as Hq'.
  rewrite Hq'. f_equal.
  apply (sorted_rows_unique (recipes db')).
  - done.
  - intros r Hin. apply (get_queryset_subseteq _ _ _ _ Hq') in Hin.
    apply list_elem_of_filter in Hin. tauto.
  - exact (get_queryset_NoDup _ _ _ _ Hq').
  - apply NoDup_filter. exact (get_queryset_NoDup _ _ _ _ Hq).
  - exact (get_queryset_sorted _ _ _ _ Hq').
  - apply StronglySorted_filter. exact (get_queryset_sorted _ _ _ _ Hq).
  - intros r. rewrite list_elem_of_filter.
    rewrite (elem_of_get_queryset _ _ _ _ _ _ r Ht Hi Hq').
    rewrite (elem_of_get_queryset _ _ _ _ _ _ r Ht Hi Hq).
    split.
    + intros (Hin & Hu & Hpt & Hpi).
      destruct (proj1 (Hrows r Hu) Hin) as [Hin0 HP].
      split; [done|]. split; [done|]. split; [done|]. split.
      * eapply passes_agree; [|exact Hpt]. intros t0.
        symmetry. by apply Hlinks.
      * eapply passes_agree; [|exact Hpi]. intros t0.
        symmetry. by apply Hlinks.
    + intros (HP & Hin & Hu & Hpt & Hpi).
      assert (r ∈ recipes db') as Hin' by (by apply Hrows).
      split; [done|]. split; [done|]. split.
      * eapply passes_agree; [|exact Hpt]. intros t0. by apply Hlinks.
      * eapply passes_agree; [|exact Hpi]. intros t0. by apply Hlinks.
Qed.

Lemma NoDup_ids_filter (P : Recipe → Prop) `{∀ r, Decision (P r)}
    (table : list Recipe) :
  NoDup (r_id <$> table) → NoDup (r_id <$> filter P table).
Proof.
  intros Hpk. apply NoDup_fmap_2_strong.
  - intros x y Hx Hy. apply list_elem_of_filter in Hx as [_ Hx].
    apply list_elem_of_filter in Hy as [_ Hy].
    by apply (pk_inj r_id table).
  - apply NoDup_filter. by eapply NoDup_fmap_1.
Qed.

(** X14: a destroy that finds its recipe is answered 204 and removes that
    row and its links, nothing else: afterwards no row and no link has
    the key, while the users, the tags, the ingredients, the tokens, the
    media store and the id sequences are what they were; every queryset,
    of any user and with any parameters, is the one before without that
    row, and a lookup of the key ends in [Http404]. *)
Theorem destroy_removes_the_recipe db request u pk instance :
  NoDup (r_id <$> recipes db) →
  user request = Some u →
  method request = DELETE → route request = DetailRoute pk →
  RecipeViewSet.get_object db u request pk = inr instance →
  ∃ db',
    RecipeViewSet.dispatch decodable db request
    = (db', inr (mkResponse HTTP_204_NO_CONTENT NoBody))
    ∧ (∀ r, r ∈ recipes db' ↔ r ∈ recipes db ∧ r_id r ≠ pk)
    ∧ (∀ k link, link ∈ through k db' ↔ link ∈ through k db ∧ link.1 ≠ pk)
    ∧ (users db' = users db ∧ (∀ k, labels k db' = labels k db)
       ∧ tokens db' = tokens db ∧ media db' = media db
       ∧ user_seq db' = user_seq db ∧ recipe_seq db' = recipe_seq db
       ∧ ∀ k, label_seq k db' = label_seq k db)
    ∧ (∀ u' qp rows,
         RecipeViewSet.get_queryset db u' qp = inr rows →
         RecipeViewSet.get_queryset db' u' qp
         = inr (filter (λ r, r_id r ≠ pk) rows))
    ∧ (∀ u' request' tag_ids ing_ids,
         param_ids (query_params request' !! "tags") = inr tag_ids →
         param_ids (query_params request' !! "ingredients") = inr ing_ids →
         RecipeViewSet.get_object db' u' request' pk = inl Http404).
Proof.
  intros Hpk Hu Hm Hr Hobj.
  destruct (recipe_get_object_inr _ _ _ _ _ Hobj) as (Hin & Hid & Hown).
  unfold RecipeViewSet.dispatch, RecipeViewSet.handler.
  rewrite Hu, Hm, Hr. unfold RecipeViewSet.destroy. rewrite Hobj.
  cbn [ok handle_exception]. eexists. split; [done|].
  destruct (delete_recipe_recipes instance db) as [Hrows _].
  assert (∀ r, r ∈ recipes (delete_recipe instance db)
               ↔ r ∈ recipes db ∧ r_id r ≠ pk) as Hrows'.
  { intros r. rewrite Hrows, list_elem_of_filter, Hid. tauto. }
  assert (∀ k link, link ∈ through k (delete_recipe instance db)
                    ↔ link ∈ through k db ∧ link.1 ≠ pk) as Hlinks.
  { intros k link. rewrite delete_recipe_through, list_elem_of_filter, Hid.
    tauto. }
  split; [done|]. split; [done|]. split.
  { unfold delete_recipe. destruct db. cbn.
    repeat split; try done; by intros []. }
  split.
  - intros u' qp rows Hq.
    apply (get_queryset_agree db _ u' (λ r, r_id r ≠ pk)); [| | |done].
    + rewrite Hrows. by apply NoDup_ids_filter.
    + intros r _. apply Hrows'.
    + intros r t Hr' _. apply Hrows' in Hr' as [_ Hne].
      split.
      * rewrite (Hlinks TagKind (r_id r, t)). simpl. tauto.
      * rewrite (Hlinks IngredientKind (r_id r, t)). simpl. tauto.
  - intros u' request' tag_ids ing_ids Ht Hi.
    apply (recipe_get_object_404 _ _ _ _ tag_ids ing_ids); [done..|].
    intros r Hr' Hid'. apply Hrows' in Hr' as [_ Hne]. done.
Qed.

Lemma create_through k u d db link :
  (link ∈ through k db → link ∈ through k (serializer.create u d db).1)
  ∧ (link ∈ through k (serializer.create u d db).1 →
     link ∈ through k db ∨ link.1 = recipe_seq db).
Proof.
  unfold serializer.create, insert_recipe. cbn [fst snd r_id].
  match goal with
  | |- context [serializer._get_or_create_labels TagKind u ?ms ?rid ?d0] =>
      set (tag_names := ms); set (db0 := d0);
      set (db1 := serializer._get_or_create_labels TagKind u tag_names
                    rid db0)
  end.
  match goal with
  | |- context [serializer._get_or_create_labels IngredientKind u ?ns _ db1] =>
      set (ing_names := ns)
  end.
  assert (through k db0 = through k db) as H0 by (by destruct k, db).
  destruct k.
  - destruct (get_or_create_labels_other TagKind IngredientKind u ing_names
                (recipe_seq db) db1) as (_ & -> & _); [done|].
    destruct (get_or_create_labels_spec TagKind u tag_names (recipe_seq db)
                db0) as (created & _ & _ & _ & Hsub & Hnew & _).
    fold db1 in Hsub, Hnew. rewrite H0 in Hsub, Hnew. split; [apply Hsub|].
    intros Hin. apply Hnew in Hin as [?|(l & _ & -> & _)]; auto.
  - destruct (get_or_create_labels_other IngredientKind TagKind u tag_names
                (recipe_seq db) db0) as (_ & H1 & _); [done|].
    fold db1 in H1.
    destruct (get_or_create_labels_spec IngredientKind u ing_names
                (recipe_seq db) db1) as (created & _ & _ & _ & Hsub & Hnew & _).
    rewrite H1, H0 in Hsub, Hnew. split; [apply Hsub|].
    intros Hin. apply Hnew in Hin as [?|(l & _ & -> & _)]; auto.
Qed.

(** X15: after a create that is answered 201, the new recipe is the first
    row of its owner's unfiltered list, followed by the rows the list had
    before; the querysets of every other user, with any parameters, are
    what they were. *)
Theorem create_then_list db request u :
  recipes_ok db → user request = Some u →
  method request = POST → route request = ListRoute →
  serializer.is_valid false (data request) = true →
  ∃ db' new,
    RecipeViewSet.dispatch decodable db request
    = (db', inr (mkResponse HTTP_201_CREATED (RecipeRow new)))
    ∧ (∀ rows,
         RecipeViewSet.get_queryset db u ∅ = inr rows →
         RecipeViewSet.get_queryset db' u ∅ = inr (new :: rows))
    ∧ (∀ u' qp,
         u' ≠ u →
         RecipeViewSet.get_queryset db' u' qp
         = RecipeViewSet.get_queryset db u' qp).
Proof.
  intros Hok Hu Hm Hr Hvalid.
  unfold RecipeViewSet.dispatch, RecipeViewSet.handler.
  rewrite Hu, Hm, Hr. unfold RecipeViewSet.create. rewrite Hvalid.
  unfold RecipeViewSet.perform_create.
  destruct (create_recipes u (data request) db) as (Hrows & _ & Hid & Hown).
  pose proof (create_recipes_ok u (data request) db Hok) as Hok'.
  pose proof (λ k link, create_through k u (data request) db link) as Hth.
  destruct (serializer.create u (data request) db) as [db' new].
  cbn [fst snd ok handle_exception] in *.
  exists db', new. split; [done|].
  assert (∀ old, old ∈ recipes db → r_id old < r_id new) as Hfresh.
  { intros old Hold. rewrite Hid. by apply Hok. }
  split.
  - intros rows Hq.
    assert (param_ids ((∅ : gmap string string) !! "tags") = inr None) as Ht
      by done.
    assert (param_ids ((∅ : gmap string string) !! "ingredients") = inr None)
      as Hi by done.
    pose proof (get_queryset_inr db' u ∅ _ _ Ht Hi) as Hq'.
    rewrite Hq'. f_equal.
    assert (∀ r, r ∈ rows ↔ r ∈ recipes db ∧ r_user r = u) as Hrows0.
    { intros r. rewrite (elem_of_get_queryset _ _ _ _ _ _ r Ht Hi Hq).
      simpl. tauto. }
    apply (sorted_rows_unique (recipes db')).
    + apply Hok'.
    + intros r Hin. apply (get_queryset_subseteq _ _ _ _ Hq') in Hin.
      apply list_elem_of_filter in Hin. tauto.
    + exact (get_queryset_NoDup _ _ _ _ Hq').
    + apply NoDup_cons. split; [|exact (get_queryset_NoDup _ _ _ _ Hq)].
      intros Hin. apply Hrows0 in Hin as [Hin _]. apply Hfresh in Hin. lia.
    + exact (get_queryset_sorted _ _ _ _ Hq').
    + constructor; [exact (get_queryset_sorted _ _ _ _ Hq)|].
      apply Forall_forall. intros r Hin. apply Hrows0 in Hin as [Hin _].
      apply Hfresh in Hin. unfold ORM.id_desc. lia.
    + intros r. rewrite (elem_of_get_queryset _ _ _ _ _ _ r Ht Hi Hq').
      rewrite elem_of_cons, Hrows0, Hrows, elem_of_app,
        list_elem_of_singleton. simpl.
      split; [intros ([?| ->] & ? & _); tauto|].
      intros [->|[? ?]]; tauto.
  - intros u' qp Hne.
    destruct (RecipeViewSet.get_queryset db u' qp) as [e|rows] eqn:Hq.
    + destruct (get_queryset_cases db' u' qp) as [(t & i & Ht & Hi)|Hraise].
      * by rewrite (get_queryset_inr db u' qp _ _ Ht Hi) in Hq.
      * destruct (get_queryset_cases db u' qp) as [(t & i & Ht & Hi)|Hraise'].
        -- by rewrite (get_queryset_inr db u' qp _ _ Ht Hi) in Hq.
        -- congruence.
    + rewrite (get_queryset_agree db db' u' (λ _, True) qp rows).
      * f_equal. clear Hq. induction rows as [|r rows IH]; [done|].
        rewrite filter_cons, decide_True by done. by f_equal.
      * apply Hok'.
      * intros r Hr'. rewrite Hrows, elem_of_app, list_elem_of_singleton.
        split; [intros [?| ->]; [done|congruence]|]. intros [? _]. by left.
      * intros r t Hin Hr'.
        assert (r ∈ recipes db) as Hin0.
        { rewrite Hrows, elem_of_app, list_elem_of_singleton in Hin.
          destruct Hin as [?| ->]; [done|congruence]. }
        apply Hfresh in Hin0. rewrite Hid in Hin0.
        split.
        -- destruct (Hth TagKind (r_id r, t)) as [H1 H2]. split; [|done].
           intros Hl. apply H2 in Hl as [?|Hl]; [done|]. simpl in Hl. lia.
        -- destruct (Hth IngredientKind (r_id r, t)) as [H1 H2].
           split; [|done].
           intros Hl. apply H2 in Hl as [?|Hl]; [done|]. simpl in Hl. lia.
      * done.
Qed.

End Compose.

(** ** The tag and ingredient endpoints: what a write may touch *)

Section LabelWrites.
Context (k : Kind).

Lemma label_get_object_inr db u request pk l :
  BaseRecipeAttrViewSet.get_object k db u request pk = inr l →
  l ∈ labels k db ∧ l_id l = pk ∧ l_user l = u.
Proof.
  unfold BaseRecipeAttrViewSet.get_object.
  destruct (BaseRecipeAttrViewSet.get_queryset k db u (query_params request))
    as [|rows] eqn:Hq; result_simpl; [done|].
  intros [Hin Hid]%get_object_or_404_inr.
  destruct (BaseRecipeAttrViewSet.is_assigned_only (query_params request))
    as [e|flag] eqn:Hf.
  - unfold BaseRecipeAttrViewSet.get_queryset in Hq. rewrite Hf in Hq.
    by result_simpl.
  - apply (elem_of_label_get_queryset _ _ _ _ _ _ _ Hf Hq) in Hin. tauto.
Qed.

Lemma labels_set_labels v db : labels k (set_labels k v db) = v.
Proof. by destruct k. Qed.

Lemma labels_set_through k' v db :
  labels k (set_through k' v db) = labels k db.
Proof. by destruct k, k'. Qed.

Lemma through_set_through v db : through k (set_through k v db) = v.
Proof. by destruct k. Qed.

Lemma recipes_set_labels v db : recipes (set_labels k v db) = recipes db.
Proof. by destruct k. Qed.

Lemma recipes_set_through v db : recipes (set_through k v db) = recipes db.
Proof. by destruct k. Qed.


(** X17: a destroy that finds its tag or ingredient is answered 204 and
    removes that row and the links to it, nothing else: the other labels
    and links of the table stay, and the recipes, the labels and links
    of the other kind, the users, the tokens, the media store and the id
    sequences are what they were; the same key is then not found by any
    user, with or without [assigned_only]. *)
Theorem destroy_removes_the_label db request u pk instance :
  NoDup (l_id <$> labels k db) →
  user request = Some u →
  method request = DELETE → route request = DetailRoute pk →
  BaseRecipeAttrViewSet.get_object k db u request pk = inr instance →
  ∃ db',
    BaseRecipeAttrViewSet.dispatch k db request
    = (db', inr (mkResponse HTTP_204_NO_CONTENT NoBody))
    ∧ recipes db' = recipes db
    ∧ (∀ l, l ∈ labels k db' ↔ l ∈ labels k db ∧ l ≠ instance)
    ∧ (∀ link, link ∈ through k db' ↔ link ∈ through k db ∧ link.2 ≠ pk)
    ∧ ((∀ k', k' ≠ k →
          labels k' db' = labels k' db ∧ through k' db' = through k' db)
       ∧ users db' = users db ∧ tokens db' = tokens db
       ∧ media db' = media db
       ∧ user_seq db' = user_seq db ∧ recipe_seq db' = recipe_seq db
       ∧ ∀ k', label_seq k' db' = label_seq k' db)
    ∧ (∀ u' request' flag,
         BaseRecipeAttrViewSet.is_assigned_only (query_params request')
         = inr flag →
         BaseRecipeAttrViewSet.get_object k db' u' request' pk
         = inl Http404).
Proof.
  intros Hpk Hu Hm Hr Hg.
  unfold BaseRecipeAttrViewSet.dispatch, BaseRecipeAttrViewSet.handler.
  rewrite Hu, Hm, Hr. unfold BaseRecipeAttrViewSet.destroy. rewrite Hg.
  apply label_get_object_inr in Hg as (Hin & Hid & Hown).
  cbn [fst snd ok handle_exception].
  exists (delete_label k instance db). split; [done|].
  unfold delete_label.
  assert (∀ l, l ∈ filter (λ l0, l_id l0 ≠ l_id instance) (labels k db)
               ↔ l ∈ labels k db ∧ l ≠ instance) as Hrows.
  { intros l. rewrite list_elem_of_filter. split.
    - intros [Hne ?]. split; [done|]. by intros ->.
    - intros [Hl Hne]. split; [|done]. intros Heq. apply Hne.
      by apply (pk_inj l_id (labels k db)). }
  split; [by rewrite recipes_set_through, recipes_set_labels|].
  split; [intros l; by rewrite labels_set_through, labels_set_labels|].
  split.
  { intros link. rewrite through_set_through, list_elem_of_filter, Hid.
    tauto. }
  split.
  { split; [intros k' Hk'; by destruct k, k', db|].
    do 5 (split; [by destruct k, db|]). intros k'. by destruct k, k', db. }
  intros u' request' flag Hf.
  apply (label_get_object_hidden k _ _ _ _ flag Hf).
  intros l Hl Hlid _. rewrite labels_set_through, labels_set_labels in Hl.
  apply list_elem_of_filter in Hl as [Hne _]. congruence.
Qed.

End LabelWrites.

(** ** The primary key of the recipe table is an invariant *)

Section Invariants.
Context (decodable : string → bool).

Lemma replace_row_ids (table : list Recipe) old new :
  r_id new = r_id old →
  r_id <$> map (λ r0, if decide (r_id r0 = r_id old) then new else r0) table
  = r_id <$> table.
Proof.
  intros Hid. induction table as [|r table IH]; [done|].
  cbn [map fmap list_fmap]. f_equal; [|exact IH].
  case_decide; congruence.
Qed.

Lemma recipes_ok_ids db db' :
  recipes_ok db →
  NoDup (r_id <$> recipes db') →
  (∀ i, i ∈ r_id <$> recipes db' → i ∈ r_id <$> recipes db) →
  recipe_seq db ≤ recipe_seq db' →
  recipes_ok db'.
Proof.
  intros [Hpk Hseq] Hpk' Hsub Hle. split; [done|].
  intros r Hr.
  assert (r_id r ∈ r_id <$> recipes db) as Hin.
  { apply Hsub, list_elem_of_fmap. by exists r. }
  apply list_elem_of_fmap in Hin as (r0 & -> & Hr0). apply Hseq in Hr0. lia.
Qed.

(** X18: every request to the recipe endpoint keeps the recipe table
    well-formed: if the ids are pairwise different and below the sequence
    before the request, they are so after it, and the sequence has not
    gone back, so that an id, once used, is never given to another
    row. *)
Theorem dispatch_preserves_recipes_ok db request :
  recipes_ok db →
  recipes_ok (RecipeViewSet.dispatch decodable db request).1
  ∧ recipe_seq db
    ≤ recipe_seq (RecipeViewSet.dispatch decodable db request).1.
Proof.
  intros Hok.
  assert (recipes_ok db ∧ recipe_seq db ≤ recipe_seq db) as Hsame
    by (split; [done|lia]).
  assert (∀ partial u pk,
            let db' := (RecipeViewSet.update partial db u request pk).1 in
            recipes_ok db' ∧ recipe_seq db ≤ recipe_seq db') as Hupdate.
  { intros partial u pk. unfold RecipeViewSet.update.
    destruct (RecipeViewSet.get_object db u request pk) as [e|instance];
      [done|].
    destruct (serializer.is_valid partial (data request)); [|done].
    destruct (update_recipes u instance (data request) db)
      as (Hrows & Hseq & Hid & _).
    destruct (serializer.update u instance (data request) db)
      as [db' recipe]. cbn [fst snd ok] in *.
    assert (r_id <$> recipes db' = r_id <$> recipes db) as Hids
      by (rewrite Hrows; by apply replace_row_ids).
    split; [|lia].
    apply (recipes_ok_ids db); [done| | |lia]; rewrite Hids;
      [apply Hok|done]. }
  unfold RecipeViewSet.dispatch.
  destruct (user request) as [u|]; [|done].
  unfold RecipeViewSet.handler.
  destruct (route request) as [|pk|pk], (method request); cbn [fst];
    try done.
  - unfold RecipeViewSet.list_.
    by destruct (RecipeViewSet.get_queryset _ _ _).
  - unfold RecipeViewSet.create, RecipeViewSet.perform_create.
    destruct (serializer.is_valid false (data request)); [|done].
    pose proof (create_recipes_ok u (data request) db Hok) as Hok'.
    destruct (create_recipes u (data request) db) as (_ & Hseq & _).
    destruct (serializer.create u (data request) db) as [db' recipe].
    cbn [fst snd ok] in *. split; [done|lia].
  - unfold RecipeViewSet.retrieve.
    by destruct (RecipeViewSet.get_object _ _ _ _).
  - specialize (Hupdate false u pk).
    by destruct (RecipeViewSet.update false db u request pk).
  - specialize (Hupdate true u pk).
    by destruct (RecipeViewSet.update true db u request pk).
  - unfold RecipeViewSet.destroy.
    destruct (RecipeViewSet.get_object db u request pk) as [e|instance];
      [done|].
    cbn [fst ok]. destruct (delete_recipe_recipes instance db) as [Hrows Hseq].
    split; [|lia].
    apply (recipes_ok_ids db); [done| | |lia]; rewrite Hrows.
    + apply NoDup_ids_filter, Hok.
    + intros i (r & -> & Hr)%list_elem_of_fmap.
      apply list_elem_of_filter in Hr as [_ Hr].
      apply list_elem_of_fmap. by exists r.
  - unfold RecipeViewSet.upload_image.
    destruct (RecipeViewSet.get_object db u request pk) as [e|instance];
      [done|].
    destruct (serializer.image_is_valid decodable (data request)); [|done].
    destruct (image_save_recipes (uuid request) instance (data request) db)
      as (Hrows & Hseq & Hid & _).
    destruct (serializer.image_save (uuid request) instance (data request) db)
      as [db' recipe]. cbn [fst snd ok] in *.
    destruct Hrows as [Hrows | ->]; [|done].
    assert (r_id <$> recipes db' = r_id <$> recipes db) as Hids
      by (rewrite Hrows; by apply replace_row_ids).
    split; [|lia].
    apply (recipes_ok_ids db); [done| | |lia]; rewrite Hids;
      [apply Hok|done].
Qed.

End Invariants.

(** ** The further properties at the sample database *)

Section MoreInstances.

Lemma handle_returns_when_up_witness :
  let fs := [wait_for_db.Psycopg2Error; wait_for_db.OperationalError] in
  Forall wait_for_db.caught fs
  ∧ wait_for_db.handle (fs ++ wait_for_db.Up :: [wait_for_db.Unexpected "E"])
    = wait_for_db.Finished
        (wait_for_db.mkConsole
           [wait_for_db.Plain "Waiting for database...";
            wait_for_db.unavailable; wait_for_db.unavailable;
            wait_for_db.SUCCESS "Database available"]
           2 3).
Proof.
  intros fs.
  assert (Forall wait_for_db.caught fs) as Hfs.
  { apply (bool_decide_unpack _). by vm_compute. }
  split; [exact Hfs|].
  exact (handle_returns_when_up fs [wait_for_db.Unexpected "E"] Hfs).
Defined.

Lemma params_to_ints_reads_joined_ids_witness :
  [3; 12; -4] ≠ []
  ∧ Forall (λ n, Z.abs n < 10 ^ Py.max_str_digits) [3; 12; -4]
  ∧ RecipeViewSet._params_to_ints (join "," (str_int <$> [3; 12; -4]))
    = inr [3; 12; -4].
Proof.
  assert ([3; 12; -4] ≠ []) as Hne by discriminate.
  assert (Forall (λ n, Z.abs n < 10 ^ Py.max_str_digits) [3; 12; -4])
    as Hsmall by (repeat constructor).
  split; [exact Hne|]. split; [exact Hsmall|].
  exact (proj1 (params_to_ints_reads_joined_ids [3; 12; -4] Hne) Hsmall).
Defined.

Lemma get_queryset_depends_on_id_set_witness :
  let qp : gmap string string := {[ "tags" := "1,2" ]} in
  let qp' : gmap string string := {[ "tags" := "2,1,2" ]} in
  NoDup (r_id <$> recipes Sample.db)
  ∧ param_ids (qp !! "tags") = inr (Some [1; 2])
  ∧ param_ids (qp' !! "tags") = inr (Some [2; 1; 2])
  ∧ param_ids (qp !! "ingredients") = inr None
  ∧ param_ids (qp' !! "ingredients") = inr None
  ∧ same_ids (Some [1; 2]) (Some [2; 1; 2]) ∧ same_ids None None
  ∧ RecipeViewSet.get_queryset Sample.db Sample.alice qp
    = RecipeViewSet.get_queryset Sample.db Sample.alice qp'.
Proof.
  intros qp qp'.
  assert (same_ids (Some [1; 2]) (Some [2; 1; 2])) as Hsame.
  { intros n. rewrite !elem_of_cons, !elem_of_nil. tauto. }
  split; [apply sample_recipes_ok|].
  do 4 (split; [reflexivity|]). split; [exact Hsame|]. split; [exact I|].
  exact (get_queryset_depends_on_id_set Sample.db Sample.alice qp qp'
           (Some [1; 2]) (Some [2; 1; 2]) None None
           (recipes_pk _ sample_recipes_ok) eq_refl eq_refl eq_refl eq_refl
           Hsame I).
Defined.

Lemma get_queryset_filters_intersect_witness :
  let qp : gmap string string :=
    {[ "tags" := "1,2"; "ingredients" := "1" ]} in
  param_ids (qp !! "tags") = inr (Some [1; 2])
  ∧ param_ids (qp !! "ingredients") = inr (Some [1])
  ∧ ∃ both by_tags by_ingredients all,
      RecipeViewSet.get_queryset Sample.db Sample.alice qp = inr both
      ∧ RecipeViewSet.get_queryset Sample.db Sample.alice
          (delete "ingredients" qp) = inr by_tags
      ∧ RecipeViewSet.get_queryset Sample.db Sample.alice (delete "tags" qp)
        = inr by_ingredients
      ∧ RecipeViewSet.get_queryset Sample.db Sample.alice ∅ = inr all
      ∧ (∀ r, r ∈ both ↔ r ∈ by_tags ∧ r ∈ by_ingredients)
      ∧ by_tags ⊆ all ∧ by_ingredients ⊆ all.
Proof.
  intros qp. do 2 (split; [reflexivity|]).
  exact (get_queryset_filters_intersect Sample.db Sample.alice qp
           (Some [1; 2]) (Some [1]) eq_refl eq_refl).
Defined.

Lemma malformed_assigned_only_raises_witness :
  let request :=
    Sample.get Sample.alice ListRoute {[ "assigned_only" := "yes" ]} in
  user request = Some Sample.alice
  ∧ query_params request !! "assigned_only" = Some "yes"
  ∧ Py.int_literal "yes" = None
  ∧ label_evaluates_queryset request
  ∧ BaseRecipeAttrViewSet.dispatch TagKind Sample.db request
    = (Sample.db, inl ValueError).
Proof.
  intros request.
  assert (label_evaluates_queryset request) as Hact
    by (left; split; reflexivity).
  do 3 (split; [reflexivity|]). split; [exact Hact|].
  exact (proj1 (malformed_assigned_only_raises TagKind Sample.db request
                  Sample.alice "yes" eq_refl eq_refl eq_refl Hact)).
Defined.

Lemma assigned_only_applies_to_detail_actions_witness :
  let db := set_through IngredientKind [] Sample.db in
  let request :=
    mkRequest DELETE (DetailRoute 1) (Some Sample.alice)
      {[ "assigned_only" := "1" ]} no_data "" in
  user request = Some Sample.alice ∧ label_detail_action request 1
  ∧ NoDup (l_id <$> labels IngredientKind db)
  ∧ Sample.salt ∈ labels IngredientKind db
  ∧ l_user Sample.salt = Sample.alice ∧ l_id Sample.salt = 1
  ∧ BaseRecipeAttrViewSet.is_assigned_only (query_params request) = inr true
  ∧ (∀ rid, (rid, 1) ∉ through IngredientKind db)
  ∧ BaseRecipeAttrViewSet.dispatch IngredientKind db request
    = (db, inr not_found)
  ∧ BaseRecipeAttrViewSet.get_object IngredientKind db Sample.alice
      (with_query_params ∅ request) 1 = inr Sample.salt.
Proof.
  intros db request.
  assert (label_detail_action request 1) as Hact.
  { split; [reflexivity|]. apply list_elem_of_In. simpl. tauto. }
  assert (NoDup (l_id <$> labels IngredientKind db)) as Hpk.
  { apply (bool_decide_unpack _). by vm_compute. }
  assert (Sample.salt ∈ labels IngredientKind db) as Hin.
  { apply list_elem_of_In. simpl. tauto. }
  assert (∀ rid, (rid, 1) ∉ through IngredientKind db) as Hfree.
  { intros rid. apply not_elem_of_nil. }
  split; [reflexivity|]. split; [exact Hact|]. split; [exact Hpk|].
  split; [exact Hin|]. do 3 (split; [reflexivity|]). split; [exact Hfree|].
  exact (assigned_only_applies_to_detail_actions IngredientKind db request
           Sample.alice 1 Sample.salt eq_refl Hact Hpk Hin eq_refl eq_refl
           eq_refl Hfree).
Defined.

Lemma get_requests_write_nothing_witness :
  let request :=
    Sample.get Sample.alice (DetailRoute 3) {[ "tags" := "x" ]} in
  method request = GET
  ∧ (RecipeViewSet.dispatch Sample.decodable Sample.db request).1 = Sample.db
  ∧ ∀ k, (BaseRecipeAttrViewSet.dispatch k Sample.db request).1 = Sample.db.
Proof.
  intros request. split; [reflexivity|].
  exact (get_requests_write_nothing Sample.decodable Sample.db request
           eq_refl).
Defined.

Lemma recipe_writes_stay_with_owner_witness :
  let request := Sample.send DELETE Sample.alice (DetailRoute 1) no_data in
  NoDup (r_id <$> recipes Sample.db)
  ∧ user request = Some Sample.alice
  ∧ r_user Sample.soup ≠ Sample.alice
  ∧ (Sample.soup
       ∈ recipes (RecipeViewSet.dispatch Sample.decodable Sample.db request).1
     ↔ Sample.soup ∈ recipes Sample.db).
Proof.
  intros request.
  assert (r_user Sample.soup ≠ Sample.alice) as Hne by discriminate.
  split; [apply sample_recipes_ok|]. split; [reflexivity|].
  split; [exact Hne|].
  exact (recipe_writes_stay_with_owner Sample.decodable Sample.db request
           Sample.alice Sample.soup (recipes_pk _ sample_recipes_ok) eq_refl
           Hne).
Defined.

Lemma destroy_removes_the_recipe_witness :
  let request := Sample.send DELETE Sample.alice (DetailRoute 1) no_data in
  NoDup (r_id <$> recipes Sample.db)
  ∧ user request = Some Sample.alice
  ∧ method request = DELETE ∧ route request = DetailRoute 1
  ∧ RecipeViewSet.get_object Sample.db Sample.alice request 1
    = inr Sample.curry
  ∧ ∃ db',
      RecipeViewSet.dispatch Sample.decodable Sample.db request
      = (db', inr (mkResponse HTTP_204_NO_CONTENT NoBody))
      ∧ (∀ r, r ∈ recipes db' ↔ r ∈ recipes Sample.db ∧ r_id r ≠ 1)
      ∧ (∀ k link,
           link ∈ through k db' ↔ link ∈ through k Sample.db ∧ link.1 ≠ 1)
      ∧ (users db' = users Sample.db
         ∧ (∀ k, labels k db' = labels k Sample.db)
         ∧ tokens db' = tokens Sample.db ∧ media db' = media Sample.db
         ∧ user_seq db' = user_seq Sample.db
         ∧ recipe_seq db' = recipe_seq Sample.db
         ∧ ∀ k, label_seq k db' = label_seq k Sample.db)
      ∧ (∀ u' qp rows,
           RecipeViewSet.get_queryset Sample.db u' qp = inr rows →
           RecipeViewSet.get_queryset db' u' qp
           = inr (filter (λ r, r_id r ≠ 1) rows))
      ∧ (∀ u' request' tag_ids ing_ids,
           param_ids (query_params request' !! "tags") = inr tag_ids →
           param_ids (query_params request' !! "ingredients") = inr ing_ids →
           RecipeViewSet.get_object db' u' request' 1 = inl Http404).
Proof.
  intros request.
  assert (RecipeViewSet.get_object Sample.db Sample.alice request 1
          = inr Sample.curry) as Hg by (by vm_compute).
  split; [apply sample_recipes_ok|]. do 3 (split; [reflexivity|]).
  split; [exact Hg|].
  exact (destroy_removes_the_recipe Sample.decodable Sample.db request
           Sample.alice 1 Sample.curry (recipes_pk _ sample_recipes_ok)
           eq_refl eq_refl eq_refl Hg).
Defined.

Lemma create_then_list_witness :
  let request :=
    Sample.send POST Sample.alice ListRoute (Sample.names ["Thai"; "Vegan"]) in
  recipes_ok Sample.db ∧ user request = Some Sample.alice
  ∧ method request = POST ∧ route request = ListRoute
  ∧ serializer.is_valid false (data request) = true
  ∧ ∃ db' new,
      RecipeViewSet.dispatch Sample.decodable Sample.db request
      = (db', inr (mkResponse HTTP_201_CREATED (RecipeRow new)))
      ∧ (∀ rows,
           RecipeViewSet.get_queryset Sample.db Sample.alice ∅ = inr rows →
           RecipeViewSet.get_queryset db' Sample.alice ∅ = inr (new :: rows))
      ∧ (∀ u' qp,
           u' ≠ Sample.alice →
           RecipeViewSet.get_queryset db' u' qp
           = RecipeViewSet.get_queryset Sample.db u' qp).
Proof.
  intros request. split; [apply sample_recipes_ok|].
  do 4 (split; [reflexivity|]).
  exact (create_then_list Sample.decodable Sample.db request Sample.alice
           sample_recipes_ok eq_refl eq_refl eq_refl eq_refl).
Defined.


Lemma destroy_removes_the_label_witness :
  let request := Sample.send DELETE Sample.alice (DetailRoute 1) no_data in
  NoDup (l_id <$> labels TagKind Sample.db)
  ∧ user request = Some Sample.alice
  ∧ method request = DELETE ∧ route request = DetailRoute 1
  ∧ BaseRecipeAttrViewSet.get_object TagKind Sample.db Sample.alice request 1
    = inr Sample.dinner
  ∧ ∃ db',
      BaseRecipeAttrViewSet.dispatch TagKind Sample.db request
      = (db', inr (mkResponse HTTP_204_NO_CONTENT NoBody))
      ∧ recipes db' = recipes Sample.db
      ∧ (∀ l, l ∈ labels TagKind db'
              ↔ l ∈ labels TagKind Sample.db ∧ l ≠ Sample.dinner)
      ∧ (∀ link, link ∈ through TagKind db'
                 ↔ link ∈ through TagKind Sample.db ∧ link.2 ≠ 1)
      ∧ ((∀ k', k' ≠ TagKind →
            labels k' db' = labels k' Sample.db
            ∧ through k' db' = through k' Sample.db)
         ∧ users db' = users Sample.db ∧ tokens db' = tokens Sample.db
         ∧ media db' = media Sample.db
         ∧ user_seq db' = user_seq Sample.db
         ∧ recipe_seq db' = recipe_seq Sample.db
         ∧ ∀ k', label_seq k' db' = label_seq k' Sample.db)
      ∧ (∀ u' request' flag,
           BaseRecipeAttrViewSet.is_assigned_only (query_params request')
           = inr flag →
           BaseRecipeAttrViewSet.get_object TagKind db' u' request' 1
           = inl Http404).
Proof.
  intros request.
  assert (BaseRecipeAttrViewSet.get_object TagKind Sample.db Sample.alice
            request 1 = inr Sample.dinner) as Hg by (by vm_compute).
  split; [apply (sample_labels_ok TagKind)|]. do 3 (split; [reflexivity|]).
  split; [exact Hg|].
  exact (destroy_removes_the_label TagKind Sample.db request Sample.alice 1
           Sample.dinner (labels_pk _ _ (sample_labels_ok TagKind))
           eq_refl eq_refl eq_refl Hg).
Defined.

Lemma dispatch_preserves_recipes_ok_witness :
  let request :=
    Sample.send POST Sample.alice ListRoute (Sample.names ["Thai"]) in
  recipes_ok Sample.db
  ∧ recipes_ok
      (RecipeViewSet.dispatch Sample.decodable Sample.db request).1
  ∧ recipe_seq Sample.db
    ≤ recipe_seq
        (RecipeViewSet.dispatch Sample.decodable Sample.db request).1.
Proof.
  intros request. split; [apply sample_recipes_ok|].
  exact (dispatch_preserves_recipes_ok Sample.decodable Sample.db request
           sample_recipes_ok).
Defined.

End MoreInstances.
